(** * Keysight 3000 series protocol driver: block decoder and capture state machine

    A shallow embedding of [src/hardware/keysight-3000/protocol.c] and of the
    declarations of [protocol.h] it relies on, followed by the properties of
    the block header decoder, the chunked block reader, the sample converter
    and the acquisition state machine.

    Conventions of the embedding:
    - C integers are [Z]; every conversion between [int] and [uint64_t] is
      written out with [to_int] and [to_u64].
    - Bytes are [Z] in [0..255]; the acquisition buffers are lists.
    - [float] values are [spec_float] of precision 24, [double] values
      [spec_float] of precision 53 (IEEE 754, round to nearest even).
    - The driver's functions run in the monad [M]: state passing over the
      device instance, with [None] where the C program dereferences NULL,
      indexes outside an array or leaves a function without [return].
    - The arithmetic that ISO C leaves undefined has a value in the model,
      that of two's complement hardware: the overflow of an [int] operation
      wraps ([to_int]) and the conversion to [int] of a [float] that is not
      finite or out of range answers [INT_MIN] ([int_of_float]).  The
      properties that depend on such a value say so. *)

From Stdlib Require Import ZArith Lia Bool.
From Stdlib Require Import Floats.SpecFloat.
From stdpp Require Import base option list.

Local Open Scope Z_scope.

(** ** Integer types and constants *)

(** libsigrok status codes, glib booleans and I/O conditions. *)
Definition SR_OK : Z := 0.
Definition SR_ERR : Z := -1.
Definition TRUE : Z := 1.
Definition G_IO_IN : Z := 1.

(** [protocol.h]: size of acquisition buffers. *)
Definition ACQ_BUFFER_SIZE : Z := 64 * 1024.
Definition MAX_ANALOG_CHANNELS : Z := 4.

Definition INT_MAX : Z := 2147483647.
Definition INT_MIN : Z := -2147483648.
(** [long] of an LP64 platform. *)
Definition LONG_MAX : Z := 9223372036854775807.
Definition LONG_MIN : Z := -9223372036854775808.

(** Conversion to [uint64_t] / [size_t]: reduction modulo 2^64. *)
Definition to_u64 (z : Z) : Z := z mod 2 ^ 64.

(** Conversion to [int]: two's complement wrap-around on 32 bits. *)
Definition to_int (z : Z) : Z := (z + 2 ^ 31) mod 2 ^ 32 - 2 ^ 31.

(** C truth value of a comparison. *)
Definition Z_of_bool (b : bool) : Z := if b then 1 else 0.

(** ** Characters and [strtol] *)

(** [<ctype.h>] in the C locale. *)
Definition isdigit (c : Z) : bool := (48 <=? c) && (c <=? 57).
Definition isspace (c : Z) : bool := (c =? 32) || ((9 <=? c) && (c <=? 13)).

Definition HASH : Z := 35.     (* '#' *)
Definition CHAR_0 : Z := 48.   (* '0' *)
Definition PLUS : Z := 43.     (* '+' *)
Definition MINUS : Z := 45.    (* '-' *)

(** The C string stored at the start of [s]: the bytes before the first NUL. *)
Fixpoint c_string (s : list Z) : list Z :=
  match s with
  | [] => []
  | c :: s' => if c =? 0 then [] else c :: c_string s'
  end.

Fixpoint skip_spaces (s : list Z) : list Z :=
  match s with
  | c :: s' => if isspace c then skip_spaces s' else s
  | [] => []
  end.

(** Accumulates the leading decimal digits of [s]: the value read, the number
    of digits, and the rest of the string. *)
Fixpoint read_digits (s : list Z) (acc : Z) (n : nat) : Z * nat * list Z :=
  match s with
  | c :: s' =>
      if isdigit c then read_digits s' (10 * acc + (c - CHAR_0)) (S n)
      else (acc, n, s)
  | [] => (acc, n, [])
  end.

(** [strtol (str, &e, 10)] of ISO C on the string [str] (given without its
    terminating NUL): optional white space, an optional sign, decimal digits.
    The result is the value, the offset [e - str] of the end pointer and
    whether [errno] was set to [ERANGE].  Without any digit no conversion is
    performed: the value is 0 and [e = str]. *)
Definition strtol (str : list Z) : Z * nat * bool :=
  let s1 := skip_spaces str in
  let '(neg, s2) :=
    match s1 with
    | c :: s' =>
        if c =? MINUS then (true, s')
        else if c =? PLUS then (false, s')
        else (false, s1)
    | [] => (false, s1)
    end in
  let '(mag, nd, rest) := read_digits s2 0 0 in
  match nd with
  | O => (0, O, false)
  | S _ =>
      let v := if neg then - mag else mag in
      let e := (length str - length rest)%nat in
      if LONG_MAX <? v then (LONG_MAX, e, true)
      else if v <? LONG_MIN then (LONG_MIN, e, true)
      else (v, e, false)
  end.

(** ** Floating point *)

Definition float32 := spec_float.
Definition float64 := spec_float.

Definition f64_of_int (z : Z) : float64 := binary_normalize 53 1024 z 0 false.
Definition f64_sub (x y : float64) : float64 := SFsub 53 1024 x y.
Definition f64_mul (x y : float64) : float64 := SFmul 53 1024 x y.

(** [float] to [double] is exact: the same number, read in the wider format. *)
Definition f64_of_f32 (x : float32) : float64 := x.

(** [double] to [float]: rounding to the narrower format. *)
Definition f32_of_f64 (x : float64) : float32 :=
  match x with
  | S754_finite s m e => binary_round 24 128 s m e
  | _ => x
  end.

(** The integer part of a [float], rounded toward zero; none for NaN and the
    infinities. *)
Definition float_trunc (x : float32) : option Z :=
  match x with
  | S754_zero _ => Some 0
  | S754_finite s m e =>
      let mag := if 0 <=? e then Z.pos m * 2 ^ e else Z.pos m / 2 ^ (- e) in
      Some (if s then - mag else mag)
  | _ => None
  end.

(** [(int) x] for a [float]: truncation toward zero.  ISO C leaves the
    conversion of NaN, of infinities and of values outside the range of [int]
    undefined; the model answers [INT_MIN] there, as x86-64 does. *)
Definition int_of_float (x : float32) : Z :=
  match float_trunc x with
  | Some v => if (INT_MIN <=? v) && (v <=? INT_MAX) then v else INT_MIN
  | None => INT_MIN
  end.

(** [x < 0.0] *)
Definition float_ltb_0 (x : float32) : bool := SFltb x (S754_zero false).

(** ** Data model *)

(** [struct sr_channel]: the fields the driver reads. *)
Inductive channel_type := SR_CHANNEL_LOGIC | SR_CHANNEL_ANALOG.

Record sr_channel := { index : Z; type : channel_type }.

(** [enum state_e] of [protocol.h]. *)
Inductive state_e := STATE_IDLE | STATE_DIGITIZING | STATE_READING_DATA.

(** [struct dev_context] of [protocol.h]: the acquisition settings, the cached
    calibration arrays and the progress counters used by the capture code.
    The [GSList] of enabled channels is a list; [channel_entry], a pointer
    into it, is the suffix that starts at the current entry ([[]] is NULL). *)
Record dev_context := {
  enabled_channels : list sr_channel;
  limit_frames : Z;
  vert_reference : list Z;
  vert_origin : list float32;
  vert_offset : list float32;
  vert_inc : list float32;
  num_frames : Z;
  channel_entry : list sr_channel;
  num_channel_bytes_total : Z;
  num_channel_bytes : Z;
  num_header_bytes : Z;
  num_block_bytes : Z;
  num_block_read : Z;
  state : state_e;
  buffer : list Z;
  data : list float32
}.

Definition set_vert_reference (v : list Z) (d : dev_context) : dev_context :=
  Build_dev_context (enabled_channels d) (limit_frames d) v (vert_origin d)
    (vert_offset d) (vert_inc d) (num_frames d) (channel_entry d)
    (num_channel_bytes_total d) (num_channel_bytes d) (num_header_bytes d)
    (num_block_bytes d) (num_block_read d) (state d) (buffer d) (data d).

Definition set_vert_origin (v : list float32) (d : dev_context) : dev_context :=
  Build_dev_context (enabled_channels d) (limit_frames d) (vert_reference d)
    v (vert_offset d) (vert_inc d) (num_frames d) (channel_entry d)
    (num_channel_bytes_total d) (num_channel_bytes d) (num_header_bytes d)
    (num_block_bytes d) (num_block_read d) (state d) (buffer d) (data d).

Definition set_vert_inc (v : list float32) (d : dev_context) : dev_context :=
  Build_dev_context (enabled_channels d) (limit_frames d) (vert_reference d)
    (vert_origin d) (vert_offset d) v (num_frames d) (channel_entry d)
    (num_channel_bytes_total d) (num_channel_bytes d) (num_header_bytes d)
    (num_block_bytes d) (num_block_read d) (state d) (buffer d) (data d).

Definition set_num_frames (v : Z) (d : dev_context) : dev_context :=
  Build_dev_context (enabled_channels d) (limit_frames d) (vert_reference d)
    (vert_origin d) (vert_offset d) (vert_inc d) v (channel_entry d)
    (num_channel_bytes_total d) (num_channel_bytes d) (num_header_bytes d)
    (num_block_bytes d) (num_block_read d) (state d) (buffer d) (data d).

Definition set_channel_entry (v : list sr_channel) (d : dev_context) : dev_context :=
  Build_dev_context (enabled_channels d) (limit_frames d) (vert_reference d)
    (vert_origin d) (vert_offset d) (vert_inc d) (num_frames d) v
    (num_channel_bytes_total d) (num_channel_bytes d) (num_header_bytes d)
    (num_block_bytes d) (num_block_read d) (state d) (buffer d) (data d).

Definition set_num_channel_bytes_total (v : Z) (d : dev_context) : dev_context :=
  Build_dev_context (enabled_channels d) (limit_frames d) (vert_reference d)
    (vert_origin d) (vert_offset d) (vert_inc d) (num_frames d)
    (channel_entry d) v (num_channel_bytes d) (num_header_bytes d)
    (num_block_bytes d) (num_block_read d) (state d) (buffer d) (data d).

Definition set_num_channel_bytes (v : Z) (d : dev_context) : dev_context :=
  Build_dev_context (enabled_channels d) (limit_frames d) (vert_reference d)
    (vert_origin d) (vert_offset d) (vert_inc d) (num_frames d)
    (channel_entry d) (num_channel_bytes_total d) v (num_header_bytes d)
    (num_block_bytes d) (num_block_read d) (state d) (buffer d) (data d).

Definition set_num_header_bytes (v : Z) (d : dev_context) : dev_context :=
  Build_dev_context (enabled_channels d) (limit_frames d) (vert_reference d)
    (vert_origin d) (vert_offset d) (vert_inc d) (num_frames d)
    (channel_entry d) (num_channel_bytes_total d) (num_channel_bytes d) v
    (num_block_bytes d) (num_block_read d) (state d) (buffer d) (data d).

Definition set_num_block_bytes (v : Z) (d : dev_context) : dev_context :=
  Build_dev_context (enabled_channels d) (limit_frames d) (vert_reference d)
    (vert_origin d) (vert_offset d) (vert_inc d) (num_frames d)
    (channel_entry d) (num_channel_bytes_total d) (num_channel_bytes d)
    (num_header_bytes d) v (num_block_read d) (state d) (buffer d) (data d).

Definition set_num_block_read (v : Z) (d : dev_context) : dev_context :=
  Build_dev_context (enabled_channels d) (limit_frames d) (vert_reference d)
    (vert_origin d) (vert_offset d) (vert_inc d) (num_frames d)
    (channel_entry d) (num_channel_bytes_total d) (num_channel_bytes d)
    (num_header_bytes d) (num_block_bytes d) v (state d) (buffer d) (data d).

Definition set_state (v : state_e) (d : dev_context) : dev_context :=
  Build_dev_context (enabled_channels d) (limit_frames d) (vert_reference d)
    (vert_origin d) (vert_offset d) (vert_inc d) (num_frames d)
    (channel_entry d) (num_channel_bytes_total d) (num_channel_bytes d)
    (num_header_bytes d) (num_block_bytes d) (num_block_read d) v (buffer d)
    (data d).

Definition set_buffer (v : list Z) (d : dev_context) : dev_context :=
  Build_dev_context (enabled_channels d) (limit_frames d) (vert_reference d)
    (vert_origin d) (vert_offset d) (vert_inc d) (num_frames d)
    (channel_entry d) (num_channel_bytes_total d) (num_channel_bytes d)
    (num_header_bytes d) (num_block_bytes d) (num_block_read d) (state d) v
    (data d).

Definition set_data (v : list float32) (d : dev_context) : dev_context :=
  Build_dev_context (enabled_channels d) (limit_frames d) (vert_reference d)
    (vert_origin d) (vert_offset d) (vert_inc d) (num_frames d)
    (channel_entry d) (num_channel_bytes_total d) (num_channel_bytes d)
    (num_header_bytes d) (num_block_bytes d) (num_block_read d) (state d)
    (buffer d) v.

(** Packets handed to the session, and the calls made on it. *)
Inductive sr_datafeed_packet :=
| SR_DF_FRAME_BEGIN
| SR_DF_FRAME_END
| SR_DF_ANALOG (ch : sr_channel) (digits : Z) (num_samples : Z)
    (samples : list float32)
| SR_DF_LOGIC (length : Z) (unitsize : Z) (bytes : list Z).

Inductive session_call :=
| Session_send (p : sr_datafeed_packet)
| Acquisition_stop.

(** The messages of [sr_dbg] and [sr_err], in the order of the source. *)
Inductive log_msg :=
| Dbg_parse_failed
| Dbg_parse_overflow
| Dbg_parse_range
| Dbg_capture_start (frameset limit : Z)
| Dbg_channel_start (n : Z)
| Err_header_read
| Err_invalid_header (c0 c1 : Z)
| Err_invalid_length
| Dbg_block_header (len : Z)
| Dbg_new_block_header
| Err_abort_header
| Dbg_requesting (len : Z)
| Err_abort_data
| Dbg_received (len : Z)
| Dbg_block_completed
| Err_read_incomplete
| Dbg_block_progress (read total : Z).

(** *** The SCPI transport *)

(** The commands the capture code sends. *)
Inductive scpi_command :=
| DIGITIZE_OPC            (* ":DIGitize;*OPC?" *)
| WAV_SOUR_CHAN (n : Z)   (* ":WAV:SOUR CHAN%d" *)
| WAV_SOUR_POD (n : Z)    (* ":WAV:SOUR POD%d" *)
| WAV_FORM_BYTE           (* ":WAV:FORM BYTE" *)
| WAV_POIN_MODE_NORM      (* ":WAV:POIN:MODE NORM" *)
| WAV_UNS_ON              (* ":WAV:UNS ON" *)
| WAV_YINC                (* ":WAV:YINC?" *)
| WAV_YOR                 (* ":WAV:YOR?" *)
| WAV_YREF                (* ":WAV:YREF?" *)
| WAV_POIN                (* ":WAV:POIN?" *)
| WAV_DATA.               (* ":WAV:DATA?" *)

Inductive scpi_call :=
| Scpi_send (c : scpi_command)
| Scpi_get_opc
| Scpi_get_float (c : scpi_command)
| Scpi_get_int (c : scpi_command)
| Scpi_read_begin
| Scpi_read_data (maxlen : Z)
| Scpi_read_complete.

Inductive scpi_reply :=
| Reply_ok
| Reply_err
| Reply_float (f : float32)
| Reply_int (z : Z)
| Reply_bool (b : bool).

Inductive read_event :=
| Ready (n : nat)
| Failure.

#[global] Instance read_event_eq_dec : EqDecision read_event.
Proof. solve_decision. Defined.

(** Modelled from the spec: the transport collaborator ([scpi.c], which is not
    part of these sources), "sendCommand(text), readBytes(buffer, maxLen) ->
    bytesRead | error, readPendingComplete() -> bool, plus typed query
    helpers", each returning at once with whatever is available.  The
    instrument is a script: [replies] holds the outcome of each successive
    command, query, [read_begin] and [read_complete]; [rx] the response bytes
    not yet handed over; [ready] says, for each successive [read_data], how
    many bytes are ready at most or that the read fails.  [calls] records the
    calls made. *)
Record sr_scpi_dev_inst := {
  replies : list scpi_reply;
  rx : list Z;
  ready : list read_event;
  calls : list scpi_call
}.

(** [struct sr_dev_inst]: [priv] is the driver context (NULL is [None]),
    [conn] the transport, [session] what the session has been sent so far. *)
Record sr_dev_inst := {
  priv : option dev_context;
  conn : sr_scpi_dev_inst;
  session : list session_call;
  log : list log_msg
}.

(** ** The monad of the driver *)

Definition M (A : Type) : Type := sr_dev_inst -> option (A * sr_dev_inst).

#[global] Instance M_ret : MRet M := fun A a sdi => Some (a, sdi).

#[global] Instance M_bind : MBind M := fun A B f m sdi =>
  match m sdi with
  | Some (a, sdi') => f a sdi'
  | None => None
  end.

(** Undefined behaviour of the C program. *)
Definition undefined {A} : M A := fun _ => None.

(** [sdi->priv], dereferenced. *)
Definition get_devc : M dev_context := fun sdi =>
  match priv sdi with
  | Some d => Some (d, sdi)
  | None => None
  end.

Definition modify_devc (f : dev_context -> dev_context) : M unit := fun sdi =>
  match priv sdi with
  | Some d =>
      Some (tt, {| priv := Some (f d); conn := conn sdi;
                   session := session sdi; log := log sdi |})
  | None => None
  end.

Definition sr_log (m : log_msg) : M unit := fun sdi =>
  Some (tt, {| priv := priv sdi; conn := conn sdi;
               session := session sdi; log := log sdi ++ [m] |}).

Definition session_do (c : session_call) : M unit := fun sdi =>
  Some (tt, {| priv := priv sdi; conn := conn sdi;
               session := session sdi ++ [c]; log := log sdi |}).

Definition sr_session_send (p : sr_datafeed_packet) : M unit :=
  session_do (Session_send p).
Definition std_session_send_df_frame_begin : M unit :=
  sr_session_send SR_DF_FRAME_BEGIN.
Definition std_session_send_df_frame_end : M unit :=
  sr_session_send SR_DF_FRAME_END.
Definition sr_dev_acquisition_stop : M unit := session_do Acquisition_stop.

(** Array accesses; an index out of range is undefined. *)
Definition array_get {A} (a : list A) (i : Z) : option A :=
  if i <? 0 then None else a !! Z.to_nat i.

Definition array_set {A} (a : list A) (i : Z) (v : A) : option (list A) :=
  if (0 <=? i) && (i <? Z.of_nat (length a)) then Some (<[Z.to_nat i := v]> a)
  else None.

Definition lift {A} (o : option A) : M A := fun sdi =>
  match o with
  | Some a => Some (a, sdi)
  | None => None
  end.

(** [memcpy (a + off, bytes, length bytes)]. *)
Definition array_write (a : list Z) (off : Z) (bytes : list Z) : option (list Z) :=
  match bytes with
  | [] => Some a
  | _ =>
      if (0 <=? off) && (off + Z.of_nat (length bytes) <=? Z.of_nat (length a))
      then Some (take (Z.to_nat off) a ++ bytes
                   ++ drop (Z.to_nat off + length bytes) a)
      else None
  end.

(** *** Transport calls *)

Definition set_conn (c : sr_scpi_dev_inst) : M unit := fun sdi =>
  Some (tt, {| priv := priv sdi; conn := c;
               session := session sdi; log := log sdi |}).

Definition get_conn : M sr_scpi_dev_inst := fun sdi => Some (conn sdi, sdi).

(** One call answered by the next reply of the script; an instrument that has
    nothing left to say answers with an error. *)
Definition scpi_exchange (c : scpi_call) : M scpi_reply :=
  s ← get_conn;
  set_conn {| replies := tail (replies s); rx := rx s; ready := ready s;
              calls := calls s ++ [c] |};;
  mret (hd Reply_err (replies s)).

Definition sr_scpi_send (c : scpi_command) : M Z :=
  r ← scpi_exchange (Scpi_send c);
  mret (match r with Reply_ok => SR_OK | _ => SR_ERR end).

Definition sr_scpi_get_opc : M Z :=
  r ← scpi_exchange Scpi_get_opc;
  mret (match r with Reply_ok => SR_OK | _ => SR_ERR end).

Definition sr_scpi_read_begin : M Z :=
  r ← scpi_exchange Scpi_read_begin;
  mret (match r with Reply_ok => SR_OK | _ => SR_ERR end).

Definition sr_scpi_read_complete : M bool :=
  r ← scpi_exchange Scpi_read_complete;
  mret (match r with Reply_bool b => b | _ => false end).

(** The typed queries return the status and the value stored through the
    result pointer, which is written only on success. *)
Definition sr_scpi_get_float (c : scpi_command) : M (Z * option float32) :=
  r ← scpi_exchange (Scpi_get_float c);
  mret (match r with Reply_float f => (SR_OK, Some f) | _ => (SR_ERR, None) end).

Definition sr_scpi_get_int (c : scpi_command) : M (Z * option Z) :=
  r ← scpi_exchange (Scpi_get_int c);
  mret (match r with Reply_int z => (SR_OK, Some z) | _ => (SR_ERR, None) end).

(** The number of bytes that are ready for the next read; none when the script
    is exhausted. *)
Definition ready_count (evs : list read_event) : nat :=
  match evs with
  | Ready k :: _ => k
  | _ => O
  end.

(** [sr_scpi_read_data (scpi, (char * ) devc->buffer + off, maxlen)]: hands
    over at most [maxlen] of the bytes that are ready, storing them in the
    buffer, and returns their number, or [SR_ERR]. *)
Definition sr_scpi_read_data (off maxlen : Z) : M Z :=
  s ← get_conn;
  let called (n : nat) :=
    {| replies := replies s; rx := drop n (rx s); ready := tail (ready s);
       calls := calls s ++ [Scpi_read_data maxlen] |} in
  match ready s with
  | Failure :: _ => set_conn (called O);; mret SR_ERR
  | evs =>
      let bytes := take (Nat.min (ready_count evs) (Z.to_nat maxlen)) (rx s) in
      d ← get_devc;
      b ← lift (array_write (buffer d) off bytes);
      modify_devc (set_buffer b);;
      set_conn (called (length bytes));;
      mret (Z.of_nat (length bytes))
  end.

(** ** The driver: [protocol.c] *)

(** A C statement that may execute [return]: [Some r] when it returned [r],
    [None] when control falls through to the next statement. *)
Definition stmt := M (option Z).

Definition seq (s k : stmt) : stmt :=
  r ← s; match r with Some v => mret (Some v) | None => k end.

Notation "s ';;;' k" :=
  (seq s k) (at level 100, k at level 200, right associativity).

Definition return_ (r : Z) : stmt := mret (Some r).
Definition skip : stmt := mret None.
Definition exec (m : M unit) : stmt := m;; mret None.

(** The body of a function returning [int]; leaving it without [return] is
    undefined. *)
Definition body (s : stmt) : M Z :=
  r ← s; match r with Some v => mret v | None => undefined end.

(** [if (m != SR_OK) return e;] *)
Definition return_unless_ok (m : M Z) (e : Z) : stmt :=
  r ← m; if negb (r =? SR_OK) then return_ e else skip.

Definition parse_int (str : list Z) : M (Z * option Z) :=
  let '(tmp, e, errno) := strtol str in
  if (e =? 0)%nat || (e <? length str)%nat then
    sr_log Dbg_parse_failed;; mret (SR_ERR, None)
  else if errno then
    sr_log Dbg_parse_overflow;; mret (SR_ERR, None)
  else if (INT_MAX <? tmp) || (tmp <? INT_MIN) then
    sr_log Dbg_parse_range;; mret (SR_ERR, None)
  else mret (SR_OK, Some (to_int tmp)).

(** Send a configuration setting. *)
Definition keysight_config_set (c : scpi_command) : M Z :=
  ret ← sr_scpi_send c;
  if negb (ret =? SR_OK) then mret SR_ERR
  else sr_scpi_get_opc.

(** Start capturing a new frameset. *)
Definition keysight_capture_start : M Z := fun sdi =>
  match priv sdi with
  | None => Some (SR_ERR, sdi)
  | Some devc =>
      body
        (let limit_frames := to_u64 (limit_frames devc) in
         exec (sr_log (Dbg_capture_start (to_u64 (num_frames devc + 1))
                         limit_frames));;;
         return_unless_ok (sr_scpi_send DIGITIZE_OPC) TRUE;;;
         exec (modify_devc (set_state STATE_DIGITIZING));;;
         return_ SR_OK) sdi
  end.

(** [devc->channel_entry->data] *)
Definition current_channel : M sr_channel :=
  devc ← get_devc;
  match channel_entry devc with
  | ch :: _ => mret ch
  | [] => undefined
  end.

(** A typed query into an element of an array of the context:
    [if (get (cmd, &array[i]) != SR_OK) return SR_ERR;] *)
Definition query_into {A} (get : M (Z * option A))
    (arr : dev_context -> list A) (set : list A -> dev_context -> dev_context)
    (i : Z) : stmt :=
  '(r, v) ← get;
  match v with
  | Some x =>
      devc ← get_devc;
      a ← lift (array_set (arr devc) i x);
      modify_devc (set a)
  | None => mret tt
  end;;
  if negb (r =? SR_OK) then return_ SR_ERR else skip.

(** Start reading data from the current channel. *)
Definition keysight_channel_start : M Z := fun sdi =>
  match priv sdi with
  | None => Some (SR_ERR, sdi)
  | Some devc0 =>
      body
        (ch ← current_channel;
         exec (sr_log (Dbg_channel_start (to_int (index ch + 1))));;;
         let first_frame := num_frames devc0 =? 0 in
         match type ch with
         | SR_CHANNEL_ANALOG =>
             return_unless_ok
               (keysight_config_set (WAV_SOUR_CHAN (to_int (index ch + 1))))
               SR_ERR
         | SR_CHANNEL_LOGIC =>
             return_unless_ok
               (keysight_config_set
                  (WAV_SOUR_POD (if index ch <? 8 then 1 else 2)))
               SR_ERR
         end;;;
         (if first_frame then
            return_unless_ok (keysight_config_set WAV_FORM_BYTE) SR_ERR;;;
            return_unless_ok (keysight_config_set WAV_POIN_MODE_NORM) SR_ERR;;;
            (* Required for digital data *)
            return_unless_ok (keysight_config_set WAV_UNS_ON) SR_ERR;;;
            match type ch with
            | SR_CHANNEL_ANALOG =>
                (* Vertical increment. *)
                query_into (sr_scpi_get_float WAV_YINC)
                  vert_inc set_vert_inc (index ch);;;
                (* Vertical origin. *)
                query_into (sr_scpi_get_float WAV_YOR)
                  vert_origin set_vert_origin (index ch);;;
                (* Vertical reference. *)
                query_into (sr_scpi_get_int WAV_YREF)
                  vert_reference set_vert_reference (index ch)
            | SR_CHANNEL_LOGIC => skip
            end
          else skip);;;
         ('(r, v) ← sr_scpi_get_int WAV_POIN;
          match v with
          | Some n => modify_devc (set_num_channel_bytes_total n)
          | None => mret tt
          end;;
          if negb (r =? SR_OK) then return_ SR_ERR else skip);;;
         exec (modify_devc (set_num_channel_bytes 0));;;
         exec (modify_devc (set_num_header_bytes 0));;;
         exec (modify_devc (set_num_block_bytes 0));;;
         return_unless_ok (sr_scpi_send WAV_DATA) TRUE;;;
         return_unless_ok sr_scpi_read_begin TRUE;;;
         exec (modify_devc (set_state STATE_READING_DATA));;;
         return_ SR_OK) sdi
  end.

(** Read the header of a data block. *)
Definition keysight_read_header : M Z :=
  body
    ((* Try to read the hashsign and length digit. *)
     (devc ← get_devc;
      if num_header_bytes devc <? 2 then
        ret ← sr_scpi_read_data (num_header_bytes devc)
                (to_int (to_u64 (2 - num_header_bytes devc)));
        if ret <? 0 then
          exec (sr_log Err_header_read);;;
          return_ SR_ERR
        else
          exec (modify_devc (fun d =>
                  set_num_header_bytes (to_u64 (num_header_bytes d + ret)) d))
      else skip);;;
     (devc ← get_devc;
      if num_header_bytes devc <? 2 then return_ 0 else skip);;;
     devc ← get_devc;
     b0 ← lift (array_get (buffer devc) 0);
     b1 ← lift (array_get (buffer devc) 1);
     (if negb (b0 =? HASH) || negb (isdigit b1) || (b1 =? CHAR_0) then
        exec (sr_log (Err_invalid_header b0 b1));;;
        return_ SR_ERR
      else skip);;;
     let header_length := to_u64 (2 + b1 - CHAR_0) in
     (* Try to read the length. *)
     (devc ← get_devc;
      if num_header_bytes devc <? header_length then
        ret ← sr_scpi_read_data (num_header_bytes devc)
                (to_int (to_u64 (header_length - num_header_bytes devc)));
        if ret <? 0 then
          exec (sr_log Err_header_read);;;
          return_ SR_ERR
        else
          exec (modify_devc (fun d =>
                  set_num_header_bytes (to_u64 (num_header_bytes d + ret)) d))
      else skip);;;
     (devc ← get_devc;
      if num_header_bytes devc <? header_length then return_ 0 else skip);;;
     (* Read the data length. *)
     (devc ← get_devc;
      b ← lift (array_set (buffer devc) header_length 0);
      exec (modify_devc (set_buffer b)));;;
     devc ← get_devc;
     '(r, v) ← parse_int (c_string (drop 2 (buffer devc)));
     if negb (r =? SR_OK) then
       exec (sr_log Err_invalid_length);;;
       return_ (-1)
     else
       match v with
       | Some ret =>
           exec (sr_log (Dbg_block_header ret));;;
           return_ ret
       | None => undefined
       end).

(** The conversion of one raw byte of an analog channel:
    [((int) devc->buffer[i] - vref - origin) * vdiv], stored in a [float].
    The first subtraction is one of [int]; the usual conversions then make
    the second a subtraction and the product a product of [double] (the
    reference is an [int], the origin and the increment are held in
    [double] locals).  ISO C leaves an overflow of the [int] subtraction
    undefined; the model wraps there, as two's complement hardware does. *)
Definition analog_sample (vref : Z) (origin vdiv : float64) (b : Z) : float32 :=
  f32_of_f64 (f64_mul (f64_sub (f64_of_int (to_int (b - vref))) origin) vdiv).

(** [for (i = 0; i < len; i++) devc->data[i] = ...], with [n] iterations left. *)
Fixpoint convert_loop (vref : Z) (origin vdiv : float64) (buffer : list Z)
    (n : nat) (i : Z) (data : list float32) : option (list float32) :=
  match n with
  | O => Some data
  | S n' =>
      b ← array_get buffer i;
      data' ← array_set data i (analog_sample vref origin vdiv b);
      convert_loop vref origin vdiv buffer n' (i + 1) data'
  end.

(** [-(int) vdivlog + (vdivlog < 0.0)] *)
Definition analog_digits (vdivlog : float32) : Z :=
  to_int (to_int (- int_of_float vdivlog) + Z_of_bool (float_ltb_0 vdivlog)).

Section Receive.

(** [log10f] of the C library. *)
Variable log10f : float32 -> float32.

(** Lines 312-328 of [keysight_receive]: a new block header is expected. *)
Definition receive_header : stmt :=
  devc ← get_devc;
  if num_block_bytes devc =? 0 then
    exec (sr_log Dbg_new_block_header);;;
    len ← keysight_read_header;
    if len =? 0 then
      (* Still reading the header. *)
      return_ TRUE
    else if len =? -1 then
      exec (sr_log Err_abort_header);;;
      exec std_session_send_df_frame_end;;;
      exec sr_dev_acquisition_stop;;;
      exec (modify_devc (set_state STATE_IDLE));;;
      return_ TRUE
    else
      exec (modify_devc (set_num_block_bytes (to_u64 len)));;;
      exec (modify_devc (set_num_block_read 0))
  else skip.

(** Lines 349-376: the chunk of [len] bytes just read is converted and sent
    to the session. *)
Definition receive_emit (ch : sr_channel) (len : Z) : M unit :=
  devc ← get_devc;
  match type ch with
  | SR_CHANNEL_ANALOG =>
      vref ← lift (array_get (vert_reference devc) (index ch));
      vdiv ← lift (array_get (vert_inc devc) (index ch));
      origin ← lift (array_get (vert_origin devc) (index ch));
      offset ← lift (array_get (vert_offset devc) (index ch));
      data' ← lift (convert_loop vref (f64_of_f32 origin) (f64_of_f32 vdiv)
                      (buffer devc) (Z.to_nat len) 0 (data devc));
      modify_devc (set_data data');;
      let vdivlog := log10f (f32_of_f64 (f64_of_f32 vdiv)) in
      let digits := analog_digits vdivlog in
      sr_session_send
        (SR_DF_ANALOG ch digits len (take (Z.to_nat len) data'))
  | SR_CHANNEL_LOGIC =>
      (* We get only 8 bits of logic data from either POD1 or POD2 *)
      sr_session_send (SR_DF_LOGIC len 1 (take (Z.to_nat len) (buffer devc)))
  end.

(** Lines 378-394: the end of the block. *)
Definition receive_block_end : M unit :=
  devc ← get_devc;
  if num_block_read devc =? num_block_bytes devc then
    sr_log Dbg_block_completed;;
    (* Discard the terminating linefeed *)
    sr_scpi_read_data 0 1;;
    (* Prepare for possible next block *)
    modify_devc (set_num_header_bytes 0);;
    modify_devc (set_num_block_bytes 0);;
    modify_devc (set_num_block_read 0);;
    complete ← sr_scpi_read_complete;
    devc ← get_devc;
    if negb complete && bool_decide (tail (channel_entry devc) = [])
    then sr_log Err_read_incomplete
    else mret tt
  else
    sr_log (Dbg_block_progress (num_block_read devc) (num_block_bytes devc)).

(** Lines 405-425: the end of the data of this channel. *)
Definition receive_channel_end : stmt :=
  devc ← get_devc;
  match tail (channel_entry devc) with
  | (_ :: _) as next =>
      (* We got the frame for this channel, now get the next channel. *)
      exec (modify_devc (set_channel_entry next));;;
      exec (keysight_channel_start;; mret tt);;;
      return_ TRUE
  | [] =>
      (* Done with this frame. *)
      exec std_session_send_df_frame_end;;;
      exec (modify_devc (set_state STATE_IDLE));;;
      exec (modify_devc (fun d => set_num_frames (to_u64 (num_frames d + 1)) d));;;
      (* Get the next frame, starting with the first channel. *)
      exec (modify_devc (fun d => set_channel_entry (enabled_channels d) d));;;
      exec (keysight_capture_start;; mret tt);;;
      (* Start of next frame. *)
      exec std_session_send_df_frame_begin;;;
      return_ TRUE
  end.

(** Lines 330-396: one chunk of the payload of the current block is requested,
    converted and sent, and the progress of the block and of the channel is
    recorded. *)
Definition receive_block (ch : sr_channel) : stmt :=
  devc ← get_devc;
  let len := to_int (to_u64 (num_block_bytes devc - num_block_read devc)) in
  let len := if ACQ_BUFFER_SIZE <? len then ACQ_BUFFER_SIZE else len in
  exec (sr_log (Dbg_requesting len));;;
  len ← sr_scpi_read_data 0 len;
  if len =? -1 then
    exec (sr_log Err_abort_data);;;
    exec std_session_send_df_frame_end;;;
    exec sr_dev_acquisition_stop;;;
    exec (modify_devc (set_state STATE_IDLE));;;
    return_ TRUE
  else
    exec (sr_log (Dbg_received len));;;
    exec (modify_devc (fun d =>
            set_num_block_read (to_u64 (num_block_read d + len)) d));;;
    exec (receive_emit ch len);;;
    exec receive_block_end;;;
    exec (modify_devc (fun d =>
            set_num_channel_bytes (to_u64 (num_channel_bytes d + len)) d)).

(** Lines 398-425: the channel and frame sequencing. *)
Definition receive_sequence : stmt :=
  (devc ← get_devc;
   if num_channel_bytes devc <? to_u64 (num_channel_bytes_total devc) then
     (* Don't have the full data for this channel yet, re-run. *)
     return_ TRUE
   else skip);;;
  (* End of data for this channel. *)
  receive_channel_end.

(** [STATE_READING_DATA]: lines 310-425. *)
Definition receive_reading : stmt :=
  ch ← current_channel;
  receive_header;;;
  receive_block ch;;;
  receive_sequence.

(** The receive callback, for a device instance with a context.  The
    [default:] branch of the [switch] has no counterpart: [state_e] has no
    other value. *)
Definition receive_dispatch : M Z :=
  body
    (devc ← get_devc;
     match state devc with
     | STATE_IDLE => return_ TRUE
     | STATE_DIGITIZING =>
         r ← keysight_channel_start;
         if negb (r =? SR_OK) then return_ TRUE else return_ TRUE
     | STATE_READING_DATA => receive_reading
     end).

(** [keysight_receive (fd, revents, cb_data)]: the callback data is the device
    instance, or NULL. *)
Definition keysight_receive (fd revents : Z) (cb_data : option sr_dev_inst)
    : option (Z * option sr_dev_inst) :=
  match cb_data with
  | None => Some (TRUE, None)
  | Some sdi =>
      match priv sdi with
      | None => Some (TRUE, Some sdi)
      | Some _ =>
          if negb ((revents =? G_IO_IN) || (revents =? 0))
          then Some (TRUE, Some sdi)
          else
            match receive_dispatch sdi with
            | Some (r, sdi') => Some (r, Some sdi')
            | None => None
            end
      end
  end.

End Receive.

(** The device instance [sdi] with the log [l]. *)
Definition sr_dev_inst_log (sdi : sr_dev_inst) (l : list log_msg) : sr_dev_inst :=
  {| priv := priv sdi; conn := conn sdi; session := session sdi; log := l |}.

(** ** Quantities of the header decoder *)

(** The statement that [keysight_read_header] has twice, at lines 217-225 and
    238-246: try to read the header bytes up to [target]. *)
Definition read_more (target : Z) : stmt :=
  devc ← get_devc;
  if num_header_bytes devc <? target then
    ret ← sr_scpi_read_data (num_header_bytes devc)
            (to_int (to_u64 (target - num_header_bytes devc)));
    if ret <? 0 then
      exec (sr_log Err_header_read);;;
      return_ SR_ERR
    else
      exec (modify_devc (fun d =>
              set_num_header_bytes (to_u64 (num_header_bytes d + ret)) d))
  else skip.

(** The test of line 230 on the first two bytes. *)
Definition bad_header_start (b0 b1 : Z) : bool :=
  negb (b0 =? HASH) || negb (isdigit b1) || (b1 =? CHAR_0).

(** The value of a string of decimal digits. *)
Definition decimal (ds : list Z) : Z :=
  fold_left (fun acc c => 10 * acc + (c - CHAR_0)) ds 0.

(** What [parse_int] stores through its result pointer, when it succeeds. *)
Definition parsed (str : list Z) : option Z :=
  let '(tmp, e, errno) := strtol str in
  if (e =? 0)%nat || (e <? length str)%nat || errno
     || (INT_MAX <? tmp) || (tmp <? INT_MIN)
  then None else Some (to_int tmp).

(** The strings that [strtol] converts in full: white space, an optional
    sign, and at least one decimal digit. *)
Definition strtol_syntax (str : list Z) : Prop :=
  exists ws sg ds,
    str = ws ++ sg ++ ds /\
    Forall (fun c => isspace c = true) ws /\
    (sg = [] \/ sg = [PLUS] \/ sg = [MINUS]) /\
    ds <> [] /\
    Forall (fun c => isdigit c = true) ds.

(** The number of bytes of the header that starts the byte stream [w]: two
    when the first two bytes are not a valid start, else two and as many as
    the digit count announces. *)
Definition header_size (w : list Z) : nat :=
  match w with
  | b0 :: b1 :: _ =>
      if bad_header_start b0 b1 then 2%nat else Z.to_nat (2 + b1 - CHAR_0)
  | _ => 2%nat
  end.

(** What [keysight_read_header] returns once the whole header that starts [w]
    is in the buffer. *)
Definition header_verdict (w : list Z) : Z :=
  match w with
  | b0 :: b1 :: field =>
      if bad_header_start b0 b1 then SR_ERR
      else
        match parsed (c_string (take (Z.to_nat (b1 - CHAR_0)) field)) with
        | Some v => v
        | None => -1
        end
  | _ => 0
  end.

(** The first [n] bytes of the stream [w] are in the buffer and counted as
    header bytes; the others are still to be received. *)
Definition header_buffered (w : list Z) (sdi : sr_dev_inst) (n : nat) : Prop :=
  exists d,
    priv sdi = Some d /\
    num_header_bytes d = Z.of_nat n /\
    (n <= length w)%nat /\
    take n (buffer d) = take n w /\
    rx (conn sdi) = drop n w /\
    Z.of_nat (length (buffer d)) = ACQ_BUFFER_SIZE.

(** The number of reads of a schedule that hand over at least one byte. *)
Definition productive (ev : read_event) : bool :=
  match ev with
  | Ready (S _) => true
  | _ => false
  end.

Definition budget (evs : list read_event) : nat :=
  length (filter (fun ev => productive ev = true) evs).

(** The outcome of the header phase, for the caller. *)
Inductive header_outcome :=
| Header_pending
| Header_aborted
| Header_decoded (len : Z).

(** What the header decoder leaves alone: the session, the state, the channel
    cursor and the progress of the block; and it reports no completion. *)
Definition unchanged (sdi sdi' : sr_dev_inst) : Prop :=
  session sdi' = session sdi /\
  (state <$> priv sdi') = (state <$> priv sdi) /\
  (channel_entry <$> priv sdi') = (channel_entry <$> priv sdi) /\
  (num_block_bytes <$> priv sdi') = (num_block_bytes <$> priv sdi) /\
  (num_block_read <$> priv sdi') = (num_block_read <$> priv sdi) /\
  (Dbg_block_completed ∈ log sdi' -> Dbg_block_completed ∈ log sdi).

Definition keeps {A} (m : M A) : Prop :=
  forall sdi a sdi', m sdi = Some (a, sdi') -> unchanged sdi sdi'.

(** ** Quantities of the block reader *)

(** The length computed by lines 330-332, which line 335 requests. *)
Definition block_request (devc : dev_context) : Z :=
  let len := to_int (to_u64 (num_block_bytes devc - num_block_read devc)) in
  if ACQ_BUFFER_SIZE <? len then ACQ_BUFFER_SIZE else len.

(** The bytes that a read of at most [maxlen] bytes hands over. *)
Definition delivered (c : sr_scpi_dev_inst) (maxlen : Z) : list Z :=
  take (Nat.min (ready_count (ready c)) (Z.to_nat maxlen)) (rx c).

(** The transport once that read has been made. *)
Definition after_read (c : sr_scpi_dev_inst) (maxlen : Z) : sr_scpi_dev_inst :=
  {| replies := replies c;
     rx := drop (length (delivered c maxlen)) (rx c);
     ready := tail (ready c);
     calls := calls c ++ [Scpi_read_data maxlen] |}.

(** Successive runs of the block reader on the block in progress, at most
    [n], until the block is complete (the counters are reset and a header is
    expected again). *)
Fixpoint read_block (log10f : float32 -> float32) (ch : sr_channel) (n : nat)
    : stmt :=
  match n with
  | O => skip
  | S n' =>
      receive_block log10f ch;;;
      devc ← get_devc;
      if num_block_bytes devc =? 0 then skip else read_block log10f ch n'
  end.

(** The sum of the chunk lengths that a log reports as received. *)
Fixpoint received_total (l : list log_msg) : Z :=
  match l with
  | [] => 0
  | Dbg_received k :: l' => k + received_total l'
  | _ :: l' => received_total l'
  end.

(** Every request of the log asks for what remains to be read of a block of
    [L] bytes, [r] of which had been read when the log starts, or for a full
    buffer when more remains. *)
Fixpoint requests_exact (L r : Z) (l : list log_msg) : Prop :=
  match l with
  | [] => True
  | Dbg_requesting q :: l' =>
      q = Z.min (L - r) ACQ_BUFFER_SIZE /\ requests_exact L r l'
  | Dbg_received k :: l' => requests_exact L (r + k) l'
  | _ :: l' => requests_exact L r l'
  end.

(** The transport once a block is complete: the line feed has been read and
    the completion of the read queried. *)
Definition after_block (c : sr_scpi_dev_inst) : sr_scpi_dev_inst :=
  let c1 := after_read c 1 in
  {| replies := tail (replies c1); rx := rx c1; ready := ready c1;
     calls := calls c1 ++ [Scpi_read_complete] |}.

(** ** The block reader, as the specification words it

    Section 4.2: "Each call attempts to read min(remaining, maxChunk) bytes";
    "the reader consumes exactly L payload bytes before signaling
    completion, no matter the chunk sizes delivered by the transport".  The
    chunks that at most [n] calls read of a block of [L] bytes, [r] of which
    are read, when the transport has the bytes [rx] to hand over as [evs]
    says; no call is made once the block is complete. *)
Fixpoint block_chunks (L r : Z) (evs : list read_event) (rx : list Z)
    (n : nat) : list (list Z) :=
  match n with
  | O => []
  | S n' =>
      let want := Z.min (L - r) (64 * 1024) in
      let c := take (Nat.min (ready_count evs) (Z.to_nat want)) rx in
      let r' := r + Z.of_nat (length c) in
      c :: (if r' =? L then []
            else block_chunks L r' (tail evs) (drop (length c) rx) n')
  end.

(** The reads of the transport that deliver the chunks [cks]: each asks for
    the minimum of what remains of the block and of 64 KiB. *)
Fixpoint block_reads (L r : Z) (cks : list (list Z)) : list scpi_call :=
  match cks with
  | [] => []
  | c :: cks' =>
      Scpi_read_data (Z.min (L - r) (64 * 1024))
        :: block_reads L (r + Z.of_nat (length c)) cks'
  end.

(** Successive readiness events while a block header is expected: the header
    phase of the callback (lines 312-328) is run again as long as it returns
    with the header incomplete, at most [n] times. *)
Fixpoint await_header (n : nat) : M header_outcome :=
  match n with
  | O => mret Header_pending
  | S n' =>
      r ← receive_header;
      devc ← get_devc;
      match r, state devc with
      | None, _ => mret (Header_decoded (num_block_bytes devc))
      | Some _, STATE_IDLE => mret Header_aborted
      | Some _, _ => await_header n'
      end
  end.

(** The buffers have the size they are allocated with. *)
Definition buffers_allocated (devc : dev_context) : Prop :=
  Z.of_nat (length (buffer devc)) = ACQ_BUFFER_SIZE /\
  ACQ_BUFFER_SIZE <= Z.of_nat (length (data devc)).

(** The calibration arrays have an element for the analog channel [ch]. *)
Definition calibrated (ch : sr_channel) (devc : dev_context) : Prop :=
  type ch = SR_CHANNEL_ANALOG ->
  is_Some (array_get (vert_reference devc) (index ch)) /\
  is_Some (array_get (vert_inc devc) (index ch)) /\
  is_Some (array_get (vert_origin devc) (index ch)) /\
  is_Some (array_get (vert_offset devc) (index ch)).

(** ** The sample converter, as the specification words it

    Section 4.3: "Analog: value = (rawByte - verticalReference -
    verticalOrigin) x verticalIncrement, per sample, preserving order".
    The raw byte and the reference are integers and their difference is the
    one of the integers; the origin and the increment are floating-point
    numbers, so that the second difference and the product are those of
    IEEE 754 double precision, and the sample is the [float] nearest to the
    product. *)
Definition sample_value (raw vref : Z) (vor vinc : float32) : float32 :=
  let difference := binary_normalize 53 1024 (raw - vref) 0 false in
  let centred := SFsub 53 1024 difference vor in
  let scaled := SFmul 53 1024 centred vinc in
  match scaled with
  | S754_finite s m e => binary_round 24 128 s m e
  | _ => scaled
  end.

(** A raw sample is a byte. *)
Definition is_byte (b : Z) : Prop := 0 <= b <= 255.

(** The references with which the conversion of every byte stays within the
    range of [int]. *)
Definition reference_in_range (vref : Z) : Prop :=
  255 - INT_MAX <= vref <= INT_MAX.

(** ** The packet of a chunk

    The packet that lines 349-376 send for a chunk [bytes] of the channel
    [ch]: the converted samples and the significant digits for an analog
    channel, the bytes themselves, one byte per sample, for a digital one. *)
Definition chunk_packet (log10f : float32 -> float32) (ch : sr_channel)
    (devc : dev_context) (bytes : list Z) : option sr_datafeed_packet :=
  match type ch with
  | SR_CHANNEL_LOGIC => Some (SR_DF_LOGIC (Z.of_nat (length bytes)) 1 bytes)
  | SR_CHANNEL_ANALOG =>
      vref ← array_get (vert_reference devc) (index ch);
      vinc ← array_get (vert_inc devc) (index ch);
      vor ← array_get (vert_origin devc) (index ch);
      Some (SR_DF_ANALOG ch
              (analog_digits (log10f (f32_of_f64 (f64_of_f32 vinc))))
              (Z.of_nat (length bytes))
              (analog_sample vref (f64_of_f32 vor) (f64_of_f32 vinc)
                 <$> bytes))
  end.

(** ** The significant digits, as the specification words them

    Section 4.3: "take floor via truncation toward negative infinity of
    log10(verticalIncrement) negated, then add 1 if log10(verticalIncrement)
    is negative". *)

(** The largest integer not above a [float]: rounding toward negative
    infinity. *)
Definition float_floor (x : float32) : option Z :=
  match x with
  | S754_zero _ => Some 0
  | S754_finite s m e =>
      let sm := if s then Z.neg m else Z.pos m in
      Some (if 0 <=? e then sm * 2 ^ e else sm / 2 ^ (- e))
  | _ => None
  end.

Definition digits_by_floor (vdivlog : float32) : option Z :=
  f ← float_floor vdivlog;
  Some (- f + Z_of_bool (float_ltb_0 vdivlog)).

(** A value of [log10f (0.5f)]: -10100891 * 2^-25, about -0.30103. *)
Definition log10f_of_half : float32 := S754_finite true 10100891 (-25).

(** ** Running the callback *)

(** [n] successive readiness events of kind [revents]. *)
Fixpoint receive_events (log10f : float32 -> float32) (n : nat) (revents : Z)
    (cb_data : option sr_dev_inst) : option (option sr_dev_inst) :=
  match n with
  | O => Some cb_data
  | S n' =>
      match keysight_receive log10f 0 revents cb_data with
      | Some (_, cb_data') => receive_events log10f n' revents cb_data'
      | None => None
      end
  end.

(** The state of the machine, when there is one. *)
Definition state_of (sdi : sr_dev_inst) : option state_e := state <$> priv sdi.

Definition is_frame_boundary (c : session_call) : bool :=
  match c with
  | Session_send SR_DF_FRAME_BEGIN | Session_send SR_DF_FRAME_END => true
  | _ => false
  end.

(** ** Example captures *)

(** A stand-in for [log10f] in the examples, which call it at 1.0 only:
    [log10f (1.0f) = +0]. *)
Definition log10f_at_one (x : float32) : float32 := S754_zero false.

Definition CH1 : sr_channel := {| index := 0; type := SR_CHANNEL_ANALOG |}.
Definition CH2 : sr_channel := {| index := 1; type := SR_CHANNEL_ANALOG |}.
Definition D0 : sr_channel := {| index := 0; type := SR_CHANNEL_LOGIC |}.

Definition f32_zero : float32 := S754_zero false.
Definition f32_one : float32 := S754_finite false 8388608 (-23).

(** A context as a capture session starts it: the enabled channels [chs], the
    frame limit [limit], no frame received yet, the cursor on the first
    channel, buffers of [ACQ_BUFFER_SIZE] elements. *)
Definition fresh_context (chs : list sr_channel) (limit : Z) (st : state_e)
    : dev_context :=
  {| enabled_channels := chs; limit_frames := limit;
     vert_reference := replicate 4 0; vert_origin := replicate 4 f32_zero;
     vert_offset := replicate 4 f32_zero; vert_inc := replicate 4 f32_one;
     num_frames := 0; channel_entry := chs;
     num_channel_bytes_total := 0; num_channel_bytes := 0;
     num_header_bytes := 0; num_block_bytes := 0; num_block_read := 0;
     state := st;
     buffer := replicate (Z.to_nat ACQ_BUFFER_SIZE) 0;
     data := replicate (Z.to_nat ACQ_BUFFER_SIZE) f32_zero |}.

Definition instrument (rs : list scpi_reply) (bytes : list Z)
    (evs : list read_event) : sr_scpi_dev_inst :=
  {| replies := rs; rx := bytes; ready := evs; calls := [] |}.

Definition device (d : dev_context) (c : sr_scpi_dev_inst) : sr_dev_inst :=
  {| priv := Some d; conn := c; session := []; log := [] |}.

(** The replies of an instrument to [keysight_channel_start] announcing
    [total] bytes, followed by its answer to [sr_scpi_read_complete]. *)
Definition config_ok : list scpi_reply := [Reply_ok; Reply_ok].
Definition first_frame_setup : list scpi_reply :=
  config_ok ++ config_ok ++ config_ok.
Definition calibration (vinc vor : float32) (vref : Z) : list scpi_reply :=
  [Reply_float vinc; Reply_float vor; Reply_int vref].
Definition transfer (total : Z) : list scpi_reply :=
  [Reply_int total; Reply_ok; Reply_ok; Reply_bool true].

(** The block "#14", four payload bytes and the line feed. *)
Definition block4 : list Z := [35; 49; 52; 128; 129; 130; 127; 10].

(** Scenario 2 of the specification: channels CH1, CH2 (analog) and D0-D7
    (pod 1), frame limit 2, an instrument that answers every command and
    delivers one block of four bytes per channel for three frames. *)
Definition scenario2_replies : list scpi_reply :=
  (* frame 1 *)
  config_ok ++ first_frame_setup ++ calibration f32_one f32_zero 128
    ++ transfer 4
  ++ config_ok ++ first_frame_setup ++ calibration f32_one f32_zero 128
    ++ transfer 4
  ++ config_ok ++ first_frame_setup ++ transfer 4
  ++ [Reply_ok]
  (* frame 2 *)
  ++ config_ok ++ transfer 4 ++ config_ok ++ transfer 4
  ++ config_ok ++ transfer 4
  ++ [Reply_ok]
  (* frame 3 *)
  ++ config_ok ++ transfer 4 ++ config_ok ++ transfer 4
  ++ config_ok ++ transfer 4
  ++ [Reply_ok].

Definition scenario2 : sr_dev_inst :=
  device (fresh_context [CH1; CH2; D0] 2 STATE_DIGITIZING)
    (instrument scenario2_replies
       (concat (replicate 9 block4)) (replicate 64 (Ready 16))).

(** Scenario 3: a block of 1400 bytes of which 500 have been read, and a
    transport whose next read fails. *)
Definition scenario3_context : dev_context :=
  set_num_block_read 500
    (set_num_block_bytes 1400
       (set_num_header_bytes 6
          (set_num_channel_bytes 500
             (set_num_channel_bytes_total 1400
                (fresh_context [CH1] 0 STATE_READING_DATA))))).

Definition scenario3 : sr_dev_inst :=
  device scenario3_context (instrument [] (replicate 900 7) [Failure]).

(** A capture whose instrument rejects the first command of
    [keysight_channel_start]. *)
Definition rejected_setup : sr_dev_inst :=
  device (fresh_context [CH1; CH2; D0] 0 STATE_DIGITIZING)
    (instrument [Reply_err] [] []).

(** A capture that expects a block header, with [bytes] to come. *)
Definition awaiting (bytes : list Z) (evs : list read_event) : sr_dev_inst :=
  device (fresh_context [CH1] 0 STATE_READING_DATA) (instrument [] bytes evs).

(** The header "#2+5", five payload bytes and the line feed. *)
Definition signed_length : sr_dev_inst :=
  awaiting [35; 50; 43; 53; 1; 2; 3; 4; 5; 10] (replicate 8 (Ready 16)).

(** The header "#2-5", five bytes and the line feed, on a channel of which
    five bytes are expected. *)
Definition negative_length : sr_dev_inst :=
  device
    (set_num_channel_bytes_total 5 (fresh_context [CH1] 0 STATE_READING_DATA))
    (instrument [] [35; 50; 45; 53; 1; 2; 3; 4; 5; 10] (replicate 8 (Ready 16))).

(** The block "#10": a header that declares no payload, and the line feed. *)
Definition zero_length : sr_dev_inst :=
  awaiting [35; 49; 48; 10] (replicate 8 (Ready 16)).

(** Scenario 1: the header "#9000001400" arriving one byte at a time, before
    a payload of 1400 bytes and the line feed. *)
Definition scenario1_length : list Z := [48; 48; 48; 48; 48; 49; 52; 48; 48].
Definition scenario1 : sr_dev_inst :=
  awaiting
    ([35; 57] ++ scenario1_length ++ replicate 1400 7 ++ [10])
    (replicate 16 (Ready 1)).

(** A capture that has ended. *)
Definition idle_device : sr_dev_inst :=
  device (fresh_context [CH1] 0 STATE_IDLE) (instrument [] [] []).

(** A block of four bytes whose header has been decoded, on the channel [ch];
    the transport hands over the bytes as [evs] says. *)
Definition block_context (ch : sr_channel) : dev_context :=
  set_num_block_bytes 4
    (set_num_header_bytes 3 (fresh_context [ch] 0 STATE_READING_DATA)).

Definition in_block (ch : sr_channel) (evs : list read_event) : sr_dev_inst :=
  device (block_context ch) (instrument [] [128; 129; 130; 127; 10] evs).

(** The same block on the channel CH1 calibrated with the reference 128, the
    origin 0.5 and the increment 0.25. *)
Definition f32_half : float32 := S754_finite false 8388608 (-24).
Definition f32_quarter : float32 := S754_finite false 8388608 (-25).

Definition scaled_context : dev_context :=
  set_vert_reference [128; 0; 0; 0]
    (set_vert_origin [f32_half; f32_zero; f32_zero; f32_zero]
       (set_vert_inc [f32_quarter; f32_one; f32_one; f32_one]
          (block_context CH1))).

Definition scaled_block (evs : list read_event) : sr_dev_inst :=
  device scaled_context (instrument [] [128; 129; 130; 127; 10] evs).

(** The header "#2a5": a letter in the length field. *)
Definition letter_in_length : sr_dev_inst :=
  awaiting [35; 50; 97; 53; 1; 2; 3; 4; 5; 10] (replicate 8 (Ready 16)).

(** What a run lets one see of the device instance it leaves. *)
Definition observe {A} (f : sr_dev_inst -> A)
    (r : option (Z * option sr_dev_inst)) : option (Z * option A) :=
  match r with
  | Some (ret, cb_data) => Some (ret, f <$> cb_data)
  | None => None
  end.

Definition observe_events {A} (f : sr_dev_inst -> A)
    (r : option (option sr_dev_inst)) : option A :=
  match r with
  | Some (Some sdi) => Some (f sdi)
  | _ => None
  end.

(** ** Quantities of [parse_int] *)

(** The number that a sign followed by the decimal digits [ds] denotes. *)
Definition signed_value (sg ds : list Z) : Z :=
  if bool_decide (sg = [MINUS]) then - decimal ds else decimal ds.

(** The message of [parse_int] for a number that does not fit: [strtol]
    reports the numbers outside the range of [long] through [errno]. *)
Definition range_message (v : Z) : log_msg :=
  if (LONG_MAX <? v) || (v <? LONG_MIN) then Dbg_parse_overflow
  else Dbg_parse_range.

(** ** Specifications of runs *)

(** From every device instance that satisfies [P], the run of [m] is defined
    (no missing context or channel, no index out of range, no missing
    [return]) and ends with a result and a device instance that satisfy
    [Q]. *)
Definition hoare {A} (P : sr_dev_inst -> Prop) (m : M A)
    (Q : A -> sr_dev_inst -> Prop) : Prop :=
  forall sdi, P sdi -> exists a sdi', m sdi = Some (a, sdi') /\ Q a sdi'.

(** The device instance once the instrument has answered the calls [cs], one
    reply of the script each. *)
Definition answered (cs : list scpi_call) (sdi : sr_dev_inst) : sr_dev_inst :=
  {| priv := priv sdi;
     conn := {| replies := drop (length cs) (replies (conn sdi));
                rx := rx (conn sdi); ready := ready (conn sdi);
                calls := calls (conn sdi) ++ cs |};
     session := session sdi; log := log sdi |}.

(** The device instance with the context [d]. *)
Definition with_context (d : dev_context) (sdi : sr_dev_inst) : sr_dev_inst :=
  {| priv := Some d; conn := conn sdi; session := session sdi;
     log := log sdi |}.

(** ** Well-formed device instances

    What the types of [protocol.h] and the set-up of an acquisition give: the
    calibration arrays have [MAX_ANALOG_CHANNELS] elements and the analog
    channels index them; the channel cursor points into the list of the
    enabled channels [E]; the acquisition buffers are allocated; the
    unsigned counter of header bytes is not negative. *)
Definition channel_ok (ch : sr_channel) : Prop :=
  type ch = SR_CHANNEL_ANALOG -> 0 <= index ch < MAX_ANALOG_CHANNELS.

Definition context_ok (E : list sr_channel) (d : dev_context) : Prop :=
  enabled_channels d = E /\
  channel_entry d `suffix_of` E /\
  channel_entry d <> [] /\
  Forall channel_ok E /\
  buffers_allocated d /\
  0 <= num_header_bytes d /\
  Z.of_nat (length (vert_reference d)) = MAX_ANALOG_CHANNELS /\
  Z.of_nat (length (vert_inc d)) = MAX_ANALOG_CHANNELS /\
  Z.of_nat (length (vert_origin d)) = MAX_ANALOG_CHANNELS /\
  Z.of_nat (length (vert_offset d)) = MAX_ANALOG_CHANNELS.

Definition well_formed (E : list sr_channel) (sdi : sr_dev_inst) : Prop :=
  exists d, priv sdi = Some d /\ context_ok E d.

(** ** Invariants of runs *)

(** The device instance with one more call made on the session. *)
Definition session_called (c : session_call) (sdi : sr_dev_inst)
    : sr_dev_inst :=
  {| priv := priv sdi; conn := conn sdi; session := session sdi ++ [c];
     log := log sdi |}.

(** An invariant of the driver: a property of device instances that have a
    context, which logging and the answers of the instrument do not
    disturb. *)
Class Invariant (I : sr_dev_inst -> Prop) : Prop := {
  inv_context sdi : I sdi -> is_Some (priv sdi);
  inv_log sdi l : I sdi -> I (sr_dev_inst_log sdi l);
  inv_answered sdi cs : I sdi -> I (answered cs sdi)
}.

(** The run of [m] is defined from every device instance that satisfies [I],
    keeps [I], and yields a result that satisfies [V]. *)
Definition safe (I : sr_dev_inst -> Prop) {A} (m : M A) (V : A -> Prop)
    : Prop :=
  hoare I m (fun a sdi => I sdi /\ V a).

(** The contexts of the device instances that satisfy [I]. *)
Definition context_of (I : sr_dev_inst -> Prop) (d : dev_context) : Prop :=
  exists sdi, I sdi /\ priv sdi = Some d.

(** What a statement yields: it may fall through, or must return, and what it
    returns satisfies [R]. *)
Definition may_return (R : Z -> Prop) (o : option Z) : Prop :=
  match o with Some v => R v | None => True end.

Definition must_return (R : Z -> Prop) (o : option Z) : Prop :=
  match o with Some v => R v | None => False end.

(** ** What [keysight_channel_start] leaves alone

    [setup_frame E d0 sdi0 phase sdi]: the device instance [sdi] is what the
    set-up of a channel makes of the well-formed instance [sdi0] of context
    [d0], short of the transition of the state.  Nothing has been sent to
    the session and no byte has been read; the state, the frame counter, the
    channel cursor, the buffers, the progress of the block and the vertical
    offsets are those of [d0], and so is the calibration after the first
    frame.  [phase] counts the counters that lines 192-194 have reset:
    [num_channel_bytes], [num_header_bytes], [num_block_bytes]. *)
Definition setup_frame (E : list sr_channel) (d0 : dev_context)
    (sdi0 : sr_dev_inst) (phase : nat) (sdi : sr_dev_inst) : Prop :=
  session sdi = session sdi0 /\
  rx (conn sdi) = rx (conn sdi0) /\
  ready (conn sdi) = ready (conn sdi0) /\
  exists d,
    priv sdi = Some d /\ context_ok E d /\
    state d = state d0 /\
    limit_frames d = limit_frames d0 /\
    num_frames d = num_frames d0 /\
    channel_entry d = channel_entry d0 /\
    buffer d = buffer d0 /\ data d = data d0 /\
    num_block_read d = num_block_read d0 /\
    vert_offset d = vert_offset d0 /\
    (num_frames d0 <> 0 ->
     vert_reference d = vert_reference d0 /\ vert_inc d = vert_inc d0 /\
     vert_origin d = vert_origin d0) /\
    num_channel_bytes d
      = (if (1 <=? phase)%nat then 0 else num_channel_bytes d0) /\
    num_header_bytes d
      = (if (2 <=? phase)%nat then 0 else num_header_bytes d0) /\
    num_block_bytes d
      = (if (3 <=? phase)%nat then 0 else num_block_bytes d0).

(** The calibration of the analog channels. *)
Definition calibration_of (d : dev_context)
    : list Z * list float32 * list float32 * list float32 :=
  (vert_reference d, vert_inc d, vert_origin d, vert_offset d).

(** A well-formed device instance whose context satisfies [J] besides. *)
Definition refined (E : list sr_channel) (J : dev_context -> Prop)
    (sdi : sr_dev_inst) : Prop :=
  exists d, priv sdi = Some d /\ context_ok E d /\ J d.

(** A property of contexts that depends on nothing but the frame counter
    and the calibration; one that, besides, does not depend on the
    calibration during the first frame. *)
Class Stable (J : dev_context -> Prop) : Prop :=
  stable d d' :
    J d -> num_frames d' = num_frames d ->
    calibration_of d' = calibration_of d ->
    J d'.

Class Settled (J : dev_context -> Prop) : Prop :=
  settled d d' :
    J d -> num_frames d' = num_frames d ->
    (num_frames d <> 0 -> calibration_of d' = calibration_of d) ->
    J d'.

(** ** The commands of a channel set-up *)

(** The source that lines 151-159 select for the channel [ch]. *)
Definition source_command (ch : sr_channel) : scpi_command :=
  match type ch with
  | SR_CHANNEL_ANALOG => WAV_SOUR_CHAN (to_int (index ch + 1))
  | SR_CHANNEL_LOGIC => WAV_SOUR_POD (if index ch <? 8 then 1 else 2)
  end.

(** The calls of [keysight_config_set]. *)
Definition configure (c : scpi_command) : list scpi_call :=
  [Scpi_send c; Scpi_get_opc].

(** The calls of a channel set-up that meets no failure, during the first
    frame and after it. *)
Definition setup_calls (first_frame : bool) (ch : sr_channel)
    : list scpi_call :=
  configure (source_command ch)
  ++ (if first_frame then
        configure WAV_FORM_BYTE ++ configure WAV_POIN_MODE_NORM
        ++ configure WAV_UNS_ON
        ++ match type ch with
           | SR_CHANNEL_ANALOG =>
               [Scpi_get_float WAV_YINC; Scpi_get_float WAV_YOR;
                Scpi_get_int WAV_YREF]
           | SR_CHANNEL_LOGIC => []
           end
      else [])
  ++ [Scpi_get_int WAV_POIN; Scpi_send WAV_DATA; Scpi_read_begin].

(** The answers of an instrument that accepts every one of them, to the
    queries the vertical increment [yinc], origin [yor] and reference [yref]
    and the number of points [n]. *)
Definition setup_replies (first_frame : bool) (ch : sr_channel)
    (yinc yor : float32) (yref n : Z) : list scpi_reply :=
  [Reply_ok; Reply_ok]
  ++ (if first_frame then
        replicate 6 Reply_ok
        ++ match type ch with
           | SR_CHANNEL_ANALOG =>
               [Reply_float yinc; Reply_float yor; Reply_int yref]
           | SR_CHANNEL_LOGIC => []
           end
      else [])
  ++ [Reply_int n; Reply_ok; Reply_ok].

(** The context with the calibration of the channel of index [i]. *)
Definition calibrate (i : nat) (yinc yor : float32) (yref : Z)
    (d : dev_context) : dev_context :=
  set_vert_reference (<[i := yref]> (vert_reference d))
    (set_vert_origin (<[i := yor]> (vert_origin d))
       (set_vert_inc (<[i := yinc]> (vert_inc d)) d)).

(** The context when the set-up is over: the calibration is the one queried,
    for an analog channel of the first frame; the counters are reset and the
    state is [STATE_READING_DATA]. *)
Definition setup_context (first_frame : bool) (ch : sr_channel)
    (yinc yor : float32) (yref n : Z) (d : dev_context) : dev_context :=
  set_state STATE_READING_DATA
    (set_num_block_bytes 0
       (set_num_header_bytes 0
          (set_num_channel_bytes 0
             (set_num_channel_bytes_total n
                (match first_frame, type ch with
                 | true, SR_CHANNEL_ANALOG =>
                     calibrate (Z.to_nat (index ch)) yinc yor yref d
                 | _, _ => d
                 end))))).

(** A capture in its second frame that waits for the set-up of its first
    channel, with an instrument that answers every command. *)
Definition later_frame_context : dev_context :=
  set_num_frames 1 (fresh_context [CH1; D0] 0 STATE_DIGITIZING).

Definition later_frame : sr_dev_inst :=
  device later_frame_context
    (instrument (config_ok ++ transfer 4) block4 (replicate 8 (Ready 16))).

(** A capture in its second frame that has read the four bytes of the
    channel under the cursor, the first of [chs]; the instrument answers
    [rs]. *)
Definition channel_read_context (chs : list sr_channel) : dev_context :=
  set_num_channel_bytes 4
    (set_num_channel_bytes_total 4
       (set_num_frames 1 (fresh_context chs 0 STATE_READING_DATA))).

Definition channel_read (chs : list sr_channel) (rs : list scpi_reply)
    : sr_dev_inst :=
  device (channel_read_context chs) (instrument rs [] []).

(** ** What a run adds

    A run only adds to the calls made of the transport and to the log. *)
Definition extends {A} (m : M A) : Prop :=
  forall sdi a sdi',
    m sdi = Some (a, sdi') ->
    calls (conn sdi) `prefix_of` calls (conn sdi') /\
    log sdi `prefix_of` log sdi'.

(** * Properties *)

Arguments to_u64 : simpl never.
Arguments to_int : simpl never.
Arguments ACQ_BUFFER_SIZE : simpl never.
Arguments analog_sample : simpl never.
Arguments analog_digits : simpl never.
Arguments strtol : simpl never.
Arguments keysight_receive : simpl never.
Arguments Z.mul : simpl nomatch.
Arguments Z.add : simpl nomatch.
Arguments Z.sub : simpl nomatch.
Arguments Z.ltb : simpl nomatch.
Arguments Z.eqb : simpl nomatch.
Arguments Z.leb : simpl nomatch.

(** Unfolds the monad and the primitive operations, so that a run on an
    explicit device instance computes. *)
Ltac unfold_prims :=
  unfold body, seq, exec, return_, skip, return_unless_ok, current_channel,
    get_devc, modify_devc, sr_log,
    std_session_send_df_frame_begin, std_session_send_df_frame_end,
    sr_dev_acquisition_stop, sr_session_send, session_do,
    lift, undefined, set_conn, get_conn,
    scpi_exchange, sr_scpi_send, sr_scpi_get_opc, sr_scpi_read_begin,
    sr_scpi_read_complete, sr_scpi_get_float, sr_scpi_get_int,
    mbind, M_bind, mret, M_ret in *.

Ltac explode sdi :=
  let p := fresh "p" in let c := fresh "c" in
  destruct sdi as [p c ? ?]; destruct c as [? ? ? ?]; simpl in *; subst.

Lemma to_u64_small z : 0 <= z < 2 ^ 64 -> to_u64 z = z.
Proof. intros H. unfold to_u64. by apply Z.mod_small. Qed.

Lemma to_int_small z : INT_MIN <= z <= INT_MAX -> to_int z = z.
Proof.
  unfold INT_MIN, INT_MAX, to_int. intros H.
  rewrite Z.mod_small; lia.
Qed.

Lemma bind_run {A B} (m : M A) (f : A -> M B) sdi a sdi1 :
  m sdi = Some (a, sdi1) -> (m ≫= f) sdi = f a sdi1.
Proof. intros H. unfold mbind, M_bind. by rewrite H. Qed.

Lemma seq_through (s k : stmt) sdi sdi1 :
  s sdi = Some (None, sdi1) -> (s ;;; k) sdi = k sdi1.
Proof. intros H. unfold seq. by rewrite (bind_run _ _ _ _ _ H). Qed.

Lemma seq_return (s k : stmt) sdi sdi1 v :
  s sdi = Some (Some v, sdi1) -> (s ;;; k) sdi = Some (Some v, sdi1).
Proof. intros H. unfold seq. by rewrite (bind_run _ _ _ _ _ H). Qed.

Lemma body_return (s k : stmt) sdi sdi1 v :
  s sdi = Some (Some v, sdi1) -> body (s ;;; k) sdi = Some (v, sdi1).
Proof.
  intros H. unfold body.
  by rewrite (bind_run _ _ _ _ _ (seq_return _ _ _ _ _ H)).
Qed.

Lemma body_bind {A} (m : M A) (k : A -> stmt) sdi a sdi1 :
  m sdi = Some (a, sdi1) -> body (m ≫= k) sdi = body (k a) sdi1.
Proof.
  intros H. unfold body. unfold mbind at 1, M_bind at 1.
  by rewrite (bind_run _ _ _ _ _ H).
Qed.

Lemma get_devc_run sdi d : priv sdi = Some d -> get_devc sdi = Some (d, sdi).
Proof. intros H. unfold get_devc. by rewrite H. Qed.

(** *** Frame rules *)

Lemma unchanged_refl sdi : unchanged sdi sdi.
Proof. by repeat split. Qed.

Lemma unchanged_trans sdi1 sdi2 sdi3 :
  unchanged sdi1 sdi2 -> unchanged sdi2 sdi3 -> unchanged sdi1 sdi3.
Proof.
  intros (? & ? & ? & ? & ? & ?) (? & ? & ? & ? & ? & ?).
  repeat split; [congruence..|auto].
Qed.

Lemma keeps_ret {A} (a : A) : keeps (mret a).
Proof. intros sdi a' sdi' [= _ <-]. apply unchanged_refl. Qed.

Lemma keeps_bind {A B} (m : M A) (f : A -> M B) :
  keeps m -> (forall a, keeps (f a)) -> keeps (m ≫= f).
Proof.
  intros Hm Hf sdi b sdi'. unfold mbind, M_bind.
  destruct (m sdi) as [[a sdi1]|] eqn:Hrun; [|done].
  intros Hrun'. eapply unchanged_trans; [by eapply Hm|by eapply Hf].
Qed.

Lemma keeps_seq (s k : stmt) : keeps s -> keeps k -> keeps (s ;;; k).
Proof.
  intros Hs Hk. apply keeps_bind; [done|].
  intros [v|]; [apply keeps_ret|done].
Qed.

Lemma keeps_exec (m : M unit) : keeps m -> keeps (exec m).
Proof. intros Hm. apply keeps_bind; [done|]. intros _. apply keeps_ret. Qed.

Lemma keeps_body (s : stmt) : keeps s -> keeps (body s).
Proof.
  intros Hs. apply keeps_bind; [done|].
  intros [v|]; [apply keeps_ret|]. by intros ? ? ?.
Qed.

Lemma keeps_get_devc : keeps get_devc.
Proof.
  intros sdi a sdi'. unfold get_devc. destruct (priv sdi); [|done].
  intros [= _ <-]. apply unchanged_refl.
Qed.

Lemma keeps_lift {A} (o : option A) : keeps (lift o).
Proof.
  intros sdi a sdi'. unfold lift. destruct o; [|done].
  intros [= _ <-]. apply unchanged_refl.
Qed.

Lemma keeps_log m : m <> Dbg_block_completed -> keeps (sr_log m).
Proof.
  intros Hm sdi a sdi' [= _ <-]. repeat split. simpl.
  intros [?|?%list_elem_of_singleton]%elem_of_app; [done|congruence].
Qed.

Lemma keeps_modify (f : dev_context -> dev_context) :
  (forall d, state (f d) = state d /\ channel_entry (f d) = channel_entry d
             /\ num_block_bytes (f d) = num_block_bytes d
             /\ num_block_read (f d) = num_block_read d) ->
  keeps (modify_devc f).
Proof.
  intros Hf sdi a sdi'. unfold modify_devc.
  destruct (priv sdi) as [d|] eqn:Hp; [|done]. intros [= _ <-].
  destruct (Hf d) as (? & ? & ? & ?). unfold unchanged. simpl.
  rewrite Hp. simpl. repeat split; [congruence..|done].
Qed.

Lemma keeps_set_conn c : keeps (set_conn c).
Proof. intros sdi a sdi' [= _ <-]. by repeat split. Qed.

Lemma keeps_read_data off maxlen : keeps (sr_scpi_read_data off maxlen).
Proof.
  unfold sr_scpi_read_data. apply keeps_bind.
  { intros sdi a sdi' [= _ <-]. apply unchanged_refl. }
  intros c.
  assert (keeps
            (d ← get_devc;
             b ← lift (array_write (buffer d) off
                         (take (Nat.min (ready_count (ready c))
                                  (Z.to_nat maxlen)) (rx c)));
             modify_devc (set_buffer b);;
             set_conn
               {| replies := replies c;
                  rx := drop (length (take (Nat.min (ready_count (ready c))
                                              (Z.to_nat maxlen)) (rx c)))
                          (rx c);
                  ready := tail (ready c);
                  calls := calls c ++ [Scpi_read_data maxlen] |};;
             mret (Z.of_nat (length (take (Nat.min (ready_count (ready c))
                                             (Z.to_nat maxlen)) (rx c))))))
    as Hread.
  { apply keeps_bind; [apply keeps_get_devc|]. intros d.
    apply keeps_bind; [apply keeps_lift|]. intros b.
    apply keeps_bind; [by apply keeps_modify|]. intros _.
    apply keeps_bind; [apply keeps_set_conn|]. intros _. apply keeps_ret. }
  destruct (ready c) as [|[k|] evs]; try exact Hread.
  apply keeps_bind; [apply keeps_set_conn|]. intros _. apply keeps_ret.
Qed.

Lemma keeps_read_more target : keeps (read_more target).
Proof.
  unfold read_more. apply keeps_bind; [apply keeps_get_devc|]. intros d.
  destruct (_ <? _); [|apply keeps_ret].
  apply keeps_bind; [apply keeps_read_data|]. intros ret.
  destruct (_ <? _).
  - apply keeps_seq; [by apply keeps_exec, keeps_log|apply keeps_ret].
  - by apply keeps_exec, keeps_modify.
Qed.

Lemma keeps_parse_int str : keeps (parse_int str).
Proof.
  unfold parse_int. destruct (strtol str) as [[tmp e] errno].
  repeat case_match;
    try apply keeps_ret; (apply keeps_bind; [by apply keeps_log|]);
    intros _; apply keeps_ret.
Qed.

Section Properties.

Variable log10f : float32 -> float32.

(** ** The callback does nothing unless there is something to do *)

Lemma receive_idle sdi devc (fd revents : Z) :
  priv sdi = Some devc ->
  state devc = STATE_IDLE ->
  keysight_receive log10f fd revents (Some sdi) = Some (TRUE, Some sdi).
Proof.
  intros Hp Hst. unfold keysight_receive. rewrite Hp.
  destruct (negb _); [done|].
  unfold receive_dispatch. unfold_prims. by rewrite Hp, Hst.
Qed.

(** C10. A call of the receive callback whose readiness event is neither
    [G_IO_IN] nor the zero fallback tick, whose callback data is NULL, whose
    device context is NULL, or whose state is idle, returns TRUE and leaves
    the whole device instance as it was: no call is made on the transport,
    nothing is sent to the session, and no field of the context changes. *)
Theorem receive_ignores_event (fd revents : Z) (cb_data : option sr_dev_inst) :
  (revents <> G_IO_IN /\ revents <> 0) \/
  cb_data = None \/
  (exists sdi, cb_data = Some sdi /\ priv sdi = None) \/
  (exists sdi devc,
     cb_data = Some sdi /\ priv sdi = Some devc /\ state devc = STATE_IDLE) ->
  keysight_receive log10f fd revents cb_data = Some (TRUE, cb_data).
Proof.
  intros [[H1 H2]|[->|[(s & -> & Hn)|(s & d & -> & Hd & Hst)]]].
  - unfold keysight_receive.
    destruct cb_data as [sdi|]; [|done].
    destruct (priv sdi) as [devc|]; [|done].
    apply Z.eqb_neq in H1, H2. by rewrite H1, H2.
  - done.
  - unfold keysight_receive. by rewrite Hn.
  - by apply (receive_idle s d).
Qed.

Lemma body_through (s k : stmt) sdi sdi1 :
  s sdi = Some (None, sdi1) -> body (s ;;; k) sdi = body k sdi1.
Proof. intros H. unfold body. by rewrite (bind_run _ _ _ _ _ (seq_through _ _ _ _ H)) || (unfold seq, mbind, M_bind; rewrite H). Qed.

(** ** The transport reads into the buffer *)

Lemma array_write_spec (a : list Z) (off : Z) (bytes : list Z) :
  bytes = [] \/
  (0 <= off /\ off + Z.of_nat (length bytes) <= Z.of_nat (length a)) ->
  exists b,
    array_write a off bytes = Some b /\
    length b = length a /\
    (forall i, (i < Z.to_nat off)%nat -> b !! i = a !! i) /\
    (forall i, (i < length bytes)%nat ->
               b !! (Z.to_nat off + i)%nat = bytes !! i) /\
    (forall i, (Z.to_nat off + length bytes <= i)%nat -> b !! i = a !! i).
Proof.
  intros H. unfold array_write. destruct bytes as [|c bytes].
  { exists a. repeat split; try done. simpl; lia. }
  destruct H as [H|[H1 H2]]; [done|].
  apply Z.leb_le in H1 as H1'. apply Z.leb_le in H2 as H2'.
  rewrite H1', H2'. simpl andb. cbv iota.
  eexists. split; [reflexivity|].
  set (bs := c :: bytes) in *.
  assert (length (take (Z.to_nat off) a) = Z.to_nat off) as Hl
    by (rewrite length_take; lia).
  repeat split.
  - rewrite !length_app, Hl, length_drop. lia.
  - intros i Hi. rewrite lookup_app_l by lia. by rewrite lookup_take_lt by lia.
  - intros i Hi. rewrite lookup_app_r by lia. rewrite Hl.
    replace (Z.to_nat off + i - Z.to_nat off)%nat with i by lia.
    by rewrite lookup_app_l by lia.
  - intros i Hi. rewrite lookup_app_r by lia. rewrite lookup_app_r by lia.
    rewrite Hl, lookup_drop. f_equal. lia.
Qed.

(** A read that does not fail hands over the first bytes of the response, as
    many as are ready and requested, and stores them at the given offset. *)
Lemma read_data_ready sdi d off maxlen :
  priv sdi = Some d ->
  head (ready (conn sdi)) <> Some Failure ->
  maxlen <= 0 \/ (0 <= off /\ off + maxlen <= Z.of_nat (length (buffer d))) ->
  let bytes := delivered (conn sdi) maxlen in
  exists b,
    array_write (buffer d) off bytes = Some b /\
    sr_scpi_read_data off maxlen sdi =
      Some (Z.of_nat (length bytes),
            {| priv := Some (set_buffer b d);
               conn := after_read (conn sdi) maxlen;
               session := session sdi; log := log sdi |}).
Proof.
  intros Hp Hnf Hb bytes. unfold after_read, delivered in *.
  destruct (array_write_spec (buffer d) off bytes) as (b & Hw & _).
  { destruct (Z.le_gt_cases maxlen 0) as [Hm|Hm].
    - left. subst bytes. replace (Z.to_nat maxlen) with O by lia.
      by rewrite Nat.min_0_r.
    - right. destruct Hb as [Hb|[Hb1 Hb2]]; [lia|].
      split; [done|]. subst bytes. rewrite length_take. lia. }
  exists b. split; [done|].
  unfold sr_scpi_read_data. unfold_prims. subst bytes.
  destruct (ready (conn sdi)) as [|[k|] evs] eqn:Hr; [| |done].
  - by rewrite Hp, Hw, Hp.
  - by rewrite Hp, Hw, Hp.
Qed.


(** ** The sample converter *)

Lemma array_get_lookup {A} (a : list A) (i : nat) :
  array_get a (Z.of_nat i) = a !! i.
Proof.
  unfold array_get. destruct (Z.ltb_spec (Z.of_nat i) 0); [lia|].
  by rewrite Nat2Z.id.
Qed.

Lemma array_set_insert {A} (a : list A) (i : nat) (v : A) :
  (i < length a)%nat -> array_set a (Z.of_nat i) v = Some (<[i := v]> a).
Proof.
  intros H. unfold array_set.
  destruct (Z.leb_spec 0 (Z.of_nat i)); [|lia].
  destruct (Z.ltb_spec (Z.of_nat i) (Z.of_nat (length a))); [|lia].
  by rewrite Nat2Z.id.
Qed.

(** The conversion loop writes the converted bytes [i .. i + n - 1] over the
    same positions of the output buffer and nothing else. *)
Lemma convert_loop_spec vref origin vdiv (buf : list Z) (n i : nat)
    (out : list float32) :
  (i + n <= length buf)%nat -> (i + n <= length out)%nat ->
  exists out',
    convert_loop vref origin vdiv buf n (Z.of_nat i) out = Some out' /\
    length out' = length out /\
    forall j,
      out' !! j =
        if bool_decide (i <= j < i + n)%nat
        then analog_sample vref origin vdiv <$> buf !! j
        else out !! j.
Proof.
  revert i out. induction n as [|n IH]; intros i out Hb Ho.
  { exists out. repeat split. intros j. by rewrite bool_decide_false by lia. }
  simpl. rewrite array_get_lookup.
  destruct (lookup_lt_is_Some_2 buf i) as [b Hbi]; [lia|].
  rewrite Hbi. simpl. rewrite array_set_insert by lia. simpl.
  replace (Z.of_nat i + 1) with (Z.of_nat (S i)) by lia.
  destruct (IH (S i) (<[i := analog_sample vref origin vdiv b]> out))
    as (out' & Hrun & Hlen & Hget).
  { lia. } { rewrite length_insert. lia. }
  exists out'. split; [done|]. split; [by rewrite Hlen, length_insert|].
  intros j. rewrite Hget.
  destruct (decide (j = i)) as [->|Hne].
  - rewrite bool_decide_false by lia. rewrite bool_decide_true by lia.
    rewrite list_lookup_insert_eq by lia. by rewrite Hbi.
  - rewrite list_lookup_insert_ne by done.
    destruct (decide (S i <= j < S i + n)%nat).
    + by rewrite !bool_decide_true by lia.
    + by rewrite !bool_decide_false by lia.
Qed.

Lemma convert_loop_take vref origin vdiv (buf : list Z) (n : nat)
    (out out' : list float32) :
  (n <= length buf)%nat -> (n <= length out)%nat ->
  convert_loop vref origin vdiv buf n 0 out = Some out' ->
  take n out' = analog_sample vref origin vdiv <$> take n buf.
Proof.
  intros Hb Ho Hrun.
  destruct (convert_loop_spec vref origin vdiv buf n 0 out)
    as (out2 & Hrun2 & Hlen & Hget); [done..|].
  change (Z.of_nat 0) with 0 in Hrun2. rewrite Hrun in Hrun2.
  injection Hrun2 as <-.
  apply list_eq. intros j. rewrite list_lookup_fmap.
  destruct (decide (j < n)%nat).
  - rewrite !lookup_take_lt by done. rewrite Hget.
    by rewrite bool_decide_true by lia.
  - rewrite !lookup_take_ge by lia. done.
Qed.


(** ** The chunked block reader *)

(** Lines 330-347: the request, the read and the progress of the block, up to
    the conversion of the chunk. *)
Lemma receive_block_read ch sdi d :
  priv sdi = Some d ->
  head (ready (conn sdi)) <> Some Failure ->
  Z.of_nat (length (buffer d)) = ACQ_BUFFER_SIZE ->
  let req := block_request d in
  let bytes := delivered (conn sdi) req in
  let len := Z.of_nat (length bytes) in
  exists b,
    array_write (buffer d) 0 bytes = Some b /\
    receive_block log10f ch sdi =
      (exec (receive_emit log10f ch len);;;
       exec receive_block_end;;;
       exec (modify_devc (fun d =>
               set_num_channel_bytes (to_u64 (num_channel_bytes d + len)) d)))
        {| priv := Some (set_num_block_read (to_u64 (num_block_read d + len))
                           (set_buffer b d));
           conn := after_read (conn sdi) req;
           session := session sdi;
           log := log sdi ++ [Dbg_requesting req; Dbg_received len] |}.
Proof.
  intros Hp Hnf Hlen req bytes len.
  assert (req <= ACQ_BUFFER_SIZE) as Hreq.
  { unfold req, block_request. case_match; [lia|]. by apply Z.ltb_ge. }
  destruct (read_data_ready
              {| priv := priv sdi; conn := conn sdi; session := session sdi;
                 log := log sdi ++ [Dbg_requesting req] |} d 0 req)
    as (b & Hw & Hrun); [done|done|lia|].
  exists b. split; [done|].
  unfold receive_block.
  rewrite (bind_run get_devc _ sdi d sdi) by (unfold get_devc; by rewrite Hp).
  fold (block_request d). fold req.
  unfold seq at 1.
  rewrite (bind_run (exec (sr_log (Dbg_requesting req))) _ sdi None
             {| priv := priv sdi; conn := conn sdi; session := session sdi;
                log := log sdi ++ [Dbg_requesting req] |}) by done.
  rewrite (bind_run _ _ _ _ _ Hrun).
  assert ((len =? -1) = false) as Hne by (apply Z.eqb_neq; lia).
  unfold seq, exec. unfold_prims. simpl. subst len bytes.
  rewrite Hne. simpl. by rewrite <- app_assoc.
Qed.


Lemma array_write_prefix (a b bytes : list Z) :
  array_write a 0 bytes = Some b ->
  take (length bytes) b = bytes /\ length b = length a.
Proof.
  unfold array_write. destruct bytes as [|c bytes]; [by intros [= ->]|].
  case_match; [|done]. intros [= <-].
  change (c :: bytes ++ drop (S (length bytes)) a)
    with ((c :: bytes) ++ drop (S (length bytes)) a).
  split.
  - by rewrite take_app_length.
  - rewrite length_app, length_drop.
    apply andb_prop in H as [_ H%Z.leb_le]. simpl in *. lia.
Qed.

(** Lines 369-376 on a pod channel. *)
Lemma receive_emit_logic ch len sdi d :
  priv sdi = Some d ->
  type ch = SR_CHANNEL_LOGIC ->
  receive_emit log10f ch len sdi =
    Some (tt,
          {| priv := priv sdi; conn := conn sdi;
             session :=
               session sdi
               ++ [Session_send
                     (SR_DF_LOGIC len 1 (take (Z.to_nat len) (buffer d)))];
             log := log sdi |}).
Proof.
  intros Hp Ht. unfold receive_emit. unfold_prims. rewrite Hp, Ht.
  simpl. by rewrite ?Hp.
Qed.

(** Lines 349-368 on an analog channel. *)
Lemma receive_emit_analog ch len sdi d vref vinc vor voff :
  priv sdi = Some d ->
  type ch = SR_CHANNEL_ANALOG ->
  array_get (vert_reference d) (index ch) = Some vref ->
  array_get (vert_inc d) (index ch) = Some vinc ->
  array_get (vert_origin d) (index ch) = Some vor ->
  array_get (vert_offset d) (index ch) = Some voff ->
  0 <= len <= Z.of_nat (length (buffer d)) ->
  len <= Z.of_nat (length (data d)) ->
  exists out,
    take (Z.to_nat len) out =
      analog_sample vref (f64_of_f32 vor) (f64_of_f32 vinc)
        <$> take (Z.to_nat len) (buffer d) /\
    length out = length (data d) /\
    receive_emit log10f ch len sdi =
      Some (tt,
            {| priv := Some (set_data out d); conn := conn sdi;
               session :=
                 session sdi
                 ++ [Session_send
                       (SR_DF_ANALOG ch
                          (analog_digits
                             (log10f (f32_of_f64 (f64_of_f32 vinc))))
                          len (take (Z.to_nat len) out))];
               log := log sdi |}).
Proof.
  intros Hp Ht Hvref Hvinc Hvor Hvoff Hlen Hdata.
  destruct (convert_loop_spec vref (f64_of_f32 vor) (f64_of_f32 vinc)
              (buffer d) (Z.to_nat len) 0 (data d))
    as (out & Hrun & Hl & _); [lia..|].
  exists out. split; [|split; [done|]].
  - eapply convert_loop_take; [| |exact Hrun]; lia.
  - unfold receive_emit. unfold_prims.
    rewrite Hp, Ht, Hvref, Hvinc, Hvor, Hvoff.
    change (Z.of_nat 0) with 0 in Hrun. rewrite Hrun, Hp. simpl.
    by rewrite ?Hp.
Qed.

(** Any read within the bounds of the buffer is defined; it changes the buffer
    and the transport only. *)
Lemma read_data_conn sdi d off maxlen :
  priv sdi = Some d ->
  maxlen <= 0 \/ (0 <= off /\ off + maxlen <= Z.of_nat (length (buffer d))) ->
  exists r b,
    sr_scpi_read_data off maxlen sdi =
      Some (r, {| priv := Some (set_buffer b d);
                  conn := after_read (conn sdi) maxlen;
                  session := session sdi; log := log sdi |}) /\
    length b = length (buffer d).
Proof.
  intros Hp Hb.
  destruct (decide (head (ready (conn sdi)) = Some Failure)) as [Hf|Hf].
  - exists SR_ERR, (buffer d). split; [|done].
    unfold sr_scpi_read_data, after_read, delivered. unfold_prims.
    destruct (ready (conn sdi)) as [|[k|] evs]; try done. simpl.
    destruct sdi, d; simpl in *. by subst.
  - destruct (read_data_ready sdi d off maxlen Hp Hf Hb) as (b & Hw & Hrun).
    eexists _, b. split; [exact Hrun|].
    destruct (array_write_spec (buffer d) off (delivered (conn sdi) maxlen))
      as (b' & Hw' & Hl & _).
    { destruct (Z.le_gt_cases maxlen 0) as [Hm|Hm].
      - left. unfold delivered. replace (Z.to_nat maxlen) with O by lia.
        by rewrite Nat.min_0_r.
      - right. destruct Hb as [Hb|[Hb1 Hb2]]; [lia|].
        split; [done|]. unfold delivered. rewrite length_take. lia. }
    congruence.
Qed.

Lemma read_data_total sdi d off maxlen :
  priv sdi = Some d ->
  maxlen <= 0 \/ (0 <= off /\ off + maxlen <= Z.of_nat (length (buffer d))) ->
  exists r b c,
    sr_scpi_read_data off maxlen sdi =
      Some (r, {| priv := Some (set_buffer b d); conn := c;
                  session := session sdi; log := log sdi |}) /\
    length b = length (buffer d) /\
    calls c = calls (conn sdi) ++ [Scpi_read_data maxlen].
Proof.
  intros Hp Hb.
  destruct (decide (head (ready (conn sdi)) = Some Failure)) as [Hf|Hf].
  - exists SR_ERR, (buffer d), (after_read (conn sdi) maxlen).
    split; [|done].
    unfold sr_scpi_read_data, after_read, delivered. unfold_prims.
    destruct (ready (conn sdi)) as [|[k|] evs]; try done. simpl.
    destruct sdi, d; simpl in *. by subst.
  - destruct (read_data_ready sdi d off maxlen Hp Hf Hb) as (b & Hw & Hrun).
    eexists _, b, _. split; [exact Hrun|]. split; [|done].
    destruct (array_write_spec (buffer d) off (delivered (conn sdi) maxlen))
      as (b' & Hw' & Hl & _).
    { destruct (Z.le_gt_cases maxlen 0) as [Hm|Hm].
      - left. unfold delivered. replace (Z.to_nat maxlen) with O by lia.
        by rewrite Nat.min_0_r.
      - right. destruct Hb as [Hb|[Hb1 Hb2]]; [lia|].
        split; [done|]. unfold delivered. rewrite length_take. lia. }
    congruence.
Qed.

(** What the end of the block (lines 378-394) leaves alone, and what it
    records: the completion exactly when the block has been read in full. *)
Lemma receive_block_end_spec sdi d :
  priv sdi = Some d ->
  (1 <= length (buffer d))%nat ->
  exists sdi' d' l,
    receive_block_end sdi = Some (tt, sdi') /\
    priv sdi' = Some d' /\
    session sdi' = session sdi /\
    log sdi' = log sdi ++ l /\
    (exists cs, calls (conn sdi') = calls (conn sdi) ++ cs /\
                forall m, Scpi_read_data m ∈ cs -> m = 1) /\
    state d' = state d /\ channel_entry d' = channel_entry d /\
    enabled_channels d' = enabled_channels d /\
    limit_frames d' = limit_frames d /\ num_frames d' = num_frames d /\
    vert_reference d' = vert_reference d /\ vert_inc d' = vert_inc d /\
    vert_origin d' = vert_origin d /\ vert_offset d' = vert_offset d /\
    data d' = data d /\ length (buffer d') = length (buffer d) /\
    num_channel_bytes d' = num_channel_bytes d /\
    num_channel_bytes_total d' = num_channel_bytes_total d /\
    (if num_block_read d =? num_block_bytes d
     then (l = [Dbg_block_completed]
           \/ l = [Dbg_block_completed; Err_read_incomplete])
          /\ num_header_bytes d' = 0 /\ num_block_bytes d' = 0
          /\ num_block_read d' = 0
          /\ conn sdi' = after_block (conn sdi)
     else l = [Dbg_block_progress (num_block_read d) (num_block_bytes d)]
          /\ d' = d /\ conn sdi' = conn sdi).
Proof.
  intros Hp Hb. unfold receive_block_end.
  rewrite (bind_run get_devc _ sdi d sdi) by (unfold get_devc; by rewrite Hp).
  destruct (Z.eqb_spec (num_block_read d) (num_block_bytes d)) as [Heq|Hne].
  2:{ eexists _, d, _. split; [reflexivity|]. simpl.
      split; [done|]. split; [done|]. split; [done|].
      split; [|done].
      exists []. rewrite app_nil_r. split; [done|]. by intros m Hm%elem_of_nil. }
  destruct (read_data_conn
              {| priv := priv sdi; conn := conn sdi; session := session sdi;
                 log := log sdi ++ [Dbg_block_completed] |} d 0 1)
    as (r & b & Hrun & Hlb); [done|lia|].
  rewrite (bind_run (sr_log Dbg_block_completed) _ sdi tt
             {| priv := priv sdi; conn := conn sdi; session := session sdi;
                log := log sdi ++ [Dbg_block_completed] |}) by done.
  rewrite (bind_run _ _ _ _ _ Hrun).
  unfold_prims. simpl in *.
  destruct (negb _ && _).
  - eexists _, _, [Dbg_block_completed; Err_read_incomplete].
    split; [reflexivity|]. simpl. rewrite <- app_assoc.
    split; [done|]. split; [done|]. split; [done|].
    split; [|by eauto 20].
    exists [Scpi_read_data 1; Scpi_read_complete].
    split; [by rewrite <- app_assoc|].
    intros m [[= <-]|Hm%list_elem_of_singleton]%elem_of_cons; done.
  - eexists _, _, [Dbg_block_completed].
    split; [reflexivity|]. simpl.
    split; [done|]. split; [done|]. split; [done|].
    split; [|by eauto 20].
    exists [Scpi_read_data 1; Scpi_read_complete].
    split; [by rewrite <- app_assoc|].
    intros m [[= <-]|Hm%list_elem_of_singleton]%elem_of_cons; done.
Qed.

Lemma exec_through (m : M unit) (k : stmt) sdi sdi1 :
  m sdi = Some (tt, sdi1) -> (exec m;;; k) sdi = k sdi1.
Proof.
  intros H. apply seq_through. unfold exec. by rewrite (bind_run _ _ _ _ _ H).
Qed.

(** One run of the block reader on a chunk that the transport hands over:
    the packet sent is the one of the specification, the log tells the request
    and the completion, and only the progress counters and the buffers
    change. *)
Lemma receive_block_step ch sdi d :
  priv sdi = Some d ->
  head (ready (conn sdi)) <> Some Failure ->
  buffers_allocated d ->
  calibrated ch d ->
  let req := block_request d in
  let bytes := delivered (conn sdi) req in
  let len := Z.of_nat (length bytes) in
  let read := to_u64 (num_block_read d + len) in
  exists sdi' d' p l,
    receive_block log10f ch sdi = Some (None, sdi') /\
    priv sdi' = Some d' /\
    chunk_packet log10f ch d bytes = Some p /\
    session sdi' = session sdi ++ [Session_send p] /\
    log sdi' = log sdi ++ [Dbg_requesting req; Dbg_received len] ++ l /\
    (exists cs, calls (conn sdi') =
                  calls (conn sdi) ++ Scpi_read_data req :: cs /\
                forall m, Scpi_read_data m ∈ cs -> m = 1) /\
    state d' = state d /\ channel_entry d' = channel_entry d /\
    enabled_channels d' = enabled_channels d /\
    limit_frames d' = limit_frames d /\ num_frames d' = num_frames d /\
    vert_reference d' = vert_reference d /\ vert_inc d' = vert_inc d /\
    vert_origin d' = vert_origin d /\ vert_offset d' = vert_offset d /\
    buffers_allocated d' /\
    num_channel_bytes d' = to_u64 (num_channel_bytes d + len) /\
    num_channel_bytes_total d' = num_channel_bytes_total d /\
    (if read =? num_block_bytes d
     then (l = [Dbg_block_completed]
           \/ l = [Dbg_block_completed; Err_read_incomplete])
          /\ num_header_bytes d' = 0 /\ num_block_bytes d' = 0
          /\ num_block_read d' = 0
          /\ conn sdi' = after_block (after_read (conn sdi) req)
     else l = [Dbg_block_progress read (num_block_bytes d)]
          /\ num_header_bytes d' = num_header_bytes d
          /\ num_block_bytes d' = num_block_bytes d
          /\ num_block_read d' = read
          /\ conn sdi' = after_read (conn sdi) req).
Proof.
  intros Hp Hnf [Hbuf Hdata] Hcal req bytes len read.
  destruct (receive_block_read ch sdi d Hp Hnf Hbuf) as (b & Hw & ->).
  fold req bytes len.
  destruct (array_write_prefix _ _ _ Hw) as [Hpre Hlb].
  assert (req <= ACQ_BUFFER_SIZE) as Hreq.
  { unfold req, block_request. case_match; [lia|]. by apply Z.ltb_ge. }
  assert (len <= ACQ_BUFFER_SIZE) as Hlen.
  { unfold len, bytes, delivered. rewrite length_take. lia. }
  set (d1 := set_num_block_read read (set_buffer b d)).
  set (sdi1 := {| priv := Some d1; conn := after_read (conn sdi) req;
                  session := session sdi;
                  log := log sdi ++ [Dbg_requesting req; Dbg_received len] |}).
  assert (exists sdi2 d2 p,
            receive_emit log10f ch len sdi1 = Some (tt, sdi2) /\
            chunk_packet log10f ch d bytes = Some p /\
            sdi2 = {| priv := Some d2; conn := conn sdi1;
                      session := session sdi ++ [Session_send p];
                      log := log sdi1 |} /\
            (d2 = d1 \/ exists out, d2 = set_data out d1
                                    /\ length out = length (data d)))
    as (sdi2 & d2 & p & Hemit & Hpacket & -> & Hd2).
  { unfold chunk_packet. destruct (type ch) eqn:Ht.
    - eexists _, d1, _. split; [by apply receive_emit_logic|].
      split; [reflexivity|]. simpl. split; [|by left].
      unfold len, bytes, req. by rewrite Nat2Z.id, Hpre.
    - destruct (Hcal Ht) as ([vref Hvref] & [vinc Hvinc] & [vor Hvor]
                             & [voff Hvoff]).
      destruct (receive_emit_analog ch len sdi1 d1 vref vinc vor voff)
        as (out & Htake & Hlo & Hrun); try done; simpl; try lia.
      eexists _, _, _. split; [exact Hrun|].
      rewrite Hvref, Hvinc, Hvor. simpl. split; [reflexivity|].
      split; [|right; by eauto].
      rewrite Htake. simpl. unfold len, bytes, req.
      by rewrite Nat2Z.id, Hpre. }
  rewrite (exec_through _ _ _ _ Hemit).
  set (sdi2 := {| priv := Some d2; conn := conn sdi1;
                  session := session sdi ++ [Session_send p];
                  log := log sdi1 |}).
  destruct (receive_block_end_spec sdi2 d2) as
    (sdi3 & d3 & l & Hend & Hp3 & Hs3 & Hl3 & Hcalls & Hst
     & Hce & Hec & Hlf & Hnf3 & Hvr & Hvi & Hvo & Hvf & Hda & Hbl & Hncb
     & Hnct & Hcnt); [done| |].
  { unfold ACQ_BUFFER_SIZE in *.
    destruct Hd2 as [->|(out & -> & _)]; simpl; lia. }
  rewrite (exec_through _ _ _ _ Hend).
  unfold exec. unfold_prims. rewrite Hp3.
  subst sdi2 sdi1. simpl in Hs3, Hl3, Hcalls, Hcnt.
  unfold after_read in Hcalls. simpl in Hcalls.
  eexists _, _, p, l. split; [reflexivity|]. simpl.
  split; [reflexivity|]. split; [done|]. split; [done|].
  split; [by rewrite Hl3, <- app_assoc|].
  assert (num_block_read d2 = read /\ num_block_bytes d2 = num_block_bytes d
          /\ num_header_bytes d2 = num_header_bytes d
          /\ num_channel_bytes d2 = num_channel_bytes d) as (Hr2 & Hb2 & Hh2 & Hc2).
  { by destruct Hd2 as [->|(out & -> & _)]. }
  split.
  { destruct Hcalls as (cs & -> & Hcs). exists cs.
    by rewrite <- app_assoc. }
  assert (buffers_allocated d3) as Hba.
  { unfold buffers_allocated. rewrite Hbl, Hda.
    destruct Hd2 as [->|(out & -> & Hout)]; simpl; split; lia. }
  simpl. rewrite Hst, Hce, Hec, Hlf, Hnf3, Hvr, Hvi, Hvo, Hvf, Hncb, Hnct, Hc2.
  assert (state d2 = state d /\ channel_entry d2 = channel_entry d
          /\ enabled_channels d2 = enabled_channels d
          /\ limit_frames d2 = limit_frames d /\ num_frames d2 = num_frames d
          /\ vert_reference d2 = vert_reference d /\ vert_inc d2 = vert_inc d
          /\ vert_origin d2 = vert_origin d /\ vert_offset d2 = vert_offset d
          /\ num_channel_bytes_total d2 = num_channel_bytes_total d)
    as (-> & -> & -> & -> & -> & -> & -> & -> & -> & ->).
  { by destruct Hd2 as [->|(out & -> & _)]. }
  do 9 (split; [done|]). split; [done|]. split; [done|]. split; [done|].
  rewrite Hr2, Hb2 in Hcnt.
  destruct (read =? num_block_bytes d); [done|].
  destruct Hcnt as (-> & -> & ->). by rewrite Hh2, Hb2, Hr2.
Qed.

(** C8. A chunk of a digital (pod) channel: the logic packet sent carries the
    bytes handed over by the transport, the leading bytes of the raw input,
    unchanged and in the same order, one byte per sample. *)
Theorem logic_chunk_passthrough ch sdi d :
  priv sdi = Some d ->
  type ch = SR_CHANNEL_LOGIC ->
  head (ready (conn sdi)) <> Some Failure ->
  buffers_allocated d ->
  let chunk := delivered (conn sdi) (block_request d) in
  exists sdi',
    receive_block log10f ch sdi = Some (None, sdi') /\
    session sdi' =
      session sdi
      ++ [Session_send (SR_DF_LOGIC (Z.of_nat (length chunk)) 1 chunk)] /\
    exists rest, rx (conn sdi) = chunk ++ rest.
Proof.
  intros Hp Ht Hnf Hba chunk.
  destruct (receive_block_step ch sdi d Hp Hnf Hba)
    as (sdi' & d' & p & l & Hrun & _ & Hpacket & Hs & _).
  { intros Ha. congruence. }
  unfold chunk_packet in Hpacket. rewrite Ht in Hpacket.
  injection Hpacket as <-.
  exists sdi'. split; [done|]. split; [done|].
  unfold chunk, delivered. eexists. symmetry. apply take_drop.
Qed.

Lemma analog_sample_value vref vor vinc raw :
  is_byte raw -> reference_in_range vref ->
  analog_sample vref (f64_of_f32 vor) (f64_of_f32 vinc) raw
    = sample_value raw vref vor vinc.
Proof.
  intros Hraw Hvref. unfold is_byte, reference_in_range, INT_MAX in *.
  unfold analog_sample, sample_value, f64_of_f32, f64_of_int, f64_sub,
    f64_mul, f32_of_f64.
  rewrite to_int_small by (unfold INT_MIN, INT_MAX; lia). reflexivity.
Qed.

Lemma delivered_bytes c maxlen :
  Forall is_byte (rx c) -> Forall is_byte (delivered c maxlen).
Proof. intros H. unfold delivered. by apply Forall_take. Qed.

(** C4. A chunk of an analog channel whose reference keeps the conversion
    within the range of [int]: the analog packet sent has one sample per
    raw byte, in the order of the bytes, sample [i] being the value
    [(raw - vert_reference - vert_origin) * vert_inc] of raw byte [i] with
    the cached calibration of the channel, and the calibration arrays are
    left as they were. *)
Theorem analog_chunk_conversion ch sdi d vref vinc vor voff :
  priv sdi = Some d ->
  type ch = SR_CHANNEL_ANALOG ->
  array_get (vert_reference d) (index ch) = Some vref ->
  array_get (vert_inc d) (index ch) = Some vinc ->
  array_get (vert_origin d) (index ch) = Some vor ->
  array_get (vert_offset d) (index ch) = Some voff ->
  head (ready (conn sdi)) <> Some Failure ->
  buffers_allocated d ->
  reference_in_range vref ->
  Forall is_byte (rx (conn sdi)) ->
  let chunk := delivered (conn sdi) (block_request d) in
  exists sdi' d' digits samples,
    receive_block log10f ch sdi = Some (None, sdi') /\
    priv sdi' = Some d' /\
    session sdi' =
      session sdi
      ++ [Session_send
            (SR_DF_ANALOG ch digits (Z.of_nat (length chunk)) samples)] /\
    length samples = length chunk /\
    (forall i raw,
       chunk !! i = Some raw ->
       samples !! i = Some (sample_value raw vref vor vinc)) /\
    vert_reference d' = vert_reference d /\ vert_inc d' = vert_inc d /\
    vert_origin d' = vert_origin d /\ vert_offset d' = vert_offset d.
Proof.
  intros Hp Ht Hvref Hvinc Hvor Hvoff Hnf Hba Hrange Hbytes chunk.
  destruct (receive_block_step ch sdi d Hp Hnf Hba)
    as (sdi' & d' & p & l & Hrun & Hp' & Hpacket & Hs & _ & _ & _ & _ & _
        & _ & _ & Hr & Hi & Ho & Hf & _).
  { intros _. rewrite Hvref, Hvinc, Hvor, Hvoff. by eauto. }
  unfold chunk_packet in Hpacket.
  rewrite Ht, Hvref, Hvinc, Hvor in Hpacket. injection Hpacket as <-.
  eexists sdi', d', _, _. split; [done|]. split; [done|]. split; [done|].
  split; [by rewrite length_fmap|]. split; [|done].
  intros i raw Hi'. rewrite list_lookup_fmap. fold chunk. rewrite Hi'.
  simpl. f_equal. apply analog_sample_value; [|done].
  pose proof (delivered_bytes (conn sdi) (block_request d) Hbytes) as Hall.
  rewrite Forall_lookup in Hall. by eapply Hall.
Qed.

(** The value of the specification on the calibration of [scaled_context]:
    (130 - 128 - 0.5) x 0.25 = 0.375 and (127 - 128 - 0.5) x 0.25 = -0.375,
    that is 12582912 x 2^-25 with either sign. *)
Example sample_value_scaled :
  sample_value 130 128 f32_half f32_quarter
    = S754_finite false 12582912 (-25) /\
  sample_value 127 128 f32_half f32_quarter
    = S754_finite true 12582912 (-25).
Proof. split; vm_compute; reflexivity. Qed.


Lemma block_request_min d :
  0 <= num_block_read d <= num_block_bytes d ->
  num_block_bytes d <= INT_MAX ->
  block_request d
    = Z.min (num_block_bytes d - num_block_read d) ACQ_BUFFER_SIZE.
Proof.
  intros Hr HL. unfold block_request, INT_MAX in *.
  rewrite to_u64_small by lia.
  rewrite to_int_small by (unfold INT_MIN, INT_MAX; lia).
  destruct (Z.ltb_spec ACQ_BUFFER_SIZE (num_block_bytes d - num_block_read d));
    lia.
Qed.

Lemma chunk_packet_calibration ch d d' bytes :
  vert_reference d' = vert_reference d -> vert_inc d' = vert_inc d ->
  vert_origin d' = vert_origin d ->
  chunk_packet log10f ch d' bytes = chunk_packet log10f ch d bytes.
Proof. intros Hr Hi Ho. unfold chunk_packet. by rewrite Hr, Hi, Ho. Qed.

Lemma take_drop_length {A} (m : nat) (l : list A) :
  take m l ++ drop (length (take m l)) l = l.
Proof.
  destruct (decide (m <= length l)%nat).
  - rewrite length_take_le by lia. apply take_drop.
  - rewrite take_ge by lia. by rewrite drop_all, app_nil_r.
Qed.

Lemma block_chunks_prefix L r evs rx n :
  concat (block_chunks L r evs rx n) `prefix_of` rx.
Proof.
  revert r evs rx. induction n as [|n IH]; intros r evs rx; simpl.
  { by exists rx. }
  set (c := take _ rx). destruct (_ =? L).
  { simpl. rewrite app_nil_r. apply prefix_take. }
  pose proof (IH (r + Z.of_nat (length c)) (tail evs) (drop (length c) rx))
    as Hpre.
  apply (prefix_app c) in Hpre.
  assert (c ++ drop (length c) rx = rx) as Heq by apply take_drop_length.
  by rewrite Heq in Hpre.
Qed.

(** C5, for a block of at least one byte.  Over at most [n] runs of the
    block reader on a block of [L] bytes of which [r] are read, whatever the
    transport hands over at each read: the chunks read are those of the
    reader of the specification, each through one read of the transport that
    requests the minimum of what remains and of the buffer size, and each
    sent as one packet; the bytes read are the leading bytes of the
    response, in order.  The completion is reported exactly when the bytes
    read so far and the chunks received add up to [L], which they never
    exceed; it is followed by the read of the line feed and the query of
    the completion of the read, and until then the progress is kept in the
    context and every run reads. *)
Theorem block_reader_chunks n ch sdi d :
  priv sdi = Some d ->
  0 <= num_block_read d < num_block_bytes d ->
  num_block_bytes d <= INT_MAX ->
  buffers_allocated d ->
  calibrated ch d ->
  Forall (fun ev => ev <> Failure) (take n (ready (conn sdi))) ->
  let L := num_block_bytes d in
  let r := num_block_read d in
  let cks := block_chunks L r (ready (conn sdi)) (rx (conn sdi)) n in
  let total := Z.of_nat (length (concat cks)) in
  exists sdi' d' l,
    read_block log10f ch n sdi = Some (None, sdi') /\
    priv sdi' = Some d' /\
    log sdi' = log sdi ++ l /\
    requests_exact L r l /\
    (Dbg_block_completed ∈ l <-> r + received_total l = L) /\
    r + received_total l <= L /\
    (r + received_total l < L ->
     num_block_bytes d' = L /\ num_block_read d' = r + received_total l /\
     length cks = n) /\
    received_total l = total /\
    calls (conn sdi') =
      calls (conn sdi) ++ block_reads L r cks
      ++ (if r + total =? L then [Scpi_read_data 1; Scpi_read_complete]
          else []) /\
    (exists k,
       (k <= 1)%nat /\ (r + total < L -> k = 0%nat) /\
       rx (conn sdi') = drop (length (concat cks) + k) (rx (conn sdi))) /\
    (exists ps,
       session sdi' = session sdi ++ (Session_send <$> ps) /\
       Forall2 (fun c p => chunk_packet log10f ch d c = Some p) cks ps).
Proof.
  revert sdi d. induction n as [|n IH]; intros sdi d Hp Hr HL Hba Hcal Hev L r.
  { exists sdi, d, []. simpl. rewrite !app_nil_r.
    split; [done|]. split; [done|]. split; [done|]. split; [done|].
    subst L r. split; [split; [by intros ?%elem_of_nil|lia]|].
    split; [lia|]. split; [intros _; repeat split; lia|]. split; [done|].
    change (Z.of_nat 0) with 0.
    destruct (Z.eqb_spec (num_block_read d + 0) (num_block_bytes d)); [lia|].
    split; [by rewrite app_nil_r|].
    split; [exists 0%nat; split; [lia|]; by split|].
    exists []. by split; [rewrite app_nil_r|constructor]. }
  assert (head (ready (conn sdi)) <> Some Failure) as Hnf.
  { destruct (ready (conn sdi)) as [|ev evs]; [done|].
    simpl in *. apply Forall_cons in Hev as [Hev _]. congruence. }
  destruct (receive_block_step ch sdi d Hp Hnf Hba Hcal)
    as (sdi1 & d1 & p & l1 & Hrun & Hp1 & Hpk & Hs1 & Hl1 & _ & _ & _ & _ & _
        & _ & Hvr & Hvi & Hvo & Hvf & Hba1 & _ & _ & Hcnt).
  rewrite (block_request_min d) in * by lia. fold L r in Hl1, Hcnt, Hpk |- *.
  cbn [block_chunks]. change (64 * 1024) with ACQ_BUFFER_SIZE.
  set (req := Z.min (L - r) ACQ_BUFFER_SIZE) in *.
  fold (delivered (conn sdi) req).
  set (c := delivered (conn sdi) req) in *.
  set (len := Z.of_nat (length c)) in *.
  assert (0 <= len <= req) as Hlen.
  { unfold len, c, delivered. rewrite length_take. subst req L r.
    unfold ACQ_BUFFER_SIZE. lia. }
  assert (to_u64 (r + len) = r + len) as Hread.
  { apply to_u64_small. unfold INT_MAX in HL. subst req L r. lia. }
  rewrite Hread in Hcnt.
  simpl read_block. rewrite (seq_through _ _ _ _ Hrun).
  rewrite (bind_run get_devc _ sdi1 d1 sdi1) by (unfold get_devc; by rewrite Hp1).
  destruct (Z.eqb_spec (r + len) L) as [Hdone|Hmore].
  - destruct Hcnt as (Hl & _ & -> & _ & Hc1). simpl.
    rewrite app_nil_r. fold len. rewrite (proj2 (Z.eqb_eq _ _) Hdone).
    exists sdi1, d1, ([Dbg_requesting req; Dbg_received len] ++ l1).
    split; [done|]. split; [done|]. split; [done|].
    assert (received_total l1 = 0) as Hrt by (by destruct Hl as [-> | ->]).
    split; [by destruct Hl as [-> | ->]|].
    simpl. rewrite Hrt.
    split.
    { split; [lia|]. intros _.
      do 2 apply list_elem_of_further.
      destruct Hl as [-> | ->]; apply list_elem_of_here. }
    split; [lia|]. split; [lia|]. split; [lia|].
    split; [by rewrite Hc1; simpl; rewrite <- !app_assoc|].
    split.
    { exists (length (delivered (after_read (conn sdi) req) 1)).
      split; [unfold delivered; rewrite length_take; lia|].
      split; [lia|]. rewrite Hc1. simpl. by rewrite drop_drop. }
    exists [p]. by split; [|repeat constructor].
  - destruct Hcnt as (-> & _ & HL1 & Hr1 & Hc1).
    assert ((num_block_bytes d1 =? 0) = false) as -> by (apply Z.eqb_neq; lia).
    destruct (IH sdi1 d1) as (sdi' & d' & l & IH1); [done|lia|lia|done| | |].
    { intros Ht. unfold calibrated in Hcal. rewrite Hvr, Hvi, Hvo, Hvf. auto. }
    { rewrite Hc1. unfold after_read. simpl.
      destruct (ready (conn sdi)) as [|ev evs]; [by destruct n|].
      simpl in *. by apply Forall_cons in Hev as [_ Hev]. }
    rewrite HL1, Hr1, Hc1 in IH1. cbn [after_read ready rx calls] in IH1.
    fold L c in IH1. fold len in IH1.
    destruct IH1 as (Hrun' & Hp' & Hl' & Hreq' & Hc' & Hle' & Hlt'
          & Htot' & Hcalls' & (k & Hk1 & Hk0 & Hrx') & (ps & Hs' & Hps')).
    set (cks := block_chunks L (r + len) (tail (ready (conn sdi)))
                  (drop (length c) (rx (conn sdi))) n) in *.
    assert (Z.of_nat (length (concat (c :: cks)))
            = len + Z.of_nat (length (concat cks))) as Hcat.
    { simpl. rewrite length_app. unfold len. lia. }
    rewrite Hcat.
    exists sdi', d',
      ([Dbg_requesting req; Dbg_received len; Dbg_block_progress (r + len) L]
       ++ l).
    split; [done|]. split; [done|].
    split; [by rewrite Hl', Hl1, <- !app_assoc|].
    cbn [app]. simpl requests_exact. split; [done|].
    simpl received_total.
    replace (r + (len + received_total l)) with (r + len + received_total l)
      by lia.
    split.
    { rewrite <- Hc'. rewrite !elem_of_cons. split; [|by eauto].
      by intros [?|[?|[?|?]]]. }
    split; [done|].
    split.
    { intros Hlt. destruct (Hlt' Hlt) as (? & ? & ?). simpl. by auto. }
    split; [lia|].
    split.
    { rewrite Hcalls'. simpl block_reads. fold len.
      replace (r + (len + Z.of_nat (length (concat cks))))
        with (r + len + Z.of_nat (length (concat cks))) by lia.
      by rewrite <- !app_assoc. }
    split.
    { exists k. split; [done|]. split; [intros ?; apply Hk0; lia|].
      rewrite Hrx', drop_drop. simpl concat. rewrite length_app.
      f_equal. lia. }
    exists (p :: ps). split.
    { rewrite Hs', Hs1, <- app_assoc. reflexivity. }
    constructor; [done|].
    eapply Forall2_impl; [exact Hps'|].
    intros c' p' Hcp. by rewrite <- (chunk_packet_calibration ch d d1).
Qed.

End Properties.

(** ** The block header decoder *)

Lemma keysight_read_header_unfold :
  keysight_read_header =
    body
      (read_more 2;;;
       (devc ← get_devc;
        if num_header_bytes devc <? 2 then return_ 0 else skip);;;
       devc ← get_devc;
       b0 ← lift (array_get (buffer devc) 0);
       b1 ← lift (array_get (buffer devc) 1);
       (if bad_header_start b0 b1 then
          exec (sr_log (Err_invalid_header b0 b1));;;
          return_ SR_ERR
        else skip);;;
       let header_length := to_u64 (2 + b1 - CHAR_0) in
       read_more header_length;;;
       (devc ← get_devc;
        if num_header_bytes devc <? header_length then return_ 0 else skip);;;
       (devc ← get_devc;
        b ← lift (array_set (buffer devc) header_length 0);
        exec (modify_devc (set_buffer b)));;;
       devc ← get_devc;
       '(r, v) ← parse_int (c_string (drop 2 (buffer devc)));
       if negb (r =? SR_OK) then
         exec (sr_log Err_invalid_length);;;
         return_ (-1)
       else
         match v with
         | Some ret =>
             exec (sr_log (Dbg_block_header ret));;;
             return_ ret
         | None => undefined
         end).
Proof. reflexivity. Qed.

Lemma read_more_skip w sdi n (T : nat) :
  header_buffered w sdi n -> (T <= n)%nat ->
  read_more (Z.of_nat T) sdi = Some (None, sdi).
Proof.
  intros (d & Hp & Hn & _) HT. unfold read_more.
  rewrite (bind_run get_devc _ sdi d sdi) by (unfold get_devc; by rewrite Hp).
  rewrite Hn. by destruct (Z.ltb_spec (Z.of_nat n) (Z.of_nat T)); [lia|].
Qed.

(** Reading toward a target hands over as many of the missing header bytes as
    are ready, and consumes one entry of the schedule. *)
Lemma read_more_spec w sdi n (T : nat) :
  header_buffered w sdi n ->
  (n < T <= length w)%nat -> (T <= 11)%nat ->
  head (ready (conn sdi)) <> Some Failure ->
  let c := Nat.min (ready_count (ready (conn sdi))) (T - n) in
  exists sdi',
    read_more (Z.of_nat T) sdi = Some (None, sdi') /\
    header_buffered w sdi' (n + c) /\
    ready (conn sdi') = tail (ready (conn sdi)).
Proof.
  intros (d & Hp & Hn & Hnw & Hpre & Hrx & Hlen) HT HT11 Hnf c.
  unfold read_more.
  rewrite (bind_run get_devc _ sdi d sdi) by (unfold get_devc; by rewrite Hp).
  rewrite Hn. destruct (Z.ltb_spec (Z.of_nat n) (Z.of_nat T)); [|lia].
  rewrite to_u64_small by lia.
  rewrite to_int_small by (unfold INT_MIN, INT_MAX; lia).
  destruct (read_data_ready sdi d (Z.of_nat n) (Z.of_nat T - Z.of_nat n))
    as (b & Hw & Hrun); [done|done| |].
  { right. unfold ACQ_BUFFER_SIZE in Hlen. lia. }
  rewrite (bind_run _ _ _ _ _ Hrun).
  set (bytes := delivered (conn sdi) (Z.of_nat T - Z.of_nat n)) in *.
  assert (bytes = take c (drop n w)) as Hbytes.
  { unfold bytes, delivered, c. rewrite Hrx. f_equal. lia. }
  assert (length bytes = c) as Hlb.
  { rewrite Hbytes, length_take, length_drop. lia. }
  destruct (Z.ltb_spec (Z.of_nat (length bytes)) 0); [lia|].
  unfold exec. unfold_prims. simpl.
  eexists. split; [reflexivity|]. split; [|done].
  destruct (array_write_spec (buffer d) (Z.of_nat n) bytes)
    as (b' & Hw' & Hl' & Hlo & Hmid & _).
  { right. unfold ACQ_BUFFER_SIZE in Hlen. lia. }
  rewrite Hw in Hw'. injection Hw' as <-.
  exists (set_num_header_bytes (to_u64 (Z.of_nat n + Z.of_nat (length bytes)))
            (set_buffer b d)).
  simpl. split; [by rewrite Hn|].
  rewrite to_u64_small by lia. split; [lia|]. split; [lia|].
  split; [|split; [|by rewrite Hl']].
  - apply list_eq. intros i.
    destruct (decide (i < n + c)%nat) as [Hi|Hi].
    2:{ by rewrite !lookup_take_ge by lia. }
    rewrite !lookup_take_lt by lia.
    destruct (decide (i < n)%nat) as [Hin|Hin].
    + rewrite Hlo by lia.
      assert (take n (buffer d) !! i = take n w !! i) as Heq by (by rewrite Hpre).
      by rewrite !lookup_take_lt in Heq by lia.
    + replace i with (Z.to_nat (Z.of_nat n) + (i - n))%nat by lia.
      rewrite Hmid by lia. rewrite Hbytes.
      rewrite lookup_take_lt by lia. rewrite lookup_drop. f_equal. lia.
  - fold bytes. rewrite Hlb, Hrx, drop_drop. done.
Qed.

Lemma budget_tail evs (n T H : nat) :
  (n < T <= H)%nat ->
  (H - n <= budget evs)%nat ->
  (H - (n + Nat.min (ready_count evs) (T - n)) <= budget (tail evs))%nat.
Proof.
  intros HT Hb. unfold budget in *.
  destruct evs as [|ev evs]; [simpl in *; lia|].
  cbn [tail]. destruct (productive ev) eqn:Hpe.
  - rewrite filter_cons_True in Hb by done. cbn [length] in Hb.
    assert (1 <= ready_count (ev :: evs))%nat
      by (destruct ev as [[|k]|]; simpl in *; [done|lia|done]).
    lia.
  - rewrite filter_cons_False in Hb by (by rewrite Hpe). lia.
Qed.

(** The reads of the header, whether anything is missing or not. *)
Lemma read_more_any w sdi n (T : nat) :
  header_buffered w sdi n ->
  (T <= length w)%nat -> (T <= 11)%nat ->
  Forall (fun ev => ev <> Failure) (ready (conn sdi)) ->
  exists sdi' n',
    read_more (Z.of_nat T) sdi = Some (None, sdi') /\
    header_buffered w sdi' n' /\
    (n <= n' <= Nat.max n T)%nat /\
    Forall (fun ev => ev <> Failure) (ready (conn sdi')) /\
    (forall H, (T <= H)%nat ->
               (H - n <= budget (ready (conn sdi)))%nat ->
               (H - n' <= budget (ready (conn sdi')))%nat) /\
    (length (ready (conn sdi')) <= length (ready (conn sdi)))%nat /\
    ((n < T)%nat -> ready (conn sdi) <> [] ->
     (length (ready (conn sdi')) < length (ready (conn sdi)))%nat) /\
    ((T <= n)%nat -> sdi' = sdi).
Proof.
  intros Hinv HT HT11 Hev.
  destruct (decide (n < T)%nat) as [Hlt|Hge].
  - assert (head (ready (conn sdi)) <> Some Failure) as Hnf.
    { destruct (ready (conn sdi)) as [|ev evs]; [done|].
      apply Forall_cons in Hev as [Hev _]. simpl. congruence. }
    destruct (read_more_spec w sdi n T Hinv) as (sdi' & Hrun & Hinv' & Hr);
      [lia|done|done|].
    eexists sdi', _. split; [done|]. split; [done|]. rewrite Hr.
    split; [lia|]. split.
    { destruct (ready (conn sdi)) as [|ev evs]; [done|].
      by apply Forall_cons in Hev as [_ Hev]. }
    split; [|split; [|split]].
    + intros H HH Hb. by apply budget_tail; [lia|].
    + destruct (ready (conn sdi)); simpl; lia.
    + intros _ Hne. destruct (ready (conn sdi)); [done|]. simpl; lia.
    + lia.
  - exists sdi, n. split; [apply (read_more_skip w sdi n); [done|lia]|].
    split; [done|]. split; [lia|]. split; [done|].
    split; [done|]. split; [done|]. split; [lia|done].
Qed.

Lemma c_string_app_nul (f r : list Z) : c_string (f ++ 0 :: r) = c_string f.
Proof.
  induction f as [|c f IH]; simpl; [done|].
  destruct (c =? 0); [done|]. by rewrite IH.
Qed.

(** [parse_int] stores the parsed value or fails; it only writes to the log. *)
Lemma parse_int_parsed str sdi :
  exists l,
    parse_int str sdi =
      Some (match parsed str with
            | Some v => (SR_OK, Some v)
            | None => (SR_ERR, None)
            end,
            {| priv := priv sdi; conn := conn sdi; session := session sdi;
               log := log sdi ++ l |}).
Proof.
  unfold parse_int, parsed. destruct (strtol str) as [[tmp e] errno].
  unfold_prims.
  destruct ((e =? 0)%nat || (e <? length str)%nat); simpl; [by eexists|].
  destruct errno; simpl; [by eexists|].
  destruct ((INT_MAX <? tmp) || (tmp <? INT_MIN)); simpl; [by eexists|].
  exists []. rewrite app_nil_r. by destruct sdi.
Qed.

Lemma header_size_bounds w : (2 <= header_size w <= 11)%nat.
Proof.
  unfold header_size, bad_header_start, isdigit, CHAR_0.
  destruct w as [|b0 [|b1 field]]; [lia..|].
  destruct (negb (b0 =? HASH)); simpl; [lia|].
  destruct (Z.leb_spec 48 b1); simpl; [|lia].
  destruct (Z.leb_spec b1 57); simpl; [|lia].
  destruct (Z.eqb_spec b1 48); simpl; lia.
Qed.

Lemma header_buffered_start w sdi n d :
  header_buffered w sdi n -> priv sdi = Some d -> (2 <= n)%nat ->
  exists b0 b1 field,
    w = b0 :: b1 :: field /\
    array_get (buffer d) 0 = Some b0 /\ array_get (buffer d) 1 = Some b1.
Proof.
  intros (d' & Hp & _ & Hnw & Hpre & _) Hp' Hn.
  assert (d' = d) as -> by congruence.
  destruct w as [|b0 [|b1 field]]; simpl in Hnw; [lia..|].
  exists b0, b1, field. split; [done|].
  assert (forall i, (i < 2)%nat -> buffer d !! i = (b0 :: b1 :: field) !! i) as Hi.
  { intros i Hi.
    assert (take n (buffer d) !! i = take n (b0 :: b1 :: field) !! i) as Heq
      by (by rewrite Hpre).
    by rewrite !lookup_take_lt in Heq by lia. }
  split; [apply (Hi 0%nat); lia|apply (Hi 1%nat); lia].
Qed.

(** One call of the header decoder, with [n] bytes of the header buffered so
    far: it buffers more of them, answers 0 as long as some are missing, and
    its verdict once they are all there. *)
Lemma read_header_call w sdi n :
  header_buffered w sdi n ->
  (n <= header_size w <= length w)%nat ->
  Forall (fun ev => ev <> Failure) (ready (conn sdi)) ->
  exists r sdi' n',
    keysight_read_header sdi = Some (r, sdi') /\
    header_buffered w sdi' n' /\
    (n <= n' <= header_size w)%nat /\
    r = (if (n' <? header_size w)%nat then 0 else header_verdict w) /\
    Forall (fun ev => ev <> Failure) (ready (conn sdi')) /\
    ((header_size w - n <= budget (ready (conn sdi)))%nat ->
     (header_size w - n' <= budget (ready (conn sdi')))%nat) /\
    (length (ready (conn sdi')) <= length (ready (conn sdi)))%nat /\
    ((n < header_size w)%nat -> ready (conn sdi) <> [] ->
     (length (ready (conn sdi')) < length (ready (conn sdi)))%nat).
Proof.
  intros Hinv Hn Hev.
  pose proof (header_size_bounds w) as HH.
  rewrite keysight_read_header_unfold.
  (* the hash sign and the length digit *)
  destruct (read_more_any w sdi n 2 Hinv) as
    (sdi1 & n1 & Hrun1 & Hinv1 & Hn1 & Hev1 & Hb1 & Hl1 & Hlt1 & Hsame1);
    [lia|lia|done|].
  change (Z.of_nat 2) with 2 in Hrun1.
  rewrite (body_through _ _ _ _ Hrun1).
  destruct Hinv1 as (d1 & Hp1 & Hnhb1 & Hnw1 & Hpre1 & Hrx1 & Hlen1).
  assert (header_buffered w sdi1 n1) as Hinv1 by (by exists d1).
  destruct (decide (n1 < 2)%nat) as [Hshort|Hlong].
  { erewrite body_return; last first.
    { rewrite (bind_run _ _ _ _ _ (get_devc_run _ _ Hp1)), Hnhb1.
      destruct (Z.ltb_spec (Z.of_nat n1) 2); [reflexivity|lia]. }
    exists 0, sdi1, n1. split; [done|]. split; [done|]. split; [lia|].
    split; [by destruct (Nat.ltb_spec n1 (header_size w)); [|lia]|].
    split; [done|]. split; [apply Hb1; lia|]. split; [done|].
    intros ? ?. apply Hlt1; [lia|done]. }
  erewrite body_through; last first.
  { rewrite (bind_run _ _ _ _ _ (get_devc_run _ _ Hp1)), Hnhb1.
    destruct (Z.ltb_spec (Z.of_nat n1) 2); [lia|reflexivity]. }
  rewrite (body_bind _ _ _ _ _ (get_devc_run _ _ Hp1)).
  destruct (header_buffered_start w sdi1 n1 d1 Hinv1 Hp1)
    as (b0 & b1 & field & Hw & Hb0 & Hb1'); [lia|].
  rewrite Hb0, (body_bind (lift (Some b0)) _ sdi1 b0 sdi1 eq_refl).
  rewrite Hb1', (body_bind (lift (Some b1)) _ sdi1 b1 sdi1 eq_refl).
  assert (header_size w
          = if bad_header_start b0 b1 then 2%nat
            else Z.to_nat (2 + b1 - CHAR_0)) as HHw by (by rewrite Hw).
  assert (header_verdict w
          = if bad_header_start b0 b1 then SR_ERR
            else match parsed (c_string (take (Z.to_nat (b1 - CHAR_0)) field))
                 with Some v => v | None => -1 end) as HVw by (by rewrite Hw).
  destruct (bad_header_start b0 b1) eqn:Hbad.
  { (* not the start of a header *)
    erewrite body_return; [|reflexivity].
    exists SR_ERR, (sr_dev_inst_log sdi1 (log sdi1 ++ [Err_invalid_header b0 b1])),
      n1.
    split; [reflexivity|]. split; [by exists d1|]. split; [lia|].
    split; [by destruct (Nat.ltb_spec n1 (header_size w)); [lia|]|].
    split; [done|]. split; [apply Hb1; lia|]. split; [done|].
    intros ? ?. apply Hlt1; [lia|done]. }
  erewrite body_through; [|reflexivity]. cbv zeta.
  assert (to_u64 (2 + b1 - CHAR_0) = Z.of_nat (header_size w)) as ->.
  { rewrite HHw. unfold CHAR_0 in *. rewrite to_u64_small; lia. }
  (* the length digits *)
  destruct (read_more_any w sdi1 n1 (header_size w) Hinv1) as
    (sdi2 & n2 & Hrun2 & Hinv2 & Hn2 & Hev2 & Hb2 & Hl2 & Hlt2 & _);
    [lia|lia|done|].
  rewrite (body_through _ _ _ _ Hrun2).
  destruct Hinv2 as (d2 & Hp2 & Hnhb2 & Hnw2 & Hpre2 & Hrx2 & Hlen2).
  assert (header_buffered w sdi2 n2) as Hinv2 by (by exists d2).
  assert ((header_size w - n <= budget (ready (conn sdi)))%nat ->
          (header_size w - n2 <= budget (ready (conn sdi2)))%nat) as Hbudget.
  { intros Hb. apply Hb2; [lia|]. apply Hb1; [lia|done]. }
  assert ((n < header_size w)%nat -> ready (conn sdi) <> [] ->
          (length (ready (conn sdi2)) < length (ready (conn sdi)))%nat) as Hless.
  { intros Hn' Hne. destruct (decide (n < 2)%nat).
    - specialize (Hlt1 ltac:(lia) Hne). lia.
    - assert (n1 < header_size w)%nat as Hn1' by lia.
      assert (ready (conn sdi1) <> []) as Hne1
        by (by rewrite Hsame1 by lia).
      specialize (Hlt2 Hn1' Hne1). lia. }
  destruct (decide (n2 < header_size w)%nat) as [Hshort|Hfull].
  { erewrite body_return; last first.
    { rewrite (bind_run _ _ _ _ _ (get_devc_run _ _ Hp2)), Hnhb2.
      destruct (Z.ltb_spec (Z.of_nat n2) (Z.of_nat (header_size w)));
        [reflexivity|lia]. }
    exists 0, sdi2, n2. split; [done|]. split; [done|]. split; [lia|].
    split; [by destruct (Nat.ltb_spec n2 (header_size w)); [|lia]|].
    split; [done|]. split; [done|]. split; [lia|done]. }
  erewrite body_through; last first.
  { rewrite (bind_run _ _ _ _ _ (get_devc_run _ _ Hp2)), Hnhb2.
    destruct (Z.ltb_spec (Z.of_nat n2) (Z.of_nat (header_size w)));
      [lia|reflexivity]. }
  assert (n2 = header_size w) as -> by lia.
  remember (header_size w) as H eqn:HeqH.
  (* the terminating NUL and the length *)
  set (b' := <[H := 0]> (buffer d2)).
  set (sdi3 := {| priv := Some (set_buffer b' d2); conn := conn sdi2;
                  session := session sdi2; log := log sdi2 |}).
  erewrite body_through; last first.
  { rewrite (bind_run _ _ _ _ _ (get_devc_run _ _ Hp2)).
    rewrite array_set_insert by (unfold ACQ_BUFFER_SIZE in Hlen2; lia).
    unfold exec. unfold_prims. rewrite Hp2. reflexivity. }
  fold b' sdi3.
  rewrite (body_bind _ _ _ _ _ (get_devc_run sdi3 _ eq_refl)).
  assert (c_string (drop 2 (buffer (set_buffer b' d2)))
          = c_string (take (Z.to_nat (b1 - CHAR_0)) field)) as ->.
  { simpl. unfold b'.
    rewrite insert_take_drop by (unfold ACQ_BUFFER_SIZE in Hlen2; lia).
    rewrite Hpre2, Hw.
    assert (H = S (S (Z.to_nat (b1 - CHAR_0)))) as ->.
    { rewrite HHw. unfold CHAR_0 in *. lia. }
    simpl. apply c_string_app_nul. }
  destruct (parse_int_parsed (c_string (take (Z.to_nat (b1 - CHAR_0)) field))
              sdi3) as (l & Hparse).
  rewrite (body_bind _ _ _ _ _ Hparse).
  assert (forall l', header_buffered w (sr_dev_inst_log sdi3 l') H) as Hinv3.
  { intros l'. exists (set_buffer b' d2). simpl.
    split; [done|]. split; [done|]. split; [done|].
    split; [by unfold b'; rewrite take_insert_ge|].
    split; [done|]. unfold b'. by rewrite length_insert. }
  rewrite HVw.
  destruct (parsed _) as [v|]; simpl.
  - eexists v, (sr_dev_inst_log sdi3 _), H.
    split; [reflexivity|]. split; [apply Hinv3|]. split; [lia|].
    split; [by rewrite Nat.ltb_irrefl|]. simpl.
    split; [done|]. split; [done|]. split; [lia|done].
  - eexists (-1), (sr_dev_inst_log sdi3 _), H.
    split; [reflexivity|]. split; [apply Hinv3|]. split; [lia|].
    split; [by rewrite Nat.ltb_irrefl|]. simpl.
    split; [done|]. split; [done|]. split; [lia|done].
Qed.

(** The header decoder touches the buffer, its own counter, the transport and
    the log, and nothing else. *)
Lemma read_header_frame : keeps keysight_read_header.
Proof.
  rewrite keysight_read_header_unfold. apply keeps_body.
  apply keeps_seq; [apply keeps_read_more|].
  apply keeps_seq.
  { apply keeps_bind; [apply keeps_get_devc|]. intros d.
    destruct (_ <? _); apply keeps_ret. }
  apply keeps_bind; [apply keeps_get_devc|]. intros d.
  apply keeps_bind; [apply keeps_lift|]. intros b0.
  apply keeps_bind; [apply keeps_lift|]. intros b1.
  apply keeps_seq.
  { destruct (bad_header_start b0 b1); [|apply keeps_ret].
    apply keeps_seq; [by apply keeps_exec, keeps_log|apply keeps_ret]. }
  cbv zeta. apply keeps_seq; [apply keeps_read_more|].
  apply keeps_seq.
  { apply keeps_bind; [apply keeps_get_devc|]. intros d'.
    destruct (_ <? _); apply keeps_ret. }
  apply keeps_seq.
  { apply keeps_bind; [apply keeps_get_devc|]. intros d'.
    apply keeps_bind; [apply keeps_lift|]. intros b.
    by apply keeps_exec, keeps_modify. }
  apply keeps_bind; [apply keeps_get_devc|]. intros d'.
  apply keeps_bind; [apply keeps_parse_int|]. intros [r v].
  destruct (negb _).
  - apply keeps_seq; [by apply keeps_exec, keeps_log|apply keeps_ret].
  - destruct v; [|by intros ? ? ?].
    apply keeps_seq; [by apply keeps_exec, keeps_log|apply keeps_ret].
Qed.

(** The header phase leaves the session alone when it falls through to the
    payload. *)
Lemma receive_header_through sdi sdi1 :
  receive_header sdi = Some (None, sdi1) -> session sdi1 = session sdi.
Proof.
  unfold receive_header. unfold seq, exec. unfold_prims.
  destruct (priv sdi) as [d|] eqn:Hp; [|done].
  destruct (num_block_bytes d =? 0); [|by intros [= <-]].
  simpl.
  destruct (keysight_read_header _) as [[len sdi2]|] eqn:Hrun; [|done].
  apply read_header_frame in Hrun as (Hs & _). simpl in Hs.
  destruct (len =? 0); [done|].
  destruct (len =? -1).
  - simpl. destruct (priv sdi2); simpl; done.
  - destruct (priv sdi2); simpl; [|done]. intros [= <-]. done.
Qed.

(** One run of the header phase of the callback (lines 312-328) while the
    header that starts [w] is awaited: more of the header is buffered, and
    the phase returns to wait for the rest, aborts the capture on the verdict
    -1, or falls through to the payload with the verdict as block length. *)
Lemma receive_header_call w sdi d n :
  priv sdi = Some d ->
  num_block_bytes d = 0 ->
  state d = STATE_READING_DATA ->
  header_buffered w sdi n ->
  (n <= header_size w <= length w)%nat ->
  Forall (fun ev => ev <> Failure) (ready (conn sdi)) ->
  exists res sdi' n',
    receive_header sdi = Some (res, sdi') /\
    header_buffered w sdi' n' /\
    (n <= n' <= header_size w)%nat /\
    Forall (fun ev => ev <> Failure) (ready (conn sdi')) /\
    ((header_size w - n <= budget (ready (conn sdi)))%nat ->
     (header_size w - n' <= budget (ready (conn sdi')))%nat) /\
    ((n < header_size w)%nat -> ready (conn sdi) <> [] ->
     (length (ready (conn sdi')) < length (ready (conn sdi)))%nat) /\
    let r := if (n' <? header_size w)%nat then 0 else header_verdict w in
    (r = 0 -> res = Some TRUE /\ unchanged sdi sdi') /\
    (r = -1 ->
     res = Some TRUE /\
     session sdi' =
       session sdi ++ [Session_send SR_DF_FRAME_END; Acquisition_stop] /\
     state_of sdi' = Some STATE_IDLE) /\
    (r <> 0 -> r <> -1 ->
     res = None /\ session sdi' = session sdi /\
     state_of sdi' = Some STATE_READING_DATA /\
     (num_block_bytes <$> priv sdi') = Some (to_u64 r) /\
     (num_block_read <$> priv sdi') = Some 0).
Proof.
  intros Hp Hnbb Hst Hinv Hn Hev.
  set (sdiL := sr_dev_inst_log sdi (log sdi ++ [Dbg_new_block_header])).
  assert (header_buffered w sdiL n) as HinvL.
  { destruct Hinv as (d' & ?). by exists d'. }
  destruct (read_header_call w sdiL n HinvL Hn Hev)
    as (r & sdi1 & n' & Hrun & Hinv1 & Hn' & -> & Hev1 & Hb1 & _ & Hlt1).
  pose proof (read_header_frame _ _ _ Hrun)
    as (Hs1 & Hst1 & Hce1 & Hbb1 & Hbr1 & Hlog1).
  simpl in Hs1, Hst1, Hce1, Hbb1, Hbr1, Hlog1.
  rewrite Hp in Hst1, Hce1, Hbb1, Hbr1.
  simpl in Hst1, Hce1, Hbb1, Hbr1.
  destruct Hinv1 as (d1 & Hp1 & Hrest1).
  rewrite Hp1 in Hst1, Hce1, Hbb1, Hbr1. simpl in Hst1, Hce1, Hbb1, Hbr1.
  injection Hst1 as Hst1. injection Hbb1 as Hbb1.
  set (r := if (n' <? header_size w)%nat then 0 else header_verdict w) in *.
  assert (receive_header sdi =
          (if r =? 0 then return_ TRUE
           else if r =? -1 then
             exec (sr_log Err_abort_header);;;
             exec std_session_send_df_frame_end;;;
             exec sr_dev_acquisition_stop;;;
             exec (modify_devc (set_state STATE_IDLE));;;
             return_ TRUE
           else
             exec (modify_devc (set_num_block_bytes (to_u64 r)));;;
             exec (modify_devc (set_num_block_read 0))) sdi1) as ->.
  { unfold receive_header.
    rewrite (bind_run _ _ _ _ _ (get_devc_run _ _ Hp)), Hnbb.
    change (0 =? 0) with true. cbv iota.
    rewrite (exec_through (sr_log Dbg_new_block_header) _ sdi sdiL eq_refl).
    by rewrite (bind_run _ _ _ _ _ Hrun). }
  destruct (Z.eqb_spec r 0) as [Hr0|Hr0].
  { exists (Some TRUE), sdi1, n'. split; [done|]. split; [by exists d1|].
    split; [done|]. split; [done|]. split; [done|]. split; [done|].
    split; [|split; [lia|done]]. intros _. split; [done|].
    unfold unchanged. rewrite Hp, Hp1. simpl.
    repeat split; [congruence..|].
    intros [?|?%list_elem_of_singleton]%Hlog1%elem_of_app; [done|congruence]. }
  destruct (Z.eqb_spec r (-1)) as [Hr1|Hr1].
  { unfold seq, exec. unfold_prims. rewrite Hp1. simpl.
    eexists (Some TRUE), _, n'. split; [reflexivity|].
    split; [by exists (set_state STATE_IDLE d1)|].
    split; [done|]. split; [done|]. split; [done|]. split; [done|].
    split; [done|]. split; [|done]. intros _. split; [done|]. simpl.
    by rewrite Hs1, <- app_assoc. }
  unfold seq, exec. unfold_prims. rewrite Hp1. simpl.
  eexists None, _, n'. split; [reflexivity|].
  split.
  { exists (set_num_block_read 0 (set_num_block_bytes (to_u64 r) d1)).
    by destruct Hrest1 as (? & ? & ? & ? & ?). }
  split; [done|]. split; [done|]. split; [done|]. split; [done|].
  split; [done|]. split; [done|]. intros _ _. simpl.
  split; [done|]. split; [done|]. unfold state_of. simpl.
  by rewrite Hst1, Hst.
Qed.

(** Chunking invariance.  However the header bytes are split over the reads,
    provided that enough reads hand over at least one byte, the callback ends
    up with the verdict of the decoder on the whole header: the capture is
    aborted on -1, and any other verdict becomes the length of the block.
    The verdict 0 is excluded: it reads as an incomplete header. *)
Lemma await_header_verdict w fuel sdi d n :
  priv sdi = Some d ->
  num_block_bytes d = 0 ->
  state d = STATE_READING_DATA ->
  header_buffered w sdi n ->
  (n <= header_size w <= length w)%nat ->
  Forall (fun ev => ev <> Failure) (ready (conn sdi)) ->
  (header_size w - n <= budget (ready (conn sdi)))%nat ->
  (length (ready (conn sdi)) < fuel)%nat ->
  header_verdict w <> 0 ->
  exists sdi',
    rx (conn sdi') = drop (header_size w) w /\
    if header_verdict w =? -1 then
      await_header fuel sdi = Some (Header_aborted, sdi') /\
      session sdi' =
        session sdi ++ [Session_send SR_DF_FRAME_END; Acquisition_stop] /\
      state_of sdi' = Some STATE_IDLE
    else
      await_header fuel sdi
        = Some (Header_decoded (to_u64 (header_verdict w)), sdi') /\
      session sdi' = session sdi /\
      state_of sdi' = Some STATE_READING_DATA /\
      (num_block_bytes <$> priv sdi') = Some (to_u64 (header_verdict w)) /\
      (num_block_read <$> priv sdi') = Some 0.
Proof.
  revert sdi d n.
  induction fuel as [|fuel IH];
    intros sdi d n Hp Hnbb Hst Hinv Hn Hev Hbud Hfuel Hv; [lia|].
  destruct (receive_header_call w sdi d n Hp Hnbb Hst Hinv Hn Hev)
    as (res & sdi1 & n' & Hrun & Hinv1 & Hn' & Hev1 & Hbud1 & Hlt1 & Hcases).
  destruct Hinv1 as (d1 & Hp1 & Hrest1).
  assert (header_buffered w sdi1 n') as Hinv1 by (by exists d1).
  simpl. rewrite (bind_run _ _ _ _ _ Hrun).
  rewrite (bind_run _ _ _ _ _ (get_devc_run _ _ Hp1)).
  destruct (Nat.ltb_spec n' (header_size w)) as [Hshort|Hfull].
  - (* still incomplete *)
    destruct Hcases as ((-> & Hun) & _); [done|].
    destruct Hun as (Hs & Hst1 & _ & Hbb1 & _ & _).
    rewrite Hp, Hp1 in Hst1, Hbb1. simpl in Hst1, Hbb1.
    injection Hst1 as Hst1. injection Hbb1 as Hbb1.
    rewrite Hst1, Hst.
    assert (num_block_bytes d1 = 0) as Hnbb1 by congruence.
    assert (state d1 = STATE_READING_DATA) as Hst1' by congruence.
    assert (header_size w - n' <= budget (ready (conn sdi1)))%nat as Hbud1'
      by (apply Hbud1; lia).
    assert (length (ready (conn sdi1)) < fuel)%nat as Hfuel1.
    { assert (ready (conn sdi) <> []) as Hne.
      { intros Hnil. rewrite Hnil in Hbud. unfold budget in Hbud.
        simpl in Hbud. lia. }
      specialize (Hlt1 ltac:(lia) Hne). lia. }
    destruct (IH sdi1 d1 n' Hp1 Hnbb1 Hst1' Hinv1 ltac:(lia) Hev1 Hbud1'
                Hfuel1 Hv) as (sdi' & Hrx & Hres).
    exists sdi'. split; [done|]. rewrite Hs in Hres. done.
  - assert (n' = header_size w) as -> by lia.
    destruct Hrest1 as (_ & _ & _ & Hrx & _).
    exists sdi1. split; [done|].
    destruct Hcases as (_ & Habort & Hdecoded).
    destruct (Z.eqb_spec (header_verdict w) (-1)) as [Hm1|Hm1].
    + destruct (Habort Hm1) as (-> & Hs & Hst1).
      unfold state_of in Hst1. rewrite Hp1 in Hst1. injection Hst1 as Hst1.
      rewrite Hst1. split; [reflexivity|]. split; [done|].
      unfold state_of. rewrite Hp1. simpl. by rewrite Hst1.
    + destruct (Hdecoded Hv Hm1) as (-> & Hs & Hst1 & Hbb & Hbr).
      assert (num_block_bytes d1 = to_u64 (header_verdict w)) as Hbb1.
      { rewrite Hp1 in Hbb. by injection Hbb. }
      simpl. rewrite Hbb1. split; [reflexivity|]. by repeat split.
Qed.

(** *** Parsing the length *)

Lemma c_string_nonzero (s : list Z) :
  Forall (fun c => c <> 0) s -> c_string s = s.
Proof.
  induction 1 as [|c s Hc _ IH]; simpl; [done|].
  destruct (Z.eqb_spec c 0); [done|]. by rewrite IH.
Qed.

Lemma isdigit_range c : isdigit c = true <-> 48 <= c <= 57.
Proof. unfold isdigit. lia. Qed.

Lemma read_digits_all (ds : list Z) acc n :
  Forall (fun c => isdigit c = true) ds ->
  read_digits ds acc n
    = (fold_left (fun acc c => 10 * acc + (c - CHAR_0)) ds acc,
       (n + length ds)%nat, []).
Proof.
  intros Hds. revert acc n.
  induction Hds as [|c ds Hc _ IH]; intros acc n; simpl.
  - by rewrite Nat.add_0_r.
  - rewrite Hc, IH. do 2 f_equal. lia.
Qed.

Lemma read_digits_split (s : list Z) acc n v n' rest :
  read_digits s acc n = (v, n', rest) ->
  exists ds,
    s = ds ++ rest /\ Forall (fun c => isdigit c = true) ds /\
    n' = (n + length ds)%nat.
Proof.
  revert acc n. induction s as [|c s IH]; intros acc n; simpl.
  - intros [= _ <- <-]. exists []. by rewrite Nat.add_0_r.
  - destruct (isdigit c) eqn:Hc.
    + intros (ds & -> & Hds & ->)%IH. exists (c :: ds).
      split; [done|]. split; [by constructor|]. simpl. lia.
    + intros [= _ <- <-]. exists []. by rewrite Nat.add_0_r.
Qed.

Lemma skip_spaces_split (s : list Z) :
  exists ws, s = ws ++ skip_spaces s /\ Forall (fun c => isspace c = true) ws.
Proof.
  induction s as [|c s (ws & IH & Hws)]; simpl; [by exists []|].
  destruct (isspace c) eqn:Hc.
  - exists (c :: ws). split; [by rewrite IH at 1|by constructor].
  - by exists [].
Qed.

Lemma decimal_bounds (ds : list Z) acc :
  Forall (fun c => isdigit c = true) ds -> 0 <= acc ->
  acc * 10 ^ Z.of_nat (length ds)
  <= fold_left (fun acc c => 10 * acc + (c - CHAR_0)) ds acc
  < (acc + 1) * 10 ^ Z.of_nat (length ds).
Proof.
  intros Hds. revert acc.
  induction Hds as [|c ds Hc%isdigit_range _ IH]; intros acc Hacc.
  - simpl. lia.
  - simpl fold_left. cbn [length].
    rewrite Nat2Z.inj_succ, Z.pow_succ_r by lia.
    assert (0 <= c - CHAR_0 <= 9) as Hx by (unfold CHAR_0; lia).
    set (x := c - CHAR_0) in *.
    specialize (IH (10 * acc + x) ltac:(lia)).
    assert (0 < 10 ^ Z.of_nat (length ds)) by (apply Z.pow_pos_nonneg; lia).
    set (P := 10 ^ Z.of_nat (length ds)) in *.
    set (F := fold_left _ ds _) in *.
    split; nia.
Qed.

(** A string of decimal digits parses to its value, when that fits an
    [int], and is rejected when it does not. *)
Lemma parsed_digits (ds : list Z) :
  ds <> [] -> Forall (fun c => isdigit c = true) ds ->
  parsed ds = if decimal ds <=? INT_MAX then Some (decimal ds) else None.
Proof.
  intros Hne Hds. unfold parsed, strtol.
  destruct ds as [|c ds]; [done|].
  assert (48 <= c <= 57) as Hc.
  { apply isdigit_range. by apply Forall_cons in Hds as [? _]. }
  assert (skip_spaces (c :: ds) = c :: ds) as ->.
  { simpl. unfold isspace.
    destruct (Z.eqb_spec c 32); [lia|].
    destruct (Z.leb_spec 9 c); [|lia].
    by destruct (Z.leb_spec c 13); [lia|]. }
  unfold MINUS, PLUS.
  destruct (Z.eqb_spec c 45); [lia|]. destruct (Z.eqb_spec c 43); [lia|].
  rewrite (read_digits_all (c :: ds) 0 0 Hds). fold (decimal (c :: ds)).
  pose proof (decimal_bounds (c :: ds) 0 Hds ltac:(lia)) as Hb.
  fold (decimal (c :: ds)) in Hb.
  set (v := decimal (c :: ds)) in *.
  cbn [length Nat.add]. rewrite Nat.sub_0_r.
  unfold LONG_MAX, LONG_MIN, INT_MAX, INT_MIN.
  destruct (Z.ltb_spec 9223372036854775807 v).
  { simpl. rewrite Nat.ltb_irrefl. simpl.
    by destruct (Z.leb_spec v 2147483647); [lia|]. }
  destruct (Z.ltb_spec v (-9223372036854775808)); [lia|].
  simpl. rewrite Nat.ltb_irrefl. simpl.
  destruct (Z.ltb_spec 2147483647 v); simpl.
  { by destruct (Z.leb_spec v 2147483647); [lia|]. }
  destruct (Z.ltb_spec v (-2147483648)); [lia|]. simpl.
  destruct (Z.leb_spec v 2147483647); [|lia].
  rewrite to_int_small; [done|]. unfold INT_MIN, INT_MAX. lia.
Qed.

(** [parse_int] accepts nothing but the syntax of [strtol]. *)
Lemma parsed_syntax (s : list Z) v : parsed s = Some v -> strtol_syntax s.
Proof.
  unfold parsed, strtol.
  destruct (skip_spaces_split s) as (ws & Hs & Hws).
  set (s1 := skip_spaces s) in *.
  set (p := match s1 with
            | c :: s' => if c =? MINUS then (true, s')
                         else if c =? PLUS then (false, s') else (false, s1)
            | [] => (false, s1)
            end).
  assert (exists sg, s1 = sg ++ p.2
                     /\ (sg = [] \/ sg = [PLUS] \/ sg = [MINUS])) as (sg & Hs1 & Hsg).
  { unfold p. destruct s1 as [|c s']; [by exists []; auto|].
    destruct (Z.eqb_spec c MINUS) as [->|]; [exists [MINUS]; by auto|].
    destruct (Z.eqb_spec c PLUS) as [->|]; [exists [PLUS]; by auto|].
    exists []. by auto. }
  destruct p as [neg s2]. simpl in Hs1.
  destruct (read_digits s2 0 0) as [[mag nd] rest] eqn:Hrd.
  apply read_digits_split in Hrd as (ds & Hs2 & Hds & Hnd). simpl in Hnd.
  destruct nd as [|nd]; [done|].
  assert (ds <> []) as Hne by (intros ->; simpl in Hnd; lia).
  set (e := (length s - length rest)%nat).
  assert (forall (x : Z * nat * bool), x.1.2 = e ->
            (let '(tmp, e0, errno) := x in
             if (e0 =? 0)%nat || (e0 <? length s)%nat || errno
                || (INT_MAX <? tmp) || (tmp <? INT_MIN)
             then None else Some (to_int tmp)) = Some v ->
            rest = []) as Hrest.
  { intros [[tmp e0] errno]. simpl. intros ->.
    destruct (Nat.ltb_spec e (length s)) as [Hlt|Hge].
    { by rewrite orb_true_r. }
    intros _. unfold e in Hge.
    assert (length s = length ws + length sg + length ds + length rest)%nat.
    { rewrite Hs, Hs1, Hs2, !length_app. lia. }
    destruct rest; [done|]. destruct ds; [done|]. simpl in *. lia. }
  intros Hv. assert (rest = []) as ->.
  { destruct (LONG_MAX <? _); [exact (Hrest (_, e, _) eq_refl Hv)|].
    destruct (_ <? LONG_MIN); exact (Hrest (_, e, _) eq_refl Hv). }
  exists ws, sg, ds. rewrite app_nil_r in Hs2. subst s2.
  split; [by rewrite Hs at 1; rewrite Hs1|]. done.
Qed.

(** *** The claims about the header *)

Lemma header_buffered_initial w sdi d :
  priv sdi = Some d ->
  num_header_bytes d = 0 ->
  Z.of_nat (length (buffer d)) = ACQ_BUFFER_SIZE ->
  rx (conn sdi) = w ->
  header_buffered w sdi 0.
Proof.
  intros Hp Hn Hl Hrx. exists d. repeat split; try done. simpl; lia.
Qed.

(** C2, for a declared length of at least 1.  A header '#', a digit count in
    1..9 and as many decimal digits, in front of any payload: however the
    transport splits the bytes over the reads (each read hands over any
    number of the bytes that remain, none included), as soon as as many
    reads as the header has bytes have handed over something the callback
    has left the header phase with the declared length as the length of the
    block; it has consumed the header and nothing else. *)
Theorem header_length_whatever_the_split ds payload fuel sdi d :
  (1 <= length ds <= 9)%nat ->
  Forall (fun c => isdigit c = true) ds ->
  1 <= decimal ds ->
  priv sdi = Some d ->
  state d = STATE_READING_DATA ->
  num_block_bytes d = 0 ->
  num_header_bytes d = 0 ->
  Z.of_nat (length (buffer d)) = ACQ_BUFFER_SIZE ->
  rx (conn sdi) = HASH :: CHAR_0 + Z.of_nat (length ds) :: ds ++ payload ->
  Forall (fun ev => ev <> Failure) (ready (conn sdi)) ->
  (2 + length ds <= budget (ready (conn sdi)))%nat ->
  (length (ready (conn sdi)) < fuel)%nat ->
  exists sdi',
    await_header fuel sdi = Some (Header_decoded (decimal ds), sdi') /\
    (num_block_bytes <$> priv sdi') = Some (decimal ds) /\
    (num_block_read <$> priv sdi') = Some 0 /\
    rx (conn sdi') = payload /\
    session sdi' = session sdi /\
    state_of sdi' = Some STATE_READING_DATA.
Proof.
  intros Hlen Hds HL Hp Hst Hnbb Hnhb Hbuf Hrx Hev Hbud Hfuel.
  set (w := HASH :: CHAR_0 + Z.of_nat (length ds) :: ds ++ payload) in *.
  assert (bad_header_start HASH (CHAR_0 + Z.of_nat (length ds)) = false) as Hok.
  { unfold bad_header_start, isdigit, CHAR_0. simpl.
    destruct (Z.leb_spec 48 (48 + Z.of_nat (length ds))); [|lia].
    destruct (Z.leb_spec (48 + Z.of_nat (length ds)) 57); [|lia].
    by destruct (Z.eqb_spec (48 + Z.of_nat (length ds)) 48); [lia|]. }
  assert (header_size w = (2 + length ds)%nat) as Hsize.
  { unfold w, header_size. rewrite Hok. unfold CHAR_0. lia. }
  pose proof (decimal_bounds ds 0 Hds ltac:(lia)) as Hdec.
  fold (decimal ds) in Hdec.
  assert (10 ^ Z.of_nat (length ds) <= 10 ^ 9) as Hpow
    by (apply Z.pow_le_mono_r; lia).
  assert (header_verdict w = decimal ds) as Hverdict.
  { unfold w, header_verdict. rewrite Hok.
    replace (Z.to_nat (CHAR_0 + Z.of_nat (length ds) - CHAR_0))
      with (length ds) by lia.
    rewrite take_app_length, c_string_nonzero.
    2:{ eapply Forall_impl; [exact Hds|]. intros c Hc%isdigit_range. lia. }
    rewrite parsed_digits by (try done; by destruct ds; simpl in *; [lia|]).
    unfold INT_MAX. by destruct (Z.leb_spec (decimal ds) 2147483647); [|lia]. }
  destruct (await_header_verdict w fuel sdi d 0 Hp Hnbb Hst)
    as (sdi' & Hrx' & Hres).
  { by apply (header_buffered_initial _ _ d). }
  { rewrite Hsize. unfold w. simpl. rewrite length_app. lia. }
  { done. } { rewrite Hsize. lia. } { done. } { rewrite Hverdict. lia. }
  rewrite Hverdict in Hres.
  destruct (Z.eqb_spec (decimal ds) (-1)); [lia|].
  rewrite to_u64_small in Hres by lia.
  destruct Hres as (Hrun & Hs & Hst' & Hbb & Hbr).
  exists sdi'. split; [done|]. split; [done|]. split; [done|].
  split; [|done].
  rewrite Hrx', Hsize. unfold w. simpl. by rewrite drop_app_length.
Qed.

(** The headers that the decoder rejects.  A byte stream whose first byte
    is not '#', whose second byte is '0' or not a digit, or whose length
    field, read as a C string (up to a NUL byte, if it has one), is not made
    of optional white space, an optional sign and at least one decimal
    digit: once the transport has handed over the header, the callback
    aborts the capture and no length is taken from the header.  An overflow
    cannot arise from the nine digits a header has at most; [parse_int]
    rejects a number that does not fit an [int]. *)
Theorem malformed_header_aborts b0 b1 field fuel sdi d :
  b0 <> HASH \/ isdigit b1 = false \/ b1 = CHAR_0 \/
  ~ strtol_syntax (c_string (take (Z.to_nat (b1 - CHAR_0)) field)) ->
  priv sdi = Some d ->
  state d = STATE_READING_DATA ->
  num_block_bytes d = 0 ->
  num_header_bytes d = 0 ->
  Z.of_nat (length (buffer d)) = ACQ_BUFFER_SIZE ->
  rx (conn sdi) = b0 :: b1 :: field ->
  (header_size (b0 :: b1 :: field) <= 2 + length field)%nat ->
  Forall (fun ev => ev <> Failure) (ready (conn sdi)) ->
  (header_size (b0 :: b1 :: field) <= budget (ready (conn sdi)))%nat ->
  (length (ready (conn sdi)) < fuel)%nat ->
  (exists sdi',
     await_header fuel sdi = Some (Header_aborted, sdi') /\
     session sdi' =
       session sdi ++ [Session_send SR_DF_FRAME_END; Acquisition_stop] /\
     state_of sdi' = Some STATE_IDLE) /\
  (forall ds, ds <> [] -> Forall (fun c => isdigit c = true) ds ->
              INT_MAX < decimal ds -> parsed ds = None).
Proof.
  intros Hmal Hp Hst Hnbb Hnhb Hbuf Hrx Hw Hev Hbud Hfuel.
  split.
  2:{ intros ds Hne Hds Hbig. rewrite parsed_digits by done.
      by destruct (Z.leb_spec (decimal ds) INT_MAX); [lia|]. }
  set (w := b0 :: b1 :: field) in *.
  assert (header_verdict w = -1) as Hverdict.
  { unfold w, header_verdict, bad_header_start.
    destruct (Z.eqb_spec b0 HASH) as [Hh|Hh]; simpl; [|done].
    destruct (isdigit b1) eqn:Hd; simpl; [|done].
    destruct (Z.eqb_spec b1 CHAR_0) as [H0|H0]; [done|].
    destruct Hmal as [?|[?|[?|Hsyn]]]; [done..|].
    destruct (parsed _) as [v|] eqn:Hparsed; [|done].
    destruct Hsyn. by eapply parsed_syntax. }
  destruct (await_header_verdict w fuel sdi d 0 Hp Hnbb Hst)
    as (sdi' & Hrx' & Hres).
  { by apply (header_buffered_initial _ _ d). }
  { split; [lia|]. exact Hw. }
  { done. } { lia. } { done. } { rewrite Hverdict. lia. }
  rewrite Hverdict in Hres. change (-1 =? -1) with true in Hres.
  by exists sdi'.
Qed.

(** A header that declares the length 0 is never complete for the caller. *)
Lemma await_header_pending w fuel sdi d n :
  priv sdi = Some d ->
  num_block_bytes d = 0 ->
  state d = STATE_READING_DATA ->
  header_buffered w sdi n ->
  (n <= header_size w <= length w)%nat ->
  Forall (fun ev => ev <> Failure) (ready (conn sdi)) ->
  header_verdict w = 0 ->
  exists sdi', await_header fuel sdi = Some (Header_pending, sdi').
Proof.
  revert sdi d n.
  induction fuel as [|fuel IH]; intros sdi d n Hp Hnbb Hst Hinv Hn Hev Hv.
  { by exists sdi. }
  destruct (receive_header_call w sdi d n Hp Hnbb Hst Hinv Hn Hev)
    as (res & sdi1 & n' & Hrun & Hinv1 & Hn' & Hev1 & _ & _ & Hcases).
  destruct Hcases as ((-> & Hun) & _); [by rewrite Hv; case_match|].
  destruct Hinv1 as (d1 & Hp1 & Hrest1).
  assert (header_buffered w sdi1 n') as Hinv1 by (by exists d1).
  destruct Hun as (_ & Hst1 & _ & Hbb1 & _).
  rewrite Hp, Hp1 in Hst1, Hbb1. simpl in Hst1, Hbb1.
  injection Hst1 as Hst1. injection Hbb1 as Hbb1.
  simpl. rewrite (bind_run _ _ _ _ _ Hrun).
  rewrite (bind_run _ _ _ _ _ (get_devc_run _ _ Hp1)).
  rewrite Hst1, Hst.
  apply (IH sdi1 d1 n'); try done; [congruence|congruence|lia].
Qed.

(** C2 fails for the declared length 0: on the block "#10" the callback never
    leaves the header phase with a length. *)
Lemma zero_length_never_decoded :
  ~ exists fuel len sdi',
      await_header fuel zero_length = Some (Header_decoded len, sdi').
Proof.
  intros (fuel & len & sdi' & Hrun).
  destruct (await_header_pending [35; 49; 48; 10] fuel zero_length
              (fresh_context [CH1] 0 STATE_READING_DATA) 0)
    as (sdi'' & Hpending); try done.
  - eapply header_buffered_initial;
      [reflexivity..|vm_compute; reflexivity|reflexivity].
  - simpl. lia.
  - unfold zero_length, awaiting, instrument, device. simpl.
    by repeat constructor.
  - congruence.
Qed.

(** A length field with a plus sign is accepted: the header "#2+5" yields
    the length 5. *)
Lemma signed_length_accepted :
  fst <$> await_header 8 signed_length = Some (Header_decoded 5).
Proof. vm_compute. reflexivity. Qed.

(** C3.  The header "#2-5", whose length field holds a sign character, is
    not reported as a framing error: the header phase takes the length -5
    from it, which becomes the block length 2^64 - 5 in the context, and the
    same call of the callback goes on to request -5 bytes of the transport
    and to send a packet; the capture is not aborted. *)
Theorem negative_length_accepted :
  fst <$> await_header 8 negative_length
    = Some (Header_decoded 18446744073709551611) /\
  observe (fun sdi => (state_of sdi, num_block_bytes <$> priv sdi,
                       session sdi, calls (conn sdi), log sdi))
    (keysight_receive log10f_at_one 0 G_IO_IN (Some negative_length))
  = Some (TRUE,
          Some (Some STATE_READING_DATA, Some 18446744073709551611,
                [Session_send (SR_DF_ANALOG CH1 0 0 [])],
                [Scpi_read_data 2; Scpi_read_data 2; Scpi_read_data (-5)],
                [Dbg_new_block_header; Dbg_block_header (-5);
                 Dbg_requesting (-5); Dbg_received 0;
                 Dbg_block_progress 0 18446744073709551611])).
Proof. split; vm_compute; reflexivity. Qed.

(** ** The significant digits of an analog packet *)

(** The conversion to [int] truncates every finite value within range. *)
Lemma int_of_float_trunc x t :
  float_trunc x = Some t -> INT_MIN <= t <= INT_MAX -> int_of_float x = t.
Proof.
  intros Ht Hr. unfold int_of_float. rewrite Ht.
  destruct (Z.leb_spec INT_MIN t); [|lia].
  by destruct (Z.leb_spec t INT_MAX); [|lia].
Qed.

(** [float_trunc] rounds toward zero and [float_floor] toward negative
    infinity: on a value with a fractional part (negative exponent), the
    integer parts are bracketed as follows. *)
Lemma float_trunc_toward_zero s m e t :
  e < 0 ->
  float_trunc (S754_finite s m e) = Some t ->
  Z.abs t * 2 ^ (- e) <= Z.pos m < (Z.abs t + 1) * 2 ^ (- e) /\
  (if s then t <= 0 else 0 <= t).
Proof.
  intros He. simpl. destruct (Z.leb_spec 0 e); [lia|]. intros [= <-].
  assert (0 < 2 ^ (- e)) as Hpos by (apply Z.pow_pos_nonneg; lia).
  pose proof (Z.mul_div_le (Z.pos m) _ Hpos) as H1.
  pose proof (Z.mul_succ_div_gt (Z.pos m) _ Hpos) as H2.
  assert (0 <= Z.pos m / 2 ^ (- e)) as H3 by (apply Z.div_pos; lia).
  destruct s.
  - rewrite Z.abs_opp, Z.abs_eq by done. split; [nia|lia].
  - rewrite Z.abs_eq by done. split; [nia|lia].
Qed.

Lemma float_floor_toward_minus_infinity s m e f :
  e < 0 ->
  float_floor (S754_finite s m e) = Some f ->
  let sm := if s then Z.neg m else Z.pos m in
  f * 2 ^ (- e) <= sm < (f + 1) * 2 ^ (- e).
Proof.
  intros He. simpl. destruct (Z.leb_spec 0 e); [lia|]. intros [= <-].
  assert (0 < 2 ^ (- e)) as Hpos by (apply Z.pow_pos_nonneg; lia).
  set (sm := if s then Z.neg m else Z.pos m).
  pose proof (Z.mul_div_le sm _ Hpos) as H1.
  pose proof (Z.mul_succ_div_gt sm _ Hpos) as H2.
  split; nia.
Qed.

(** C9, as the code has it.  The analog packet of a chunk carries, as its
    significant digits, the negated truncation toward zero of
    [log10f (vert_inc)], plus 1 when that logarithm is negative (for every
    finite logarithm whose integer part and its negation fit an [int]); the
    samples of the packet are the same whatever [log10f] answers. *)
Theorem analog_digits_truncation
    (log10f : float32 -> float32) ch sdi d vref vinc vor voff :
  priv sdi = Some d ->
  type ch = SR_CHANNEL_ANALOG ->
  array_get (vert_reference d) (index ch) = Some vref ->
  array_get (vert_inc d) (index ch) = Some vinc ->
  array_get (vert_origin d) (index ch) = Some vor ->
  array_get (vert_offset d) (index ch) = Some voff ->
  head (ready (conn sdi)) <> Some Failure ->
  buffers_allocated d ->
  let vdivlog := log10f (f32_of_f64 (f64_of_f32 vinc)) in
  exists sdi' digits n samples,
    receive_block log10f ch sdi = Some (None, sdi') /\
    session sdi' =
      session sdi ++ [Session_send (SR_DF_ANALOG ch digits n samples)] /\
    digits = analog_digits vdivlog /\
    (forall t,
       float_trunc vdivlog = Some t -> - INT_MAX < t <= INT_MAX ->
       digits = - t + Z_of_bool (float_ltb_0 vdivlog)) /\
    forall other_log10f : float32 -> float32,
      exists sdi'' digits',
        receive_block other_log10f ch sdi = Some (None, sdi'') /\
        session sdi'' =
          session sdi ++ [Session_send (SR_DF_ANALOG ch digits' n samples)].
Proof.
  intros Hp Ht Hvref Hvinc Hvor Hvoff Hnf Hba vdivlog.
  assert (calibrated ch d) as Hcal.
  { intros _. rewrite Hvref, Hvinc, Hvor, Hvoff. by eauto. }
  destruct (receive_block_step log10f ch sdi d Hp Hnf Hba Hcal)
    as (sdi' & d' & p & l & Hrun & _ & Hpacket & Hs & _).
  unfold chunk_packet in Hpacket.
  rewrite Ht, Hvref, Hvinc, Hvor in Hpacket. injection Hpacket as <-.
  eexists sdi', _, _, _. split; [done|]. split; [done|].
  split; [reflexivity|]. split.
  - intros t Htr Hrange. unfold analog_digits. fold vdivlog.
    unfold INT_MAX in Hrange.
    rewrite (int_of_float_trunc _ t Htr) by (unfold INT_MIN, INT_MAX; lia).
    rewrite (to_int_small (- t)) by (unfold INT_MIN, INT_MAX; lia).
    apply to_int_small. unfold INT_MIN, INT_MAX.
    destruct (float_ltb_0 vdivlog); simpl; lia.
  - intros other.
    destruct (receive_block_step other ch sdi d Hp Hnf Hba Hcal)
      as (sdi'' & d'' & p & l' & Hrun' & _ & Hpacket & Hs' & _).
    unfold chunk_packet in Hpacket.
    rewrite Ht, Hvref, Hvinc, Hvor in Hpacket. injection Hpacket as <-.
    by eexists sdi'', _.
Qed.

(** C9, as the specification words it, fails at [log10f (0.5f)]: the code
    answers 1 digit, the rule with the floor answers 2. *)
Lemma digits_by_floor_differs :
  analog_digits log10f_of_half = 1 /\
  digits_by_floor log10f_of_half = Some 2 /\
  digits_by_floor log10f_of_half <> Some (analog_digits log10f_of_half).
Proof. split; [reflexivity|]. split; [reflexivity|]. vm_compute. discriminate. Qed.

(** ** The capture state machine *)

Section Capture.

Variable log10f : float32 -> float32.

(** ** Transport errors *)

Lemma receive_run (fd revents : Z) sdi devc :
  revents = G_IO_IN \/ revents = 0 ->
  priv sdi = Some devc ->
  keysight_receive log10f fd revents (Some sdi) =
    match receive_dispatch log10f sdi with
    | Some (r, sdi') => Some (r, Some sdi')
    | None => None
    end.
Proof.
  intros Hev Hp. unfold keysight_receive. rewrite Hp.
  by destruct Hev as [-> | ->].
Qed.

Lemma dispatch_reading sdi devc ch rest :
  priv sdi = Some devc ->
  state devc = STATE_READING_DATA ->
  channel_entry devc = ch :: rest ->
  receive_dispatch log10f sdi =
    body (receive_header;;; receive_block log10f ch;;; receive_sequence) sdi.
Proof.
  intros Hp Hst Hce. unfold receive_dispatch, receive_reading, body.
  unfold_prims. by rewrite Hp, Hst, Hp, Hce.
Qed.

(** C6. A transport read error while payload bytes of a block remain unread
    (the block is in progress, or its header has just been decoded by the same
    call): the call sends exactly one frame end, stops the acquisition, leaves
    the state idle, and makes no transport call other than the failed read;
    every later call of the callback is without effect, so that nothing more
    is processed for that frame. *)
Theorem read_error_aborts_capture (fd revents : Z) sdi devc ch rest sdi1 devc1 :
  revents = G_IO_IN \/ revents = 0 ->
  priv sdi = Some devc ->
  state devc = STATE_READING_DATA ->
  channel_entry devc = ch :: rest ->
  receive_header sdi = Some (None, sdi1) ->
  priv sdi1 = Some devc1 ->
  head (ready (conn sdi1)) = Some Failure ->
  exists sdi' req,
    keysight_receive log10f fd revents (Some sdi) = Some (TRUE, Some sdi') /\
    session sdi' =
      session sdi ++ [Session_send SR_DF_FRAME_END; Acquisition_stop] /\
    priv sdi' = Some (set_state STATE_IDLE devc1) /\
    calls (conn sdi') = calls (conn sdi1) ++ [Scpi_read_data req] /\
    rx (conn sdi') = rx (conn sdi1) /\
    forall fd' revents',
      keysight_receive log10f fd' revents' (Some sdi') = Some (TRUE, Some sdi').
Proof.
  intros Hev Hp Hst Hce Hhdr Hp1 Hfail.
  pose proof (receive_header_through _ _ Hhdr) as Hs.
  rewrite (receive_run _ _ _ _ Hev Hp), (dispatch_reading _ _ _ _ Hp Hst Hce).
  rewrite (body_through _ _ _ _ Hhdr). rewrite <- Hs. clear Hhdr Hs Hp Hst Hce.
  unfold receive_block, sr_scpi_read_data, body. unfold_prims.
  explode sdi1. destruct ready0 as [|[k|] rs]; simplify_eq/=.
  do 2 eexists. split; [reflexivity|]. simpl.
  rewrite <- app_assoc.
  split; [reflexivity|]. split; [reflexivity|]. split; [reflexivity|].
  split; [reflexivity|].
  intros fd' revents'. by eapply receive_idle.
Qed.



(** ** Failures of the channel setup *)

(** C7. The instrument rejects the first command of the channel setup while
    the machine is digitizing: the callback returns TRUE with the state still
    [STATE_DIGITIZING]; no frame end is sent and the acquisition is not
    stopped. *)
Theorem channel_start_failure_not_aborted :
  observe (fun sdi => (state_of sdi, session sdi, calls (conn sdi)))
    (keysight_receive log10f 0 G_IO_IN (Some rejected_setup))
  = Some (TRUE,
          Some (Some STATE_DIGITIZING, [], [Scpi_send (WAV_SOUR_CHAN 1)])).
Proof. vm_compute. reflexivity. Qed.

(** ** The frame limit *)

(** C1. Scenario 2 with frame limit 2, from the first readiness event after
    the capture has been started (the frame begin of the first frame is sent
    by the caller that starts the acquisition): after the second frame end
    the machine is not left idle.  A third capture is triggered, a frame
    begin follows the second frame end, and the data of a third frame is read
    and sent. *)
Theorem frame_limit_not_enforced :
  observe_events
    (fun sdi => (limit_frames <$> priv sdi, num_frames <$> priv sdi,
                 state_of sdi, filter is_frame_boundary (session sdi),
                 last (calls (conn sdi)), last (log sdi)))
    (receive_events log10f 8 G_IO_IN (Some scenario2))
  = Some (Some 2, Some 2, Some STATE_DIGITIZING,
          [Session_send SR_DF_FRAME_END; Session_send SR_DF_FRAME_BEGIN;
           Session_send SR_DF_FRAME_END; Session_send SR_DF_FRAME_BEGIN],
          Some (Scpi_send DIGITIZE_OPC), Some (Dbg_capture_start 3 2)) /\
  observe_events
    (fun sdi => (num_frames <$> priv sdi,
                 length (filter is_frame_boundary (session sdi))))
    (receive_events log10f 12 G_IO_IN (Some scenario2))
  = Some (Some 3, 6%nat).
Proof. split; vm_compute; reflexivity. Qed.

(** ** A block without payload *)

(** While the header in the stream declares the length 0, a call of the
    callback leaves the machine where it was, waiting for a header. *)
Lemma receive_header_pending w sdi d n ch rest :
  priv sdi = Some d ->
  num_block_bytes d = 0 ->
  state d = STATE_READING_DATA ->
  channel_entry d = ch :: rest ->
  header_buffered w sdi n ->
  (n <= header_size w <= length w)%nat ->
  Forall (fun ev => ev <> Failure) (ready (conn sdi)) ->
  header_verdict w = 0 ->
  exists sdi' d' n',
    keysight_receive log10f 0 G_IO_IN (Some sdi) = Some (TRUE, Some sdi') /\
    priv sdi' = Some d' /\
    num_block_bytes d' = 0 /\
    state d' = STATE_READING_DATA /\
    channel_entry d' = ch :: rest /\
    header_buffered w sdi' n' /\
    (n' <= header_size w)%nat /\
    Forall (fun ev => ev <> Failure) (ready (conn sdi')) /\
    unchanged sdi sdi'.
Proof.
  intros Hp Hnbb Hst Hce Hinv Hn Hev Hv.
  destruct (receive_header_call w sdi d n Hp Hnbb Hst Hinv Hn Hev)
    as (res & sdi1 & n' & Hrun & Hinv1 & Hn' & Hev1 & _ & _ & Hcases).
  destruct Hcases as ((-> & Hun) & _); [by rewrite Hv; case_match|].
  pose proof Hinv1 as (d1 & Hp1 & _).
  pose proof Hun as (_ & Hst1 & Hce1 & Hbb1 & _).
  rewrite Hp, Hp1 in Hst1, Hce1, Hbb1. simpl in Hst1, Hce1, Hbb1.
  injection Hst1 as Hst1. injection Hce1 as Hce1. injection Hbb1 as Hbb1.
  exists sdi1, d1, n'.
  rewrite (receive_run _ _ _ _ (or_introl eq_refl) Hp).
  rewrite (dispatch_reading _ _ _ _ Hp Hst Hce).
  rewrite (body_return _ _ _ _ _ Hrun).
  split; [done|]. split; [done|]. split; [congruence|]. split; [congruence|].
  split; [congruence|]. split; [done|]. split; [lia|]. by split.
Qed.

Lemma receive_events_pending w k sdi d n ch rest :
  priv sdi = Some d ->
  num_block_bytes d = 0 ->
  state d = STATE_READING_DATA ->
  channel_entry d = ch :: rest ->
  header_buffered w sdi n ->
  (n <= header_size w <= length w)%nat ->
  Forall (fun ev => ev <> Failure) (ready (conn sdi)) ->
  header_verdict w = 0 ->
  exists sdi',
    receive_events log10f k G_IO_IN (Some sdi) = Some (Some sdi') /\
    unchanged sdi sdi'.
Proof.
  revert sdi d n.
  induction k as [|k IH]; intros sdi d n Hp Hnbb Hst Hce Hinv Hn Hev Hv.
  { exists sdi. split; [done|]. apply unchanged_refl. }
  destruct (receive_header_pending w sdi d n ch rest Hp Hnbb Hst Hce Hinv Hn
              Hev Hv)
    as (sdi1 & d1 & n1 & Hrun & Hp1 & Hnbb1 & Hst1 & Hce1 & Hinv1 & Hn1 & Hev1
        & Hun1).
  destruct (IH sdi1 d1 n1 Hp1 Hnbb1 Hst1 Hce1 Hinv1 ltac:(lia) Hev1 Hv)
    as (sdi' & Hrun' & Hun').
  exists sdi'. simpl. rewrite Hrun. split; [done|].
  by eapply unchanged_trans.
Qed.

End Capture.

(** On the block "#10", whatever the number of readiness events, the machine
    keeps waiting for a header and has reported no block as complete. *)
Lemma zero_length_block_pending k :
  exists sdi',
    receive_events log10f_at_one k G_IO_IN (Some zero_length)
      = Some (Some sdi') /\
    (Dbg_block_completed ∉ log sdi') /\
    state_of sdi' = Some STATE_READING_DATA /\
    (num_block_bytes <$> priv sdi') = Some 0.
Proof.
  destruct (receive_events_pending log10f_at_one [35; 49; 48; 10] k zero_length
              (fresh_context [CH1] 0 STATE_READING_DATA) 0 CH1 [])
    as (sdi' & Hrun & Hs & Hst & _ & Hbb & _ & Hlog); try done.
  - eapply header_buffered_initial;
      [reflexivity..|vm_compute; reflexivity|reflexivity].
  - simpl. lia.
  - unfold zero_length, awaiting, instrument, device. simpl.
    by repeat constructor.
  - exists sdi'. split; [done|]. split; [|by split].
    intros Hin%Hlog. by apply elem_of_nil in Hin.
Qed.

(** C5 fails for the declared length 0: on the block "#10" the bytes read, 0,
    add up to the declared length from the start, and yet no number of
    readiness events makes the callback report the block as complete. *)
Lemma zero_length_block_never_completes :
  ~ exists k sdi',
      receive_events log10f_at_one k G_IO_IN (Some zero_length)
        = Some (Some sdi') /\
      Dbg_block_completed ∈ log sdi'.
Proof.
  intros (k & sdi' & Hrun & Hin).
  destruct (zero_length_block_pending k) as (sdi'' & Hrun' & Hnot & _).
  rewrite Hrun in Hrun'. injection Hrun' as <-. by destruct Hnot.
Qed.

(** ** Instances on the example captures *)

Lemma read_error_aborts_capture_witness :
  exists sdi' req,
    keysight_receive log10f_at_one 0 G_IO_IN (Some scenario3)
      = Some (TRUE, Some sdi') /\
    session sdi' =
      session scenario3 ++ [Session_send SR_DF_FRAME_END; Acquisition_stop] /\
    priv sdi' = Some (set_state STATE_IDLE scenario3_context) /\
    calls (conn sdi') = calls (conn scenario3) ++ [Scpi_read_data req] /\
    rx (conn sdi') = rx (conn scenario3) /\
    forall fd' revents',
      keysight_receive log10f_at_one fd' revents' (Some sdi')
        = Some (TRUE, Some sdi').
Proof.
  apply (read_error_aborts_capture log10f_at_one 0 G_IO_IN scenario3
           scenario3_context CH1 [] scenario3 scenario3_context).
  - by left.
  - reflexivity.
  - reflexivity.
  - reflexivity.
  - reflexivity.
  - reflexivity.
  - reflexivity.
Defined.

Lemma receive_ignores_event_witness :
  keysight_receive log10f_at_one 0 G_IO_IN (Some idle_device)
    = Some (TRUE, Some idle_device).
Proof.
  apply (receive_ignores_event log10f_at_one 0 G_IO_IN (Some idle_device)).
  right; right; right.
  exists idle_device, (fresh_context [CH1] 0 STATE_IDLE).
  split; [reflexivity|]. split; reflexivity.
Defined.

Lemma logic_chunk_passthrough_witness :
  let chunk := [128; 129; 130; 127] in
  exists sdi',
    receive_block log10f_at_one D0 (in_block D0 [Ready 16])
      = Some (None, sdi') /\
    session sdi' =
      session (in_block D0 [Ready 16])
      ++ [Session_send (SR_DF_LOGIC (Z.of_nat (length chunk)) 1 chunk)] /\
    exists rest, rx (conn (in_block D0 [Ready 16])) = chunk ++ rest.
Proof.
  apply (logic_chunk_passthrough log10f_at_one D0 (in_block D0 [Ready 16])
           (block_context D0)).
  - reflexivity.
  - reflexivity.
  - simpl. discriminate.
  - split; vm_compute; [reflexivity | discriminate].
Defined.

Lemma analog_chunk_conversion_witness :
  let sdi := scaled_block [Ready 2; Ready 16] in
  let chunk := [128; 129] in
  exists sdi' d' digits samples,
    receive_block log10f_at_one CH1 sdi = Some (None, sdi') /\
    priv sdi' = Some d' /\
    session sdi' =
      session sdi
      ++ [Session_send
            (SR_DF_ANALOG CH1 digits (Z.of_nat (length chunk)) samples)] /\
    length samples = length chunk /\
    (forall i raw,
       chunk !! i = Some raw ->
       samples !! i = Some (sample_value raw 128 f32_half f32_quarter)) /\
    vert_reference d' = vert_reference scaled_context /\
    vert_inc d' = vert_inc scaled_context /\
    vert_origin d' = vert_origin scaled_context /\
    vert_offset d' = vert_offset scaled_context.
Proof.
  apply (analog_chunk_conversion log10f_at_one CH1
           (scaled_block [Ready 2; Ready 16]) scaled_context
           128 f32_quarter f32_half f32_zero).
  - reflexivity.
  - reflexivity.
  - reflexivity.
  - reflexivity.
  - reflexivity.
  - reflexivity.
  - simpl. discriminate.
  - split; vm_compute; [reflexivity | discriminate].
  - vm_compute. split; discriminate.
  - repeat (apply Forall_cons; split; [vm_compute; split; discriminate|]).
    constructor.
Defined.

Lemma block_reader_chunks_witness :
  let sdi := in_block CH1 [Ready 2; Ready 16] in
  let d := block_context CH1 in
  let cks := block_chunks 4 0 [Ready 2; Ready 16] [128; 129; 130; 127; 10] 2 in
  let total := Z.of_nat (length (concat cks)) in
  exists sdi' d' l,
    read_block log10f_at_one CH1 2 sdi = Some (None, sdi') /\
    priv sdi' = Some d' /\
    log sdi' = log sdi ++ l /\
    requests_exact 4 0 l /\
    (Dbg_block_completed ∈ l <-> 0 + received_total l = 4) /\
    0 + received_total l <= 4 /\
    (0 + received_total l < 4 ->
     num_block_bytes d' = 4 /\ num_block_read d' = 0 + received_total l /\
     length cks = 2%nat) /\
    received_total l = total /\
    calls (conn sdi') =
      calls (conn sdi) ++ block_reads 4 0 cks
      ++ (if 0 + total =? 4 then [Scpi_read_data 1; Scpi_read_complete]
          else []) /\
    (exists k,
       (k <= 1)%nat /\ (0 + total < 4 -> k = 0%nat) /\
       rx (conn sdi') = drop (length (concat cks) + k) (rx (conn sdi))) /\
    (exists ps,
       session sdi' = session sdi ++ (Session_send <$> ps) /\
       Forall2 (fun c p => chunk_packet log10f_at_one CH1 d c = Some p)
         cks ps).
Proof.
  apply (block_reader_chunks log10f_at_one 2 CH1
           (in_block CH1 [Ready 2; Ready 16]) (block_context CH1)).
  - reflexivity.
  - simpl. lia.
  - vm_compute. discriminate.
  - split; vm_compute; [reflexivity | discriminate].
  - intros _. simpl. repeat split; eexists; reflexivity.
  - simpl. repeat constructor; discriminate.
Defined.

Lemma analog_digits_truncation_witness :
  let sdi := in_block CH1 [Ready 2; Ready 16] in
  let vdivlog := log10f_at_one (f32_of_f64 (f64_of_f32 f32_one)) in
  exists sdi' digits n samples,
    receive_block log10f_at_one CH1 sdi = Some (None, sdi') /\
    session sdi' =
      session sdi ++ [Session_send (SR_DF_ANALOG CH1 digits n samples)] /\
    digits = analog_digits vdivlog /\
    (forall t,
       float_trunc vdivlog = Some t -> - INT_MAX < t <= INT_MAX ->
       digits = - t + Z_of_bool (float_ltb_0 vdivlog)) /\
    forall other_log10f : float32 -> float32,
      exists sdi'' digits',
        receive_block other_log10f CH1 sdi = Some (None, sdi'') /\
        session sdi'' =
          session sdi ++ [Session_send (SR_DF_ANALOG CH1 digits' n samples)].
Proof.
  apply (analog_digits_truncation log10f_at_one CH1
           (in_block CH1 [Ready 2; Ready 16]) (block_context CH1)
           0 f32_one f32_zero f32_zero).
  - reflexivity.
  - reflexivity.
  - reflexivity.
  - reflexivity.
  - reflexivity.
  - reflexivity.
  - simpl. discriminate.
  - split; vm_compute; [reflexivity | discriminate].
Defined.

Lemma header_length_whatever_the_split_witness :
  exists sdi',
    await_header 17 scenario1 = Some (Header_decoded 1400, sdi') /\
    (num_block_bytes <$> priv sdi') = Some 1400 /\
    (num_block_read <$> priv sdi') = Some 0 /\
    rx (conn sdi') = replicate 1400 7 ++ [10] /\
    session sdi' = session scenario1 /\
    state_of sdi' = Some STATE_READING_DATA.
Proof.
  apply (header_length_whatever_the_split scenario1_length
           (replicate 1400 7 ++ [10]) 17 scenario1
           (fresh_context [CH1] 0 STATE_READING_DATA)).
  - vm_compute. lia.
  - repeat constructor.
  - vm_compute. discriminate.
  - reflexivity.
  - reflexivity.
  - reflexivity.
  - reflexivity.
  - vm_compute. reflexivity.
  - reflexivity.
  - simpl. repeat constructor; discriminate.
  - vm_compute. lia.
  - vm_compute. lia.
Defined.

Lemma malformed_header_aborts_witness :
  (exists sdi',
     await_header 9 letter_in_length = Some (Header_aborted, sdi') /\
     session sdi' =
       session letter_in_length
       ++ [Session_send SR_DF_FRAME_END; Acquisition_stop] /\
     state_of sdi' = Some STATE_IDLE) /\
  (forall ds, ds <> [] -> Forall (fun c => isdigit c = true) ds ->
              INT_MAX < decimal ds -> parsed ds = None).
Proof.
  apply (malformed_header_aborts 35 50 [97; 53; 1; 2; 3; 4; 5; 10] 9
           letter_in_length (fresh_context [CH1] 0 STATE_READING_DATA)).
  - right; right; right. simpl.
    intros (ws & sg & ds & Heq & Hws & Hsg & Hne & Hds).
    destruct ws as [|c ws].
    + destruct Hsg as [->|[->| ->]]; simpl in Heq; [|discriminate..].
      subst ds. inversion Hds as [|? ? Hc]. discriminate.
    + injection Heq as <- _. inversion Hws as [|? ? Hc]. discriminate.
  - reflexivity.
  - reflexivity.
  - reflexivity.
  - reflexivity.
  - vm_compute. reflexivity.
  - reflexivity.
  - vm_compute. lia.
  - simpl. repeat constructor; discriminate.
  - vm_compute. lia.
  - vm_compute. lia.
Defined.

(** * Further properties of the driver *)

(** ** [parse_int] *)

Lemma skip_spaces_app ws s :
  Forall (fun c => isspace c = true) ws ->
  match s with c :: _ => isspace c = false | [] => True end ->
  skip_spaces (ws ++ s) = s.
Proof.
  intros Hws Hs. induction Hws as [|c ws Hc _ IH]; simpl.
  - destruct s as [|c s]; [done|]. simpl. by rewrite Hs.
  - by rewrite Hc.
Qed.

Lemma isdigit_not_space c : isdigit c = true -> isspace c = false.
Proof. unfold isdigit, isspace. lia. Qed.

(** [strtol] on white space, an optional sign and decimal digits: the whole
    string is converted, and the value is clamped to the range of [long]. *)
Lemma strtol_syntactic ws sg ds :
  Forall (fun c => isspace c = true) ws ->
  sg = [] \/ sg = [PLUS] \/ sg = [MINUS] ->
  ds <> [] ->
  Forall (fun c => isdigit c = true) ds ->
  strtol (ws ++ sg ++ ds) =
    let v := signed_value sg ds in
    let e := length (ws ++ sg ++ ds) in
    if LONG_MAX <? v then (LONG_MAX, e, true)
    else if v <? LONG_MIN then (LONG_MIN, e, true)
    else (v, e, false).
Proof.
  intros Hws Hsg Hne Hds. unfold strtol.
  destruct ds as [|c ds]; [done|].
  assert (48 <= c <= 57) as Hc.
  { apply isdigit_range. by apply Forall_cons in Hds as [? _]. }
  rewrite skip_spaces_app; [|done|].
  2:{ destruct Hsg as [->|[->| ->]]; simpl; [|done..].
      apply isdigit_not_space, isdigit_range, Hc. }
  assert (match sg ++ c :: ds with
          | c0 :: s' =>
              if c0 =? MINUS then (true, s')
              else if c0 =? PLUS then (false, s') else (false, sg ++ c :: ds)
          | [] => (false, sg ++ c :: ds)
          end = (bool_decide (sg = [MINUS]), c :: ds)) as ->.
  { destruct Hsg as [->|[->| ->]]; simpl; [|done..].
    unfold MINUS, PLUS.
    destruct (Z.eqb_spec c 45); [lia|]. by destruct (Z.eqb_spec c 43); [lia|]. }
  rewrite (read_digits_all (c :: ds) 0 0 Hds). fold (decimal (c :: ds)).
  cbn [length Nat.add]. rewrite Nat.sub_0_r. unfold signed_value.
  by destruct (bool_decide (sg = [MINUS])).
Qed.

(** X1. [parse_int] reads back every number of the range of [int] that is
    written in decimal, after optional white space and an optional sign: it
    returns [SR_OK], stores the number through its result pointer and leaves
    the device instance alone. *)
Theorem parse_int_reads_decimal ws sg ds sdi :
  Forall (fun c => isspace c = true) ws ->
  sg = [] \/ sg = [PLUS] \/ sg = [MINUS] ->
  ds <> [] ->
  Forall (fun c => isdigit c = true) ds ->
  INT_MIN <= signed_value sg ds <= INT_MAX ->
  parse_int (ws ++ sg ++ ds) sdi
    = Some ((SR_OK, Some (signed_value sg ds)), sdi).
Proof.
  intros Hws Hsg Hne Hds Hv. unfold parse_int.
  rewrite strtol_syntactic by done. cbv zeta.
  unfold INT_MIN, INT_MAX, LONG_MAX, LONG_MIN in *.
  set (v := signed_value sg ds) in *.
  destruct (Z.ltb_spec 9223372036854775807 v); [lia|].
  destruct (Z.ltb_spec v (-9223372036854775808)); [lia|].
  assert (length (ws ++ sg ++ ds) <> 0%nat) as Hlen.
  { rewrite !length_app. destruct ds; [done|]. simpl. lia. }
  destruct (Nat.eqb_spec (length (ws ++ sg ++ ds)) 0); [done|].
  rewrite Nat.ltb_irrefl. simpl.
  destruct (Z.ltb_spec 2147483647 v); [lia|].
  destruct (Z.ltb_spec v (-2147483648)); [lia|]. simpl.
  rewrite to_int_small; [done|]. unfold INT_MIN, INT_MAX. lia.
Qed.

(** What [strtol] converts in full has the syntax of a number. *)
Lemma strtol_whole_syntax str tmp e errno :
  strtol str = (tmp, e, errno) ->
  e <> 0%nat -> (length str <= e)%nat ->
  strtol_syntax str.
Proof.
  unfold strtol.
  destruct (skip_spaces_split str) as (ws & Hs & Hws).
  set (s1 := skip_spaces str) in *.
  set (p := match s1 with
            | c :: s' => if c =? MINUS then (true, s')
                         else if c =? PLUS then (false, s') else (false, s1)
            | [] => (false, s1)
            end).
  assert (exists sg, s1 = sg ++ p.2
                     /\ (sg = [] \/ sg = [PLUS] \/ sg = [MINUS]))
    as (sg & Hs1 & Hsg).
  { unfold p. destruct s1 as [|c s']; [by exists []; auto|].
    destruct (Z.eqb_spec c MINUS) as [->|]; [exists [MINUS]; by auto|].
    destruct (Z.eqb_spec c PLUS) as [->|]; [exists [PLUS]; by auto|].
    exists []. by auto. }
  destruct p as [neg s2]. simpl in Hs1.
  destruct (read_digits s2 0 0) as [[mag nd] rest] eqn:Hrd.
  apply read_digits_split in Hrd as (ds & Hs2 & Hds & Hnd). simpl in Hnd.
  destruct nd as [|nd]; [by intros [= _ <- _]|].
  assert (ds <> []) as Hne by (intros ->; simpl in Hnd; lia).
  assert (length str = length ws + length sg + length ds + length rest)%nat
    as Hlen by (rewrite Hs, Hs1, Hs2, !length_app; lia).
  intros Hrun He Hle.
  assert (e = (length str - length rest)%nat) as ->.
  { destruct (LONG_MAX <? _); [by injection Hrun|].
    by destruct (_ <? LONG_MIN); injection Hrun. }
  assert (rest = []) as ->.
  { destruct rest; [done|]. destruct ds; [done|]. simpl in *. lia. }
  exists ws, sg, ds. rewrite app_nil_r in Hs2. subst s2.
  split; [by rewrite Hs at 1; rewrite Hs1|]. done.
Qed.

(** X2. [parse_int] rejects every string that is not white space, an optional
    sign and at least one decimal digit (the empty string among them) with
    the message of a failed conversion: it returns [SR_ERR], leaves the
    result pointer unwritten and does nothing else than logging the
    message. *)
Theorem parse_int_rejects_syntax str sdi :
  ~ strtol_syntax str ->
  parse_int str sdi
    = Some ((SR_ERR, None),
            sr_dev_inst_log sdi (log sdi ++ [Dbg_parse_failed])).
Proof.
  intros Hsyn. unfold parse_int.
  destruct (strtol str) as [[tmp e] errno] eqn:Hrun.
  destruct (Nat.eqb_spec e 0) as [He|He]; [done|].
  destruct (Nat.ltb_spec e (length str)) as [Hlt|Hge]; [done|].
  destruct Hsyn. by eapply strtol_whole_syntax.
Qed.

(** X3. [parse_int] rejects every number that does not fit an [int], with
    the message of an overflow when it is outside the range of [long] and of
    a value too large or small otherwise; again nothing is stored and
    nothing else changes. *)
Theorem parse_int_rejects_range ws sg ds sdi :
  Forall (fun c => isspace c = true) ws ->
  sg = [] \/ sg = [PLUS] \/ sg = [MINUS] ->
  ds <> [] ->
  Forall (fun c => isdigit c = true) ds ->
  ~ (INT_MIN <= signed_value sg ds <= INT_MAX) ->
  parse_int (ws ++ sg ++ ds) sdi
    = Some ((SR_ERR, None),
            sr_dev_inst_log sdi
              (log sdi ++ [range_message (signed_value sg ds)])).
Proof.
  intros Hws Hsg Hne Hds Hv. unfold parse_int, range_message.
  rewrite strtol_syntactic by done. cbv zeta.
  assert (length (ws ++ sg ++ ds) <> 0%nat) as Hlen.
  { rewrite !length_app. destruct ds; [done|]. simpl. lia. }
  unfold INT_MIN, INT_MAX, LONG_MAX, LONG_MIN in *.
  set (v := signed_value sg ds) in *.
  destruct (Z.ltb_spec 9223372036854775807 v).
  { destruct (Nat.eqb_spec (length (ws ++ sg ++ ds)) 0); [done|].
    by rewrite Nat.ltb_irrefl. }
  destruct (Z.ltb_spec v (-9223372036854775808)).
  { destruct (Nat.eqb_spec (length (ws ++ sg ++ ds)) 0); [done|].
    by rewrite Nat.ltb_irrefl. }
  destruct (Nat.eqb_spec (length (ws ++ sg ++ ds)) 0); [done|].
  rewrite Nat.ltb_irrefl. simpl.
  destruct (Z.ltb_spec 2147483647 v); [done|].
  destruct (Z.ltb_spec v (-2147483648)); [done|]. lia.
Qed.

(** ** Rules for the specifications of runs *)

Lemma hoare_conseq {A} (P P' : sr_dev_inst -> Prop) (m : M A)
    (Q Q' : A -> sr_dev_inst -> Prop) :
  hoare P' m Q' ->
  (forall sdi, P sdi -> P' sdi) ->
  (forall a sdi, Q' a sdi -> Q a sdi) ->
  hoare P m Q.
Proof.
  intros Hm HP HQ sdi Hsdi.
  destruct (Hm sdi (HP _ Hsdi)) as (a & sdi' & Hrun & Ha). by eauto.
Qed.

Lemma hoare_ret {A} (P : sr_dev_inst -> Prop) (a : A)
    (Q : A -> sr_dev_inst -> Prop) :
  (forall sdi, P sdi -> Q a sdi) -> hoare P (mret a) Q.
Proof. intros HQ sdi Hsdi. exists a, sdi. by auto. Qed.

Lemma hoare_bind {A B} (P : sr_dev_inst -> Prop) (m : M A) (f : A -> M B)
    (Q : A -> sr_dev_inst -> Prop) (R : B -> sr_dev_inst -> Prop) :
  hoare P m Q ->
  (forall a, hoare (Q a) (f a) R) ->
  hoare P (m ≫= f) R.
Proof.
  intros Hm Hf sdi Hsdi.
  destruct (Hm sdi Hsdi) as (a & sdi1 & Hrun & Ha).
  destruct (Hf a sdi1 Ha) as (b & sdi' & Hrun' & Hb).
  exists b, sdi'. by rewrite (bind_run _ _ _ _ _ Hrun).
Qed.

(** A precondition may carry facts that do not depend on the state. *)
Lemma hoare_assume {A} (P : sr_dev_inst -> Prop) (F : Prop) (m : M A)
    (Q : A -> sr_dev_inst -> Prop) :
  (F -> hoare P m Q) -> hoare (fun sdi => F /\ P sdi) m Q.
Proof. intros Hm sdi [HF Hsdi]. by apply Hm. Qed.

Lemma hoare_seq (P : sr_dev_inst -> Prop) (s k : stmt)
    (Q R : option Z -> sr_dev_inst -> Prop) :
  hoare P s Q ->
  hoare (Q None) k R ->
  (forall v sdi, Q (Some v) sdi -> R (Some v) sdi) ->
  hoare P (s ;;; k) R.
Proof.
  intros Hs Hk Hret. unfold seq. eapply hoare_bind; [exact Hs|].
  intros [v|]; [|done]. apply hoare_ret. by auto.
Qed.

Lemma hoare_exec (P : sr_dev_inst -> Prop) (m : M unit)
    (Q : option Z -> sr_dev_inst -> Prop) :
  hoare P m (fun _ => Q None) -> hoare P (exec m) Q.
Proof.
  intros Hm. unfold exec. eapply hoare_bind; [exact Hm|].
  intros []. by apply hoare_ret.
Qed.

Lemma hoare_body (P : sr_dev_inst -> Prop) (s : stmt)
    (Q : Z -> sr_dev_inst -> Prop) :
  hoare P s (fun o sdi => match o with Some v => Q v sdi | None => False end) ->
  hoare P (body s) Q.
Proof.
  intros Hs. unfold body. eapply hoare_bind; [exact Hs|].
  intros [v|]; [by apply hoare_ret|]. by intros sdi [].
Qed.

Lemma hoare_get_devc (P : sr_dev_inst -> Prop)
    (Q : dev_context -> sr_dev_inst -> Prop) :
  (forall sdi, P sdi -> exists d, priv sdi = Some d /\ Q d sdi) ->
  hoare P get_devc Q.
Proof.
  intros HQ sdi Hsdi. destruct (HQ sdi Hsdi) as (d & Hp & Hd).
  exists d, sdi. by rewrite (get_devc_run _ _ Hp).
Qed.

Lemma hoare_modify (P : sr_dev_inst -> Prop) (f : dev_context -> dev_context)
    (Q : unit -> sr_dev_inst -> Prop) :
  (forall sdi, P sdi ->
     exists d, priv sdi = Some d /\ Q tt (with_context (f d) sdi)) ->
  hoare P (modify_devc f) Q.
Proof.
  intros HQ sdi Hsdi. destruct (HQ sdi Hsdi) as (d & Hp & Hd).
  exists tt, (with_context (f d) sdi). unfold modify_devc. by rewrite Hp.
Qed.

Lemma hoare_log (P : sr_dev_inst -> Prop) (m : log_msg)
    (Q : unit -> sr_dev_inst -> Prop) :
  (forall sdi, P sdi -> Q tt (sr_dev_inst_log sdi (log sdi ++ [m]))) ->
  hoare P (sr_log m) Q.
Proof.
  intros HQ sdi Hsdi. exists tt, (sr_dev_inst_log sdi (log sdi ++ [m])).
  by auto.
Qed.

Lemma hoare_lift {A} (P : sr_dev_inst -> Prop) (o : option A)
    (Q : A -> sr_dev_inst -> Prop) :
  (forall sdi, P sdi -> exists a, o = Some a /\ Q a sdi) ->
  hoare P (lift o) Q.
Proof.
  intros HQ sdi Hsdi. destruct (HQ sdi Hsdi) as (a & Ho & Ha).
  exists a, sdi. by rewrite Ho.
Qed.

Lemma hoare_exchange (P : sr_dev_inst -> Prop) (c : scpi_call)
    (Q : scpi_reply -> sr_dev_inst -> Prop) :
  (forall sdi, P sdi ->
     Q (hd Reply_err (replies (conn sdi))) (answered [c] sdi)) ->
  hoare P (scpi_exchange c) Q.
Proof.
  intros HQ sdi Hsdi.
  exists (hd Reply_err (replies (conn sdi))), (answered [c] sdi).
  split; [|by apply HQ]. unfold scpi_exchange, answered. unfold_prims.
  by destruct (replies (conn sdi)).
Qed.

(** ** Rules for invariants *)

Section Safe.

Context (I : sr_dev_inst -> Prop) `{!Invariant I}.

Lemma safe_conseq {A} (m : M A) (V V' : A -> Prop) :
  safe I m V -> (forall a, V a -> V' a) -> safe I m V'.
Proof.
  intros Hm HV. eapply hoare_conseq; [exact Hm|done|].
  intros a sdi [? ?]. by auto.
Qed.

Lemma safe_ret {A} (a : A) (V : A -> Prop) : V a -> safe I (mret a) V.
Proof. intros Ha. by apply hoare_ret. Qed.

Lemma safe_bind {A B} (m : M A) (f : A -> M B) (V : A -> Prop)
    (W : B -> Prop) :
  safe I m V -> (forall a, V a -> safe I (f a) W) -> safe I (m ≫= f) W.
Proof.
  intros Hm Hf. eapply hoare_bind; [exact Hm|].
  intros a sdi [Hsdi Ha]. by apply Hf.
Qed.

Lemma safe_then {A B} (m : M A) (k : M B) (V : A -> Prop) (W : B -> Prop) :
  safe I m V -> safe I k W -> safe I (m ≫= λ _, k) W.
Proof. intros Hm Hk. eapply safe_bind; [exact Hm|]. by intros _ _. Qed.

Lemma safe_seq (s k : stmt) (R : Z -> Prop) (W : option Z -> Prop) :
  safe I s (may_return R) ->
  safe I k W ->
  (forall v, R v -> W (Some v)) ->
  safe I (s ;;; k) W.
Proof.
  intros Hs Hk HR. unfold seq. eapply safe_bind; [exact Hs|].
  intros [v|] Hv; [|done]. apply safe_ret. by apply HR.
Qed.

Lemma safe_seq_return (s k : stmt) (R : Z -> Prop) (W : option Z -> Prop) :
  safe I s (must_return R) ->
  (forall v, R v -> W (Some v)) ->
  safe I (s ;;; k) W.
Proof.
  intros Hs HR. unfold seq. eapply safe_bind; [exact Hs|].
  intros [v|] Hv; [|done]. apply safe_ret. by apply HR.
Qed.

Lemma safe_exec (m : M unit) (V : unit -> Prop) (R : Z -> Prop) :
  safe I m V -> safe I (exec m) (may_return R).
Proof.
  intros Hm. unfold exec. eapply safe_bind; [exact Hm|].
  intros _ _. by apply safe_ret.
Qed.

Lemma safe_return (v : Z) (R : Z -> Prop) :
  R v -> safe I (return_ v) (must_return R).
Proof. intros Hv. by apply safe_ret. Qed.

Lemma safe_skip (R : Z -> Prop) : safe I skip (may_return R).
Proof. by apply safe_ret. Qed.

Lemma safe_must_may (s : stmt) (R : Z -> Prop) :
  safe I s (must_return R) -> safe I s (may_return R).
Proof. intros Hs. eapply safe_conseq; [exact Hs|]. by intros [v|]. Qed.

Lemma safe_body (s : stmt) (R : Z -> Prop) :
  safe I s (must_return R) -> safe I (body s) R.
Proof.
  intros Hs. unfold body. eapply safe_bind; [exact Hs|].
  intros [v|] Hv; [|done]. by apply safe_ret.
Qed.

Lemma safe_get_devc : safe I get_devc (context_of I).
Proof.
  intros sdi Hsdi. destruct (inv_context sdi Hsdi) as [d Hp].
  exists d, sdi. rewrite (get_devc_run _ _ Hp).
  split; [done|]. split; [done|]. by exists sdi.
Qed.

Lemma safe_modify (f : dev_context -> dev_context) :
  (forall sdi d, I sdi -> priv sdi = Some d -> I (with_context (f d) sdi)) ->
  safe I (modify_devc f) (fun _ => True).
Proof.
  intros Hf. apply hoare_modify. intros sdi Hsdi.
  destruct (inv_context sdi Hsdi) as [d Hp]. exists d. by auto.
Qed.

Lemma safe_log (m : log_msg) : safe I (sr_log m) (fun _ => True).
Proof.
  apply hoare_log. intros sdi Hsdi. split; [|done]. by apply inv_log.
Qed.

Lemma safe_lift {A} (o : option A) (V : A -> Prop) :
  (exists a, o = Some a /\ V a) -> safe I (lift o) V.
Proof.
  intros (a & Ho & Ha). apply hoare_lift. intros sdi Hsdi. by exists a.
Qed.

Lemma safe_exchange (c : scpi_call) : safe I (scpi_exchange c) (fun _ => True).
Proof.
  apply hoare_exchange. intros sdi Hsdi. split; [|done]. by apply inv_answered.
Qed.

Lemma safe_scpi_send (c : scpi_command) : safe I (sr_scpi_send c) (fun _ => True).
Proof.
  unfold sr_scpi_send. eapply safe_bind; [apply safe_exchange|].
  intros r _. by apply safe_ret.
Qed.

Lemma safe_scpi_get_opc : safe I sr_scpi_get_opc (fun _ => True).
Proof.
  unfold sr_scpi_get_opc. eapply safe_bind; [apply safe_exchange|].
  intros r _. by apply safe_ret.
Qed.

Lemma safe_scpi_read_begin : safe I sr_scpi_read_begin (fun _ => True).
Proof.
  unfold sr_scpi_read_begin. eapply safe_bind; [apply safe_exchange|].
  intros r _. by apply safe_ret.
Qed.

Lemma safe_scpi_read_complete : safe I sr_scpi_read_complete (fun _ => True).
Proof.
  unfold sr_scpi_read_complete. eapply safe_bind; [apply safe_exchange|].
  intros r _. by apply safe_ret.
Qed.

Lemma safe_scpi_get_float (c : scpi_command) :
  safe I (sr_scpi_get_float c) (fun _ => True).
Proof.
  unfold sr_scpi_get_float. eapply safe_bind; [apply safe_exchange|].
  intros r _. by apply safe_ret.
Qed.

Lemma safe_scpi_get_int (c : scpi_command) :
  safe I (sr_scpi_get_int c) (fun _ => True).
Proof.
  unfold sr_scpi_get_int. eapply safe_bind; [apply safe_exchange|].
  intros r _. by apply safe_ret.
Qed.

Lemma safe_config_set (c : scpi_command) :
  safe I (keysight_config_set c) (fun _ => True).
Proof.
  unfold keysight_config_set. eapply safe_bind; [apply safe_scpi_send|].
  intros r _. destruct (negb _); [by apply safe_ret|].
  apply safe_scpi_get_opc.
Qed.

Lemma safe_return_unless_ok (m : M Z) (V : Z -> Prop) (e : Z) (R : Z -> Prop) :
  safe I m V -> R e -> safe I (return_unless_ok m e) (may_return R).
Proof.
  intros Hm He. unfold return_unless_ok. eapply safe_bind; [exact Hm|].
  intros r _. destruct (negb _); [|apply safe_skip].
  by apply safe_must_may, safe_return.
Qed.

End Safe.

(** ** Well-formed device instances are kept so *)

Lemma context_ok_frame E d d' :
  context_ok E d ->
  enabled_channels d' = enabled_channels d ->
  channel_entry d' = channel_entry d ->
  buffers_allocated d' ->
  0 <= num_header_bytes d' ->
  length (vert_reference d') = length (vert_reference d) ->
  length (vert_inc d') = length (vert_inc d) ->
  length (vert_origin d') = length (vert_origin d) ->
  length (vert_offset d') = length (vert_offset d) ->
  context_ok E d'.
Proof.
  intros (HE & Hsuf & Hne & Hch & _ & Hnhb & Hr & Hi & Ho & Hf).
  intros He' Hc' Hb' Hn' Hr' Hi' Ho' Hf'.
  unfold context_ok. rewrite He', Hc', Hr', Hi', Ho', Hf'. done.
Qed.

#[global] Instance well_formed_invariant E : Invariant (well_formed E).
Proof.
  split.
  - intros sdi (d & Hp & _). by exists d.
  - intros sdi l (d & Hp & Hok). by exists d.
  - intros sdi cs (d & Hp & Hok). by exists d.
Qed.

Lemma well_formed_context E d : context_of (well_formed E) d -> context_ok E d.
Proof. intros (sdi & (d' & Hp' & Hok) & Hp). congruence. Qed.

(** A context that is well-formed has a current channel, one of the enabled
    channels. *)
Lemma context_ok_current E d :
  context_ok E d ->
  exists ch rest, channel_entry d = ch :: rest /\ ch ∈ E /\ channel_ok ch.
Proof.
  intros (_ & [k Hsuf] & Hne & Hall & _).
  destruct (channel_entry d) as [|ch rest]; [done|].
  assert (ch ∈ E) as Hch.
  { rewrite Hsuf. apply elem_of_app. right. apply list_elem_of_here. }
  exists ch, rest. split; [done|]. split; [done|].
  by apply (proj1 (Forall_forall _ _) Hall).
Qed.

Lemma safe_current_channel E I `{!Invariant I} :
  (forall sdi, I sdi -> well_formed E sdi) ->
  safe I current_channel (fun ch => ch ∈ E /\ channel_ok ch).
Proof.
  intros Hwf. unfold current_channel.
  eapply safe_bind; [apply safe_get_devc, _|].
  intros d (sdi & Hsdi%Hwf & Hp).
  assert (context_ok E d) as Hd.
  { apply well_formed_context. by exists sdi. }
  destruct (context_ok_current E d Hd) as (ch & rest & -> & Hch).
  by apply safe_ret.
Qed.

Lemma to_u64_nonneg z : 0 <= to_u64 z.
Proof. unfold to_u64. apply Z.mod_pos_bound. lia. Qed.

Ltac context_ok_frame Hd :=
  eapply context_ok_frame;
    [exact Hd|unfold buffers_allocated; simpl; rewrite ?length_insert..];
  try done; try apply to_u64_nonneg;
  destruct Hd as (? & ? & ? & ? & [? ?] & ? & ? & ? & ? & ?);
  try done; try lia.

Ltac context_ok_set :=
  let d := fresh "d" in let Hd := fresh "Hd" in
  intros d Hd; context_ok_frame Hd.

(** A typed query into an element of a calibration array. *)
Lemma safe_query_into E I `{!Invariant I} {A} (get : M (Z * option A))
    (arr : dev_context -> list A) (set : list A -> dev_context -> dev_context)
    (i : Z) (R : Z -> Prop) :
  (forall sdi, I sdi -> well_formed E sdi) ->
  safe I get (fun _ => True) ->
  0 <= i < MAX_ANALOG_CHANNELS ->
  (forall d, context_ok E d ->
             Z.of_nat (length (arr d)) = MAX_ANALOG_CHANNELS) ->
  (forall sdi d x, I sdi -> priv sdi = Some d ->
                   I (with_context (set (<[Z.to_nat i := x]> (arr d)) d) sdi)) ->
  R SR_ERR ->
  safe I (query_into get arr set i) (may_return R).
Proof.
  intros Hwf Hget Hi Harr Hset HR. unfold query_into.
  eapply safe_bind; [exact Hget|]. intros [r v] _.
  eapply safe_then with (V := fun _ => True).
  2:{ destruct (negb _); [by apply safe_must_may, safe_return|].
      apply safe_skip. }
  destruct v as [x|]; [|by apply safe_ret].
  intros sdi Hsdi. destruct (Hwf sdi Hsdi) as (d & Hp & Hd).
  specialize (Harr d Hd).
  exists tt, (with_context (set (<[Z.to_nat i := x]> (arr d)) d) sdi).
  split; [|by auto].
  rewrite (bind_run _ _ _ _ _ (get_devc_run _ _ Hp)).
  unfold array_set.
  destruct (Z.leb_spec 0 i); [|lia].
  destruct (Z.ltb_spec i (Z.of_nat (length (arr d)))); [|lia]. simpl.
  unfold lift, modify_devc, mbind, M_bind. by rewrite Hp.
Qed.

(** *** The phases of [keysight_channel_start] *)

Lemma safe_hoare_bind I {A B} (m : M A) (f : A -> M B) (V : A -> Prop)
    (Q : B -> sr_dev_inst -> Prop) :
  safe I m V -> (forall a, V a -> hoare I (f a) Q) -> hoare I (m ≫= f) Q.
Proof.
  intros Hm Hf. eapply hoare_bind; [exact Hm|].
  intros a sdi [Hsdi Ha]. by apply Hf.
Qed.

Lemma safe_hoare_seq I (s k : stmt) (R : Z -> Prop)
    (Q : option Z -> sr_dev_inst -> Prop) :
  safe I s (may_return R) ->
  hoare I k Q ->
  (forall v sdi, I sdi -> R v -> Q (Some v) sdi) ->
  hoare I (s ;;; k) Q.
Proof.
  intros Hs Hk HR. unfold seq. eapply safe_hoare_bind; [exact Hs|].
  intros [v|] Hv; [|done]. apply hoare_ret. intros sdi Hsdi. by apply HR.
Qed.

Lemma hoare_modify_seq I I' `{!Invariant I} (f : dev_context -> dev_context)
    (k : stmt) (Q : option Z -> sr_dev_inst -> Prop) :
  (forall sdi d, I sdi -> priv sdi = Some d -> I' (with_context (f d) sdi)) ->
  hoare I' k Q ->
  hoare I (exec (modify_devc f);;; k) Q.
Proof.
  intros Hf Hk. eapply hoare_seq with (Q := fun o sdi => o = None /\ I' sdi).
  - apply hoare_exec, hoare_modify. intros sdi Hsdi.
    destruct (inv_context sdi Hsdi) as [d Hp]. exists d. by auto.
  - eapply hoare_conseq; [exact Hk|by intros sdi [_ ?]|done].
  - by intros v sdi [? _].
Qed.

#[global] Instance setup_frame_invariant E d0 sdi0 k :
  Invariant (setup_frame E d0 sdi0 k).
Proof.
  split.
  - intros sdi (_ & _ & _ & d & Hp & _). by exists d.
  - intros sdi l (? & ? & ? & d & Hp & Hrest).
    do 3 (split; [done|]). by exists d.
  - intros sdi cs (? & ? & ? & d & Hp & Hrest).
    do 3 (split; [done|]). by exists d.
Qed.

Lemma setup_frame_well_formed E d0 sdi0 k sdi :
  setup_frame E d0 sdi0 k sdi -> well_formed E sdi.
Proof. intros (_ & _ & _ & d & Hp & Hd & _). by exists d. Qed.

Lemma setup_frame_start E sdi d :
  priv sdi = Some d -> context_ok E d -> setup_frame E d sdi 0 sdi.
Proof.
  intros Hp Hd. split; [done|]. split; [done|]. split; [done|].
  exists d. split; [done|]. split; [done|]. by repeat split.
Qed.

(** An update of the context, between two phases of the set-up. *)
Ltac setup_frame_set :=
  let sdi := fresh "sdi" in let d := fresh "d" in
  let H := fresh "H" in let Hp := fresh "Hp" in
  intros sdi d H Hp;
  destruct H as (? & ? & ? & ? & ? & Hd & ? & ? & ? & ? & ? & ? & ? & ?
                 & ? & ? & ? & ?);
  simplify_eq;
  split; [done|]; split; [done|]; split; [done|];
  eexists; split; [reflexivity|];
  split; [by context_ok_frame Hd|]; simpl; repeat split; try done;
  try tauto.

Lemma channel_start_phases E d0 sdi0 :
  hoare (setup_frame E d0 sdi0 0) keysight_channel_start
    (fun r sdi =>
       (r = SR_ERR /\ setup_frame E d0 sdi0 0 sdi) \/
       (r = TRUE /\ setup_frame E d0 sdi0 3 sdi) \/
       (r = SR_OK /\
        setup_frame E (set_state STATE_READING_DATA d0) sdi0 3 sdi)).
Proof.
  intros sdi Hsdi.
  pose proof Hsdi as (_ & _ & _ & d & Hp & _ & _ & _ & Hnf & _).
  unfold keysight_channel_start. rewrite Hp, Hnf.
  clear Hp. revert sdi Hsdi. apply hoare_body.
  pose proof (setup_frame_well_formed E d0 sdi0 0) as Hwf.
  eapply safe_hoare_bind; [by apply (safe_current_channel E); [apply _|]|].
  intros ch [Hch Hok].
  eapply safe_hoare_seq with (R := fun _ => False);
    [eapply safe_exec, safe_log, _| |done].
  eapply safe_hoare_seq with (R := eq SR_ERR);
    [| |by intros v sdi Hsdi <-; auto].
  { destruct (type ch);
      (eapply safe_return_unless_ok; [apply safe_config_set, _|done]). }
  eapply safe_hoare_seq with (R := eq SR_ERR);
    [| |by intros v sdi Hsdi <-; auto].
  { destruct (Z.eqb_spec (num_frames d0) 0) as [Hfirst|Hlater];
      [|apply safe_skip].
    eapply safe_seq with (R := eq SR_ERR); [| |by intros v <-].
    { eapply safe_return_unless_ok; [apply safe_config_set, _|done]. }
    eapply safe_seq with (R := eq SR_ERR); [| |by intros v <-].
    { eapply safe_return_unless_ok; [apply safe_config_set, _|done]. }
    eapply safe_seq with (R := eq SR_ERR); [| |by intros v <-].
    { eapply safe_return_unless_ok; [apply safe_config_set, _|done]. }
    destruct (type ch) eqn:Ht; [apply safe_skip|].
    specialize (Hok Ht).
    eapply safe_seq with (R := eq SR_ERR); [| |by intros v <-].
    { apply (safe_query_into E);
        [apply _|done|apply safe_scpi_get_float, _|done| | |done].
      - by intros d' (_ & _ & _ & _ & _ & _ & _ & ? & _).
      - intros sdi d' x. revert sdi d'. setup_frame_set. }
    eapply safe_seq with (R := eq SR_ERR); [| |by intros v <-].
    { apply (safe_query_into E);
        [apply _|done|apply safe_scpi_get_float, _|done| | |done].
      - by intros d' (_ & _ & _ & _ & _ & _ & _ & _ & ? & _).
      - intros sdi d' x. revert sdi d'. setup_frame_set. }
    apply (safe_query_into E);
      [apply _|done|apply safe_scpi_get_int, _|done| | |done].
    - by intros d' (_ & _ & _ & _ & _ & _ & ? & _).
    - intros sdi d' x. revert sdi d'. setup_frame_set. }
  eapply safe_hoare_seq with (R := eq SR_ERR);
    [| |by intros v sdi Hsdi <-; auto].
  { eapply safe_bind; [apply safe_scpi_get_int, _|]. intros [r v] _.
    eapply safe_then with (V := fun _ => True).
    - destruct v as [n|]; [|by apply safe_ret].
      apply safe_modify; [apply _|]. setup_frame_set.
    - destruct (negb _); [by apply safe_must_may, safe_return|].
      apply safe_skip. }
  eapply hoare_modify_seq with (I' := setup_frame E d0 sdi0 1);
    [apply _|setup_frame_set|].
  eapply hoare_modify_seq with (I' := setup_frame E d0 sdi0 2);
    [apply _|setup_frame_set|].
  eapply hoare_modify_seq with (I' := setup_frame E d0 sdi0 3);
    [apply _|setup_frame_set|].
  eapply safe_hoare_seq with (R := eq TRUE);
    [| |by intros v sdi Hsdi <-; auto].
  { eapply safe_return_unless_ok; [apply safe_scpi_send, _|done]. }
  eapply safe_hoare_seq with (R := eq TRUE);
    [| |by intros v sdi Hsdi <-; auto].
  { eapply safe_return_unless_ok; [apply safe_scpi_read_begin, _|done]. }
  eapply hoare_modify_seq
    with (I' := setup_frame E (set_state STATE_READING_DATA d0) sdi0 3);
    [apply _|setup_frame_set|].
  apply hoare_ret. by auto.
Qed.

(** *** Invariants of the callback *)

#[global] Instance refined_invariant E J : Invariant (refined E J).
Proof.
  split.
  - intros sdi (d & Hp & _). by exists d.
  - intros sdi l (d & Hp & Hok). by exists d.
  - intros sdi cs (d & Hp & Hok). by exists d.
Qed.

#[global] Instance stable_true : Stable (fun _ => True).
Proof. done. Qed.

#[global] Instance settled_true : Settled (fun _ => True).
Proof. done. Qed.

Lemma refined_well_formed E J sdi : refined E J sdi -> well_formed E sdi.
Proof. intros (d & Hp & Hd & _). by exists d. Qed.

Lemma well_formed_refined E sdi :
  well_formed E sdi -> refined E (fun _ => True) sdi.
Proof. intros (d & Hp & Hd). by exists d. Qed.

Lemma refined_context E J d :
  context_of (refined E J) d -> context_ok E d /\ J d.
Proof. intros (sdi & (d' & Hp' & Hok) & Hp). congruence. Qed.

Lemma safe_parse_int I `{!Invariant I} str :
  safe I (parse_int str)
    (fun rv => rv.1 = SR_ERR \/ (rv.1 = SR_OK /\ is_Some rv.2)).
Proof.
  intros sdi Hsdi. destruct (parse_int_parsed str sdi) as (l & Hrun).
  eexists _, _. split; [exact Hrun|]. split.
  - by apply (inv_log sdi (log sdi ++ l)).
  - destruct (parsed str); simpl; by eauto.
Qed.

Section Refined.

Context (E : list sr_channel) (J : dev_context -> Prop) `{!Stable J}.

(** An update of the context that keeps it well-formed and touches neither
    the frame counter nor the calibration. *)
Lemma refined_modify (f : dev_context -> dev_context) :
  (forall d, context_ok E d -> context_ok E (f d)) ->
  (forall d, num_frames (f d) = num_frames d) ->
  (forall d, calibration_of (f d) = calibration_of d) ->
  safe (refined E J) (modify_devc f) (fun _ => True).
Proof.
  intros Hf Hn Hc. apply safe_modify; [apply _|].
  intros sdi d (d' & Hp' & Hok & HJ) Hp.
  assert (d' = d) as -> by congruence.
  exists (f d). split; [done|]. split; [by apply Hf|].
  by apply (stable d).
Qed.

Lemma refined_session (c : session_call) :
  safe (refined E J) (session_do c) (fun _ => True).
Proof.
  intros sdi (d & Hp & Hok). exists tt, (session_called c sdi).
  split; [done|]. split; [|done]. by exists d.
Qed.

Lemma refined_current_channel :
  safe (refined E J) current_channel (fun ch => ch ∈ E /\ channel_ok ch).
Proof.
  apply safe_current_channel; [apply _|]. apply refined_well_formed.
Qed.

(** [keysight_channel_start] keeps the invariant. *)
Lemma channel_start_safe `{!Settled J} :
  safe (refined E J) keysight_channel_start
    (fun r => r = SR_OK \/ r = SR_ERR \/ r = TRUE).
Proof.
  intros sdi (d & Hp & Hd & HJ).
  destruct (channel_start_phases E d sdi sdi (setup_frame_start E sdi d Hp Hd))
    as (r & sdi' & Hrun & Hpost).
  exists r, sdi'. split; [done|].
  assert (forall d0 k,
            num_frames d0 = num_frames d ->
            (num_frames d <> 0 -> calibration_of d0 = calibration_of d) ->
            setup_frame E d0 sdi k sdi' -> refined E J sdi') as Hkeep.
  { intros d0 k Hn0 Hc0 (_ & _ & _ & d' & Hp' & Hd' & _ & _ & Hn & _ & _ & _
                        & _ & Hf & Hcal & _).
    exists d'. split; [done|]. split; [done|].
    apply (settled d); [done|congruence|].
    intros Hnz. etrans; [|exact (Hc0 Hnz)]. unfold calibration_of.
    destruct Hcal as (Hr & Hi & Ho); [congruence|].
    by rewrite Hr, Hi, Ho, Hf. }
  destruct Hpost as [[-> H]|[[-> H]|[-> H]]];
    (split; [refine (Hkeep _ _ _ _ H); done|by auto]).
Qed.

Lemma capture_start_safe :
  safe (refined E J) keysight_capture_start
    (fun r => r = SR_OK \/ r = TRUE).
Proof.
  intros sdi Hsdi. pose proof Hsdi as (d0 & Hp & _).
  unfold keysight_capture_start. rewrite Hp.
  refine (safe_body (refined E J) _ _ _ sdi Hsdi). clear sdi Hsdi Hp.
  cbv zeta.
  eapply safe_seq with (R := fun _ => False);
    [eapply safe_exec, safe_log, _| |done].
  eapply safe_seq with (R := eq TRUE); [| |by intros v <-; simpl; auto].
  { eapply safe_return_unless_ok; [apply safe_scpi_send, _|done]. }
  eapply safe_seq with (R := fun _ => False); [| |done].
  { eapply safe_exec, refined_modify; [by context_ok_set|done..]. }
  apply safe_return. by auto.
Qed.

(** A read into the acquisition buffer that stays within it. *)
Lemma refined_read_data off maxlen :
  maxlen <= 0 \/ (0 <= off /\ off + maxlen <= ACQ_BUFFER_SIZE) ->
  safe (refined E J) (sr_scpi_read_data off maxlen)
    (fun r => r = SR_ERR \/ 0 <= r <= Z.max 0 maxlen).
Proof.
  intros Hb sdi (d & Hp & Hd & HJ).
  assert (Z.of_nat (length (buffer d)) = ACQ_BUFFER_SIZE) as Hlen
    by (by destruct Hd as (_ & _ & _ & _ & [? _] & _)).
  destruct (read_data_total sdi d off maxlen Hp) as (r & b & c & Hrun & Hlb & _).
  { by rewrite Hlen. }
  eexists r, _. split; [exact Hrun|]. split.
  { exists (set_buffer b d). split; [done|].
    split; [by context_ok_frame Hd|]. by apply (stable d). }
  destruct (decide (head (ready (conn sdi)) = Some Failure)) as [Hf|Hf].
  - left. revert Hrun.
    unfold sr_scpi_read_data. unfold_prims.
    destruct (ready (conn sdi)) as [|[k|] evs]; try done. simpl.
    by intros [= <- _].
  - right.
    destruct (read_data_ready sdi d off maxlen Hp Hf) as (b' & _ & Hrun').
    { by rewrite Hlen. }
    rewrite Hrun' in Hrun. injection Hrun as <- _ _.
    unfold delivered. rewrite length_take. lia.
Qed.

Lemma refined_read_more target :
  0 <= target <= ACQ_BUFFER_SIZE ->
  safe (refined E J) (read_more target) (may_return (eq SR_ERR)).
Proof.
  intros Ht. unfold read_more.
  eapply safe_bind; [apply safe_get_devc, _|].
  intros d [Hd _]%refined_context.
  assert (0 <= num_header_bytes d) as Hn
    by (by destruct Hd as (_ & _ & _ & _ & _ & ? & _)).
  destruct (Z.ltb_spec (num_header_bytes d) target); [|apply safe_skip].
  assert (to_int (to_u64 (target - num_header_bytes d))
          = target - num_header_bytes d) as ->.
  { unfold ACQ_BUFFER_SIZE in Ht.
    rewrite to_u64_small by lia. apply to_int_small.
    unfold INT_MIN, INT_MAX. lia. }
  eapply safe_bind; [apply refined_read_data; lia|].
  intros ret _. destruct (ret <? 0).
  - eapply safe_seq with (R := fun _ => False);
      [eapply safe_exec, safe_log, _| |done].
    by apply safe_must_may, safe_return.
  - eapply safe_exec, refined_modify; [by context_ok_set|done..].
Qed.

(** [keysight_read_header] keeps the invariant. *)
Lemma read_header_safe :
  safe (refined E J) keysight_read_header (fun _ => True).
Proof.
  rewrite keysight_read_header_unfold. apply safe_body.
  eapply safe_seq with (R := fun _ => True); [| |done].
  { eapply safe_conseq; [apply refined_read_more|by intros [v|]].
    unfold ACQ_BUFFER_SIZE. lia. }
  eapply safe_seq with (R := fun _ => True); [| |done].
  { eapply safe_bind; [apply safe_get_devc, _|]. intros d _.
    destruct (_ <? 2); [by apply safe_must_may, safe_return|apply safe_skip]. }
  eapply safe_bind; [apply safe_get_devc, _|].
  intros d [Hd _]%refined_context.
  assert (Z.of_nat (length (buffer d)) = ACQ_BUFFER_SIZE) as Hlen
    by (by destruct Hd as (_ & _ & _ & _ & [? _] & _)).
  destruct (buffer d) as [|b0 [|b1 buf]] eqn:Hbuf;
    [simpl in Hlen; unfold ACQ_BUFFER_SIZE in Hlen; lia..|].
  eapply safe_bind; [apply safe_lift with (V := eq b0); by exists b0|].
  intros ? <-.
  eapply safe_bind; [apply safe_lift with (V := eq b1); by exists b1|].
  intros ? <-. fold (bad_header_start b0 b1).
  destruct (bad_header_start b0 b1) eqn:Hbad.
  { eapply safe_seq_return with (R := fun _ => True); [|done].
    eapply safe_seq with (R := fun _ => False);
      [eapply safe_exec, safe_log, _| |done].
    by apply safe_return. }
  assert (49 <= b1 <= 57) as Hb1.
  { unfold bad_header_start, isdigit, CHAR_0 in Hbad.
    destruct (negb (b0 =? HASH)); [done|]. simpl in Hbad. lia. }
  assert (to_u64 (2 + b1 - CHAR_0) = 2 + b1 - CHAR_0) as ->
    by (apply to_u64_small; unfold CHAR_0; lia).
  cbv zeta.
  eapply safe_seq with (R := fun _ => False); [apply safe_skip| |done].
  eapply safe_seq with (R := fun _ => True); [| |done].
  { eapply safe_conseq; [apply refined_read_more|by intros [v|]].
    unfold ACQ_BUFFER_SIZE, CHAR_0. lia. }
  eapply safe_seq with (R := fun _ => True); [| |done].
  { eapply safe_bind; [apply safe_get_devc, _|]. intros d' _.
    destruct (_ <? _); [by apply safe_must_may, safe_return|apply safe_skip]. }
  eapply safe_seq with (R := fun _ => False); [| |done].
  { eapply safe_bind; [apply safe_get_devc, _|].
    intros d' [Hd' _]%refined_context.
    assert (Z.of_nat (length (buffer d')) = ACQ_BUFFER_SIZE) as Hlen'
      by (by destruct Hd' as (_ & _ & _ & _ & [? _] & _)).
    eapply safe_bind.
    - apply safe_lift
        with (V := fun b => Z.of_nat (length b) = ACQ_BUFFER_SIZE).
      unfold array_set. rewrite Hlen'. unfold ACQ_BUFFER_SIZE, CHAR_0.
      destruct (Z.leb_spec 0 (2 + b1 - 48)); [|lia].
      destruct (Z.ltb_spec (2 + b1 - 48) (64 * 1024)); [|lia].
      eexists. split; [done|]. rewrite length_insert.
      by rewrite Hlen'.
    - intros b Hb. simpl in Hb.
      eapply safe_exec, refined_modify; [by context_ok_set|done..]. }
  eapply safe_bind; [apply safe_get_devc, _|]. intros d' _.
  eapply safe_bind; [apply safe_parse_int, _|].
  intros [r v] [Hr|[Hr [ret Hv]]]; simpl in *; subst.
  - eapply safe_seq with (R := fun _ => False);
      [eapply safe_exec, safe_log, _| |done].
    by apply safe_return.
  - eapply safe_seq with (R := fun _ => False);
      [eapply safe_exec, safe_log, _| |done].
    by apply safe_return.
Qed.

(** Lines 312-328 keep the invariant. *)
Lemma receive_header_safe :
  safe (refined E J) receive_header (may_return (eq TRUE)).
Proof.
  unfold receive_header.
  eapply safe_bind; [apply safe_get_devc, _|]. intros d _.
  destruct (num_block_bytes d =? 0); [|apply safe_skip].
  eapply safe_seq with (R := fun _ => False);
    [eapply safe_exec, safe_log, _| |done].
  eapply safe_bind; [apply read_header_safe|]. intros len _.
  destruct (len =? 0); [by apply safe_must_may, safe_return|].
  destruct (len =? -1).
  - eapply safe_seq with (R := fun _ => False);
      [eapply safe_exec, safe_log, _| |done].
    eapply safe_seq with (R := fun _ => False);
      [eapply safe_exec, refined_session| |done].
    eapply safe_seq with (R := fun _ => False);
      [eapply safe_exec, refined_session| |done].
    eapply safe_seq with (R := fun _ => False); [| |done].
    { eapply safe_exec, refined_modify; [by context_ok_set|done..]. }
    by apply safe_must_may, safe_return.
  - eapply safe_seq with (R := fun _ => False); [| |done].
    { eapply safe_exec, refined_modify; [by context_ok_set|done..]. }
    eapply safe_exec, refined_modify; [by context_ok_set|done..].
Qed.

End Refined.

Section Callback.

Variable log10f : float32 -> float32.

(** The invariant [J] holds when the callback is entered; [J'] is what is
    left of it when the callback has counted a frame. *)
Context (E : list sr_channel) (J J' : dev_context -> Prop).
Context `{!Stable J, !Settled J, !Stable J'}.
Hypothesis J_J' :
  forall d d', J d -> calibration_of d' = calibration_of d -> J' d'.

(** Lines 335-343: the read of the payload fails. *)
Lemma receive_block_failure ch sdi d :
  priv sdi = Some d ->
  head (ready (conn sdi)) = Some Failure ->
  exists sdi',
    receive_block log10f ch sdi = Some (Some TRUE, sdi') /\
    priv sdi' = Some (set_state STATE_IDLE d) /\
    session sdi' =
      session sdi ++ [Session_send SR_DF_FRAME_END; Acquisition_stop] /\
    log sdi' =
      log sdi ++ [Dbg_requesting (block_request d); Err_abort_data] /\
    conn sdi' = after_read (conn sdi) (block_request d).
Proof.
  intros Hp Hfail.
  unfold receive_block, sr_scpi_read_data, after_read, delivered, block_request.
  unfold_prims.
  explode sdi. destruct ready0 as [|[k|] rs]; simplify_eq/=.
  eexists. split; [reflexivity|]. simpl. by rewrite <- !app_assoc.
Qed.

Lemma context_ok_calibrated d ch :
  context_ok E d -> channel_ok ch -> calibrated ch d.
Proof.
  intros (_ & _ & _ & _ & _ & _ & Hr & Hi & Ho & Hf) Hch Ht.
  specialize (Hch Ht). unfold array_get.
  destruct (Z.ltb_spec (index ch) 0); [lia|].
  repeat split; apply lookup_lt_is_Some; lia.
Qed.

(** Lines 330-396 keep the invariant. *)
Lemma receive_block_safe ch :
  channel_ok ch ->
  safe (refined E J) (receive_block log10f ch) (may_return (eq TRUE)).
Proof.
  intros Hch sdi (d & Hp & Hd & HJ).
  destruct (decide (head (ready (conn sdi)) = Some Failure)) as [Hf|Hf].
  - destruct (receive_block_failure ch sdi d Hp Hf)
      as (sdi' & Hrun & Hp' & _).
    exists (Some TRUE), sdi'. split; [done|]. split; [|done].
    eexists. split; [exact Hp'|].
    split; [by context_ok_frame Hd|]. by apply (stable d).
  - destruct (receive_block_step log10f ch sdi d Hp Hf)
      as (sdi' & d' & p & l & Hrun & Hp' & _ & _ & _ & _ & _ & Hce & Hen & _
          & Hnf & Hvr & Hvi & Hvo & Hvf & Hba & _ & _ & Hcnt).
    { by destruct Hd as (_ & _ & _ & _ & ? & _). }
    { by eapply context_ok_calibrated. }
    exists None, sdi'. split; [done|]. split; [|done].
    exists d'. split; [done|]. split.
    + eapply context_ok_frame; [exact Hd|try done; try congruence..].
      destruct (_ =? _).
      * destruct Hcnt as (_ & -> & _). done.
      * destruct Hcnt as (_ & -> & _).
        by destruct Hd as (_ & _ & _ & _ & _ & ? & _).
    + apply (stable d); [done..|]. unfold calibration_of. congruence.
Qed.

(** Lines 405-425: the end of the data of a channel. *)
Lemma receive_channel_end_safe :
  hoare (refined E J) receive_channel_end
    (fun o sdi => o = Some TRUE /\ refined E J' sdi).
Proof.
  assert (forall sdi, refined E J sdi -> refined E J' sdi) as Hweak.
  { intros sdi (d & Hp & Hd & HJ). exists d. by eauto. }
  unfold receive_channel_end.
  eapply safe_hoare_bind; [apply safe_get_devc, _|].
  intros d [Hd _]%refined_context.
  destruct (tail (channel_entry d)) as [|ch' rest'] eqn:Htail.
  - eapply safe_hoare_seq with (R := fun _ => False);
      [eapply safe_exec, refined_session| |done].
    eapply safe_hoare_seq with (R := fun _ => False); [| |done].
    { eapply safe_exec, refined_modify; [apply _|by context_ok_set|done..]. }
    eapply hoare_modify_seq with (I' := refined E J'); [apply _| |].
    { intros sdi d0 (d' & Hp' & Hd' & HJ) Hp.
      assert (d' = d0) as -> by congruence.
      eexists. split; [done|]. split; [by context_ok_frame Hd'|].
      by apply (J_J' d0). }
    assert (safe (refined E J') (exec std_session_send_df_frame_begin;;;
                                 return_ TRUE) (must_return (eq TRUE)))
      as Hend.
    { eapply safe_seq with (R := fun _ => False);
        [eapply safe_exec, refined_session| |done].
      by apply safe_return. }
    eapply hoare_conseq with (P' := refined E J')
      (Q' := fun o sdi => refined E J' sdi /\ must_return (eq TRUE) o);
      [|done|intros [v|] sdi [? Hv]; simpl in Hv; by subst].
    eapply safe_seq with (R := fun _ => False); [| |done].
    { eapply safe_exec, refined_modify; [apply _| |done..].
      intros d' (HE & [k Hsuf] & Hne & Hrest).
      split; [done|]. simpl. rewrite HE. split; [done|]. split; [|done].
      intros ->. by destruct k, (channel_entry d'). }
    eapply safe_seq with (R := fun _ => False); [| |done].
    { eapply safe_exec, safe_then; [apply capture_start_safe, _|].
      by apply safe_ret with (V := fun _ => True). }
    exact Hend.
  - eapply hoare_conseq with (P' := refined E J)
      (Q' := fun o sdi => refined E J sdi /\ must_return (eq TRUE) o);
      [|done|intros [v|] sdi [?%Hweak Hv]; simpl in Hv; by subst].
    eapply safe_seq with (R := fun _ => False); [| |done].
    { eapply safe_exec, refined_modify; [apply _| |done..].
      intros d' (HE & Hsuf' & Hne' & Hrest).
      destruct Hd as (_ & [k Hsuf] & _).
      split; [done|]. simpl. split; [|done].
      destruct (channel_entry d) as [|ch rest]; [done|].
      simpl in Htail. subst rest. exists (k ++ [ch]).
      by rewrite <- app_assoc. }
    eapply safe_seq with (R := fun _ => False); [| |done].
    { eapply safe_exec, safe_then; [apply channel_start_safe; apply _|].
      by apply safe_ret with (V := fun _ => True). }
    by apply safe_return.
Qed.

Lemma refined_weaken sdi : refined E J sdi -> refined E J' sdi.
Proof. intros (d & Hp & Hd & HJ). exists d. by eauto. Qed.

(** Lines 398-425: the channel and frame sequencing. *)
Lemma receive_sequence_safe :
  hoare (refined E J) receive_sequence
    (fun o sdi => o = Some TRUE /\ refined E J' sdi).
Proof.
  unfold receive_sequence.
  eapply safe_hoare_seq with (R := eq TRUE);
    [|apply receive_channel_end_safe
     |intros v sdi Hsdi%refined_weaken <-; by auto].
  eapply safe_bind; [apply safe_get_devc, _|]. intros d _.
  destruct (_ <? _); [by apply safe_must_may, safe_return|apply safe_skip].
Qed.

Lemma receive_dispatch_safe :
  hoare (refined E J) (receive_dispatch log10f)
    (fun r sdi => r = TRUE /\ refined E J' sdi).
Proof.
  unfold receive_dispatch. apply hoare_body.
  eapply safe_hoare_bind; [apply safe_get_devc, _|]. intros d _.
  destruct (state d).
  - apply hoare_ret. intros sdi Hsdi%refined_weaken. by auto.
  - eapply safe_hoare_bind; [apply channel_start_safe; apply _|]. intros r _.
    destruct (negb _); apply hoare_ret;
      intros sdi Hsdi%refined_weaken; by auto.
  - unfold receive_reading.
    eapply safe_hoare_bind; [apply refined_current_channel|].
    intros ch [_ Hch].
    eapply safe_hoare_seq with (R := eq TRUE);
      [apply receive_header_safe, _|
      |intros v sdi Hsdi%refined_weaken <-; by auto].
    eapply safe_hoare_seq with (R := eq TRUE);
      [by apply receive_block_safe|
      |intros v sdi Hsdi%refined_weaken <-; by auto].
    eapply hoare_conseq; [apply receive_sequence_safe|done|].
    by intros [v|] sdi [[= <-] ?].
Qed.

Lemma receive_refined (fd revents : Z) sdi :
  refined E J sdi ->
  exists sdi',
    keysight_receive log10f fd revents (Some sdi) = Some (TRUE, Some sdi') /\
    refined E J' sdi'.
Proof.
  intros Hsdi. pose proof Hsdi as (d & Hp & _).
  unfold keysight_receive. rewrite Hp.
  destruct (negb _); [exists sdi; by auto using refined_weaken|].
  destruct (receive_dispatch_safe sdi Hsdi) as (r & sdi' & -> & -> & Hsdi').
  by exists sdi'.
Qed.

End Callback.

(** X4. On a well-formed device instance (calibration arrays of
    [MAX_ANALOG_CHANNELS] elements indexed by the enabled analog channels, a
    channel cursor inside the list of enabled channels, allocated buffers),
    whatever the readiness events, the answers of the instrument and the
    bytes it delivers: every call of the receive callback runs to its end,
    returns TRUE and leaves the device instance well-formed; so does any
    number of calls.  A run of the model ends unless it dereferences a
    missing context or channel, indexes outside the buffers or the
    calibration arrays, or leaves a function without [return]: none of
    these happens.  The arithmetic that ISO C leaves undefined is no part of
    this property: the model gives a value to the [int] subtraction of the
    reference that overflows and to the conversion to [int] of a logarithm
    that is not finite or out of range, and its transport hands over
    nothing when it is asked for a negative number of bytes. *)
Theorem receive_keeps_well_formed log10f E (fd revents : Z) sdi :
  well_formed E sdi ->
  (exists sdi',
     keysight_receive log10f fd revents (Some sdi) = Some (TRUE, Some sdi') /\
     well_formed E sdi') /\
  (forall n, exists sdi',
     receive_events log10f n revents (Some sdi) = Some (Some sdi') /\
     well_formed E sdi').
Proof.
  assert (forall fd revents sdi,
            well_formed E sdi ->
            exists sdi',
              keysight_receive log10f fd revents (Some sdi)
                = Some (TRUE, Some sdi') /\
              well_formed E sdi') as Hcall.
  { clear. intros fd revents sdi Hsdi%well_formed_refined.
    destruct (receive_refined log10f E (fun _ => True) (fun _ => True)
                (fun _ _ _ _ => I) fd revents sdi Hsdi)
      as (sdi' & Hrun & Hsdi'%refined_well_formed).
    by exists sdi'. }
  intros Hsdi. split; [by apply Hcall|].
  intros n. revert sdi Hsdi. induction n as [|n IH]; intros sdi Hsdi.
  { by exists sdi. }
  destruct (Hcall 0 revents sdi Hsdi) as (sdi1 & Hrun & Hsdi1).
  destruct (IH sdi1 Hsdi1) as (sdi' & Hrun' & Hsdi').
  exists sdi'. simpl. by rewrite Hrun.
Qed.

(** X5. Once the first frame is over, the calibration is immutable: a call
    of the receive callback on a well-formed device instance whose frame
    counter is not 0 leaves the four calibration arrays as they were,
    whatever the instrument answers. *)
Theorem calibration_immutable log10f E (fd revents : Z) sdi d :
  priv sdi = Some d ->
  context_ok E d ->
  num_frames d <> 0 ->
  exists sdi' d',
    keysight_receive log10f fd revents (Some sdi) = Some (TRUE, Some sdi') /\
    priv sdi' = Some d' /\
    vert_reference d' = vert_reference d /\ vert_inc d' = vert_inc d /\
    vert_origin d' = vert_origin d /\ vert_offset d' = vert_offset d.
Proof.
  intros Hp Hd Hnf.
  set (J := fun d0 => num_frames d0 <> 0
                      /\ calibration_of d0 = calibration_of d).
  set (J' := fun d0 => calibration_of d0 = calibration_of d).
  assert (Stable J) as HJ by (intros d1 d2 [? ?] ? ?; split; congruence).
  assert (Settled J) as HJs.
  { intros d1 d2 [? ?] Hn Hc. split; [congruence|].
    rewrite Hc; [done|congruence]. }
  assert (Stable J') as HJ' by (intros d1 d2 ? ? ?; unfold J' in *; congruence).
  destruct (receive_refined log10f E J J') with (fd := fd) (revents := revents)
    (sdi := sdi) as (sdi' & Hrun & d' & Hp' & _ & Hcal).
  { intros d1 d2 [_ ?] ?. unfold J'. congruence. }
  { exists d. split; [done|]. split; [done|]. by split. }
  exists sdi', d'. split; [done|]. split; [done|].
  unfold J', calibration_of in Hcal. by injection Hcal as -> -> -> ->.
Qed.

(** ** The set-up of a channel *)

(** X6. Whatever the instrument answers, [keysight_channel_start] on a
    well-formed device instance is defined and returns [SR_OK], [SR_ERR] or
    TRUE.  It sends nothing to the session and reads no byte; it leaves the
    frame counter, the channel cursor, the buffers and, after the first
    frame, the calibration as they were.  The state becomes
    [STATE_READING_DATA] exactly when it returns [SR_OK], and is unchanged
    otherwise; the three progress counters are reset unless it returns
    [SR_ERR], which leaves them as they were. *)
Theorem channel_start_outcome E sdi d :
  priv sdi = Some d ->
  context_ok E d ->
  exists r sdi',
    keysight_channel_start sdi = Some (r, sdi') /\
    ((r = SR_ERR /\ setup_frame E d sdi 0 sdi') \/
     (r = TRUE /\ setup_frame E d sdi 3 sdi') \/
     (r = SR_OK /\
      setup_frame E (set_state STATE_READING_DATA d) sdi 3 sdi')).
Proof.
  intros Hp Hd.
  exact (channel_start_phases E d sdi sdi (setup_frame_start E sdi d Hp Hd)).
Qed.

(** ** Commands and their completion *)

Lemma scpi_exchange_run c sdi :
  scpi_exchange c sdi
    = Some (hd Reply_err (replies (conn sdi)), answered [c] sdi).
Proof.
  unfold scpi_exchange, answered. unfold_prims.
  by destruct (replies (conn sdi)).
Qed.

Lemma answered_app cs1 cs2 sdi :
  answered cs2 (answered cs1 sdi) = answered (cs1 ++ cs2) sdi.
Proof.
  unfold answered. simpl.
  by rewrite drop_drop, length_app, <- app_assoc.
Qed.

Lemma scpi_send_run c sdi :
  sr_scpi_send c sdi
    = Some (match hd Reply_err (replies (conn sdi)) with
            | Reply_ok => SR_OK
            | _ => SR_ERR
            end, answered [Scpi_send c] sdi).
Proof.
  unfold sr_scpi_send. by rewrite (bind_run _ _ _ _ _ (scpi_exchange_run _ _)).
Qed.

Lemma scpi_get_opc_run sdi :
  sr_scpi_get_opc sdi
    = Some (match hd Reply_err (replies (conn sdi)) with
            | Reply_ok => SR_OK
            | _ => SR_ERR
            end, answered [Scpi_get_opc] sdi).
Proof.
  unfold sr_scpi_get_opc.
  by rewrite (bind_run _ _ _ _ _ (scpi_exchange_run _ _)).
Qed.

Lemma scpi_read_begin_run sdi :
  sr_scpi_read_begin sdi
    = Some (match hd Reply_err (replies (conn sdi)) with
            | Reply_ok => SR_OK
            | _ => SR_ERR
            end, answered [Scpi_read_begin] sdi).
Proof.
  unfold sr_scpi_read_begin.
  by rewrite (bind_run _ _ _ _ _ (scpi_exchange_run _ _)).
Qed.

Lemma scpi_get_float_run c sdi :
  sr_scpi_get_float c sdi
    = Some (match hd Reply_err (replies (conn sdi)) with
            | Reply_float f => (SR_OK, Some f)
            | _ => (SR_ERR, None)
            end, answered [Scpi_get_float c] sdi).
Proof.
  unfold sr_scpi_get_float.
  by rewrite (bind_run _ _ _ _ _ (scpi_exchange_run _ _)).
Qed.

Lemma scpi_get_int_run c sdi :
  sr_scpi_get_int c sdi
    = Some (match hd Reply_err (replies (conn sdi)) with
            | Reply_int z => (SR_OK, Some z)
            | _ => (SR_ERR, None)
            end, answered [Scpi_get_int c] sdi).
Proof.
  unfold sr_scpi_get_int.
  by rewrite (bind_run _ _ _ _ _ (scpi_exchange_run _ _)).
Qed.

(** [keysight_config_set], by the answers of the instrument. *)
Lemma config_set_run c sdi :
  keysight_config_set c sdi =
    match replies (conn sdi) with
    | Reply_ok :: rs =>
        Some (match rs with Reply_ok :: _ => SR_OK | _ => SR_ERR end,
              answered (configure c) sdi)
    | _ => Some (SR_ERR, answered [Scpi_send c] sdi)
    end.
Proof.
  unfold keysight_config_set, configure.
  rewrite (bind_run _ _ _ _ _ (scpi_send_run c sdi)).
  destruct (replies (conn sdi)) as [|r rs] eqn:Hrs; [done|].
  destruct r; try done. simpl.
  rewrite scpi_get_opc_run, answered_app. simpl. rewrite Hrs. simpl.
  by destruct rs as [|[] rs'].
Qed.

(** X7. [keysight_config_set] touches nothing but the transport, on which
    it makes one or two calls: the completion of the command is queried
    only when the command could be sent, and the result is [SR_OK] exactly
    when the instrument accepts both, [SR_ERR] otherwise. *)
Theorem config_set_outcome c sdi :
  exists r sdi',
    keysight_config_set c sdi = Some (r, sdi') /\
    priv sdi' = priv sdi /\ session sdi' = session sdi /\
    log sdi' = log sdi /\
    rx (conn sdi') = rx (conn sdi) /\ ready (conn sdi') = ready (conn sdi) /\
    calls (conn sdi') =
      calls (conn sdi)
      ++ match replies (conn sdi) with
         | Reply_ok :: _ => [Scpi_send c; Scpi_get_opc]
         | _ => [Scpi_send c]
         end /\
    (r = SR_OK \/ r = SR_ERR) /\
    (r = SR_OK <->
     exists rs, replies (conn sdi) = Reply_ok :: Reply_ok :: rs).
Proof.
  rewrite config_set_run.
  destruct (replies (conn sdi)) as [|r0 rs] eqn:Hrs.
  { eexists _, _. split; [done|]. do 6 (split; [done|]).
    split; [by right|]. split; [done|]. by intros [? ?]. }
  destruct r0;
    try (eexists _, _; split; [done|]; do 6 (split; [done|]);
         split; [by right|]; split; [done|]; by intros [? ?]).
  destruct rs as [|r1 rs'].
  { eexists _, _. split; [done|]. do 6 (split; [done|]).
    split; [by right|]. split; [done|]. by intros [? ?]. }
  destruct r1;
    try (eexists _, _; split; [done|]; do 6 (split; [done|]);
         split; [by right|]; split; [done|]; by intros [? ?]).
  eexists _, _. split; [done|]. do 6 (split; [done|]).
  split; [by left|]. split; [by eauto|done].
Qed.

(** [keysight_capture_start], by the answer of the instrument. *)
Lemma capture_start_run sdi d :
  priv sdi = Some d ->
  let logged :=
    sr_dev_inst_log sdi
      (log sdi ++ [Dbg_capture_start (to_u64 (num_frames d + 1))
                     (to_u64 (limit_frames d))]) in
  keysight_capture_start sdi =
    match replies (conn sdi) with
    | Reply_ok :: _ =>
        Some (SR_OK,
              with_context (set_state STATE_DIGITIZING d)
                (answered [Scpi_send DIGITIZE_OPC] logged))
    | _ => Some (TRUE, answered [Scpi_send DIGITIZE_OPC] logged)
    end.
Proof.
  intros Hp logged. unfold keysight_capture_start. rewrite Hp. cbv zeta.
  assert (exec (sr_log (Dbg_capture_start (to_u64 (num_frames d + 1))
                          (to_u64 (limit_frames d)))) sdi
          = Some (None, logged)) as Hlog by done.
  rewrite (body_through _ _ _ _ Hlog).
  unfold return_unless_ok, seq, body, mbind, M_bind.
  rewrite scpi_send_run.
  change (replies (conn logged)) with (replies (conn sdi)).
  destruct (replies (conn sdi)) as [|r rs] eqn:Hrs; [done|].
  destruct r; try done.
  simpl. unfold exec, modify_devc, return_, mbind, M_bind, mret, M_ret.
  simpl. by rewrite Hp.
Qed.

(** X8. [keysight_capture_start] logs the number of the frameset (one more
    than the frames received), sends the digitize command and nothing else,
    and changes nothing but the state: the state becomes
    [STATE_DIGITIZING] and the result is [SR_OK] exactly when the command
    could be sent; when it could not, the state is left as it was and the
    result is TRUE, not [SR_ERR]. *)
Theorem capture_start_outcome sdi d :
  priv sdi = Some d ->
  exists r sdi',
    keysight_capture_start sdi = Some (r, sdi') /\
    session sdi' = session sdi /\
    log sdi' =
      log sdi ++ [Dbg_capture_start (to_u64 (num_frames d + 1))
                    (to_u64 (limit_frames d))] /\
    calls (conn sdi') = calls (conn sdi) ++ [Scpi_send DIGITIZE_OPC] /\
    rx (conn sdi') = rx (conn sdi) /\ ready (conn sdi') = ready (conn sdi) /\
    match hd Reply_err (replies (conn sdi)) with
    | Reply_ok =>
        r = SR_OK /\ priv sdi' = Some (set_state STATE_DIGITIZING d)
    | _ => r = TRUE /\ priv sdi' = Some d
    end.
Proof.
  intros Hp. rewrite (capture_start_run sdi d Hp). cbv zeta.
  destruct (replies (conn sdi)) as [|r0 rs] eqn:Hrs.
  { eexists _, _. split; [done|]. by do 5 (split; [done|]). }
  destruct r0; eexists _, _; (split; [done|]); by do 5 (split; [done|]).
Qed.

(** ** The set-up of a channel, step by step *)

Lemma current_channel_run sdi d ch rest :
  priv sdi = Some d -> channel_entry d = ch :: rest ->
  current_channel sdi = Some (ch, sdi).
Proof.
  intros Hp Hce. unfold current_channel.
  rewrite (bind_run _ _ _ _ _ (get_devc_run _ _ Hp)). by rewrite Hce.
Qed.

Lemma config_step c e sdi rs :
  replies (conn sdi) = Reply_ok :: Reply_ok :: rs ->
  return_unless_ok (keysight_config_set c) e sdi
    = Some (None, answered (configure c) sdi).
Proof.
  intros Hrs. pose proof (config_set_run c sdi) as Hrun.
  rewrite Hrs in Hrun. unfold return_unless_ok.
  by rewrite (bind_run _ _ _ _ _ Hrun).
Qed.

Lemma query_into_ok {A} (get : M (Z * option A))
    (arr : dev_context -> list A) (set : list A -> dev_context -> dev_context)
    (i : Z) (x : A) sdi sdi1 d :
  get sdi = Some ((SR_OK, Some x), sdi1) ->
  priv sdi1 = Some d ->
  0 <= i -> (Z.to_nat i < length (arr d))%nat ->
  query_into get arr set i sdi
    = Some (None, with_context (set (<[Z.to_nat i := x]> (arr d)) d) sdi1).
Proof.
  intros Hget Hp Hi Hlen. unfold query_into.
  rewrite (bind_run _ _ _ _ _ Hget). cbv beta iota.
  assert ((devc ← get_devc;
           a ← lift (array_set (arr devc) i x);
           modify_devc (set a)) sdi1
          = Some (tt, with_context (set (<[Z.to_nat i := x]> (arr d)) d) sdi1))
    as Hstore.
  { rewrite (bind_run _ _ _ _ _ (get_devc_run _ _ Hp)).
    rewrite <- (Z2Nat.id i) at 1 by done.
    rewrite array_set_insert by done.
    unfold lift, modify_devc, mbind, M_bind. by rewrite Hp. }
  by rewrite (bind_run _ _ _ _ _ Hstore).
Qed.

(** Lines 189-204: the number of points, the reset of the counters, the data
    request and the start of the read. *)
Lemma setup_tail_run sdi d n rs :
  priv sdi = Some d ->
  replies (conn sdi) = Reply_int n :: Reply_ok :: Reply_ok :: rs ->
  body
    (('(r, v) ← sr_scpi_get_int WAV_POIN;
      match v with
      | Some n => modify_devc (set_num_channel_bytes_total n)
      | None => mret tt
      end;;
      if negb (r =? SR_OK) then return_ SR_ERR else skip);;;
     exec (modify_devc (set_num_channel_bytes 0));;;
     exec (modify_devc (set_num_header_bytes 0));;;
     exec (modify_devc (set_num_block_bytes 0));;;
     return_unless_ok (sr_scpi_send WAV_DATA) TRUE;;;
     return_unless_ok sr_scpi_read_begin TRUE;;;
     exec (modify_devc (set_state STATE_READING_DATA));;;
     return_ SR_OK) sdi
  = Some (SR_OK,
          with_context
            (set_state STATE_READING_DATA
               (set_num_block_bytes 0
                  (set_num_header_bytes 0
                     (set_num_channel_bytes 0
                        (set_num_channel_bytes_total n d)))))
            (answered [Scpi_get_int WAV_POIN; Scpi_send WAV_DATA;
                       Scpi_read_begin] sdi)).
Proof.
  intros Hp Hrs.
  assert (('(r, v) ← sr_scpi_get_int WAV_POIN;
           match v with
           | Some n => modify_devc (set_num_channel_bytes_total n)
           | None => mret tt
           end;;
           if negb (r =? SR_OK) then return_ SR_ERR else skip) sdi
          = Some (None,
                  with_context (set_num_channel_bytes_total n d)
                    (answered [Scpi_get_int WAV_POIN] sdi))) as Hpoin.
  { rewrite (bind_run _ _ _ _ _ (scpi_get_int_run _ _)). rewrite Hrs.
    cbv beta iota. simpl hd. cbv beta iota.
    unfold modify_devc, mbind, M_bind. simpl. by rewrite Hp. }
  rewrite (body_through _ _ _ _ Hpoin).
  set (S1 := with_context _ (answered [Scpi_get_int WAV_POIN] sdi)).
  assert (forall f (k : stmt) S d0,
            priv S = Some d0 ->
            body (exec (modify_devc f);;; k) S
            = body k (with_context (f d0) S)) as Hmod.
  { intros f k S d0 HS. apply body_through.
    unfold exec, modify_devc, mbind, M_bind. by rewrite HS. }
  erewrite Hmod by reflexivity.
  erewrite Hmod by reflexivity.
  erewrite Hmod by reflexivity.
  assert (forall m e (k : stmt) S S',
            m S = Some (SR_OK, S') ->
            body (return_unless_ok m e;;; k) S = body k S') as Hok.
  { intros m e k S S' HS. apply body_through.
    unfold return_unless_ok. by rewrite (bind_run _ _ _ _ _ HS). }
  erewrite Hok; [|rewrite scpi_send_run; simpl; rewrite Hrs; reflexivity].
  erewrite Hok;
    [|rewrite scpi_read_begin_run; simpl; rewrite Hrs; reflexivity].
  erewrite Hmod by reflexivity.
  unfold body, return_, mbind, M_bind, mret, M_ret.
  unfold S1, answered, with_context. simpl.
  by rewrite !drop_drop, <- !app_assoc.
Qed.

Lemma skip_through (k : stmt) sdi : body (skip;;; k) sdi = body k sdi.
Proof. by apply body_through. Qed.

Lemma answered_with_context cs d sdi :
  answered cs (with_context d sdi) = with_context d (answered cs sdi).
Proof. reflexivity. Qed.

Lemma with_context_twice d d' sdi :
  with_context d (with_context d' sdi) = with_context d sdi.
Proof. reflexivity. Qed.

Lemma replies_answered cs sdi :
  replies (conn (answered cs sdi)) = drop (length cs) (replies (conn sdi)).
Proof. reflexivity. Qed.

Lemma replies_with_context d sdi :
  replies (conn (with_context d sdi)) = replies (conn sdi).
Proof. reflexivity. Qed.

(** The next replies of the script, at a state reached from [S0]. *)
Ltac next_replies H :=
  rewrite ?replies_with_context, ?replies_answered, ?replies_with_context,
    ?replies_answered, ?replies_with_context, ?replies_answered,
    ?replies_answered, ?replies_answered, ?replies_answered;
  rewrite H; reflexivity.

(** The run of [keysight_channel_start] with an instrument that accepts
    every command and answers every query. *)
Lemma channel_start_run ch rest yinc yor yref n rs sdi d :
  priv sdi = Some d ->
  channel_entry d = ch :: rest ->
  (type ch = SR_CHANNEL_ANALOG -> num_frames d = 0 ->
   0 <= index ch /\
   (Z.to_nat (index ch) < length (vert_inc d))%nat /\
   (Z.to_nat (index ch) < length (vert_origin d))%nat /\
   (Z.to_nat (index ch) < length (vert_reference d))%nat) ->
  replies (conn sdi)
    = setup_replies (num_frames d =? 0) ch yinc yor yref n ++ rs ->
  keysight_channel_start sdi
    = Some (SR_OK,
            with_context
              (setup_context (num_frames d =? 0) ch yinc yor yref n d)
              (answered (setup_calls (num_frames d =? 0) ch)
                 (sr_dev_inst_log sdi
                    (log sdi
                     ++ [Dbg_channel_start (to_int (index ch + 1))])))).
Proof.
  intros Hp Hce Hidx Hrs.
  unfold keysight_channel_start. rewrite Hp.
  rewrite (body_bind _ _ _ _ _ (current_channel_run _ _ _ _ Hp Hce)).
  set (logged := sr_dev_inst_log sdi _).
  assert (exec (sr_log (Dbg_channel_start (to_int (index ch + 1)))) sdi
          = Some (None, logged)) as Hlog by done.
  rewrite (body_through _ _ _ _ Hlog).
  assert (body
            (return_unless_ok (keysight_config_set (source_command ch)) SR_ERR;;;
             (if num_frames d =? 0 then
                return_unless_ok (keysight_config_set WAV_FORM_BYTE) SR_ERR;;;
                return_unless_ok (keysight_config_set WAV_POIN_MODE_NORM)
                  SR_ERR;;;
                return_unless_ok (keysight_config_set WAV_UNS_ON) SR_ERR;;;
                match type ch with
                | SR_CHANNEL_ANALOG =>
                    query_into (sr_scpi_get_float WAV_YINC)
                      vert_inc set_vert_inc (index ch);;;
                    query_into (sr_scpi_get_float WAV_YOR)
                      vert_origin set_vert_origin (index ch);;;
                    query_into (sr_scpi_get_int WAV_YREF)
                      vert_reference set_vert_reference (index ch)
                | SR_CHANNEL_LOGIC => skip
                end
              else skip);;;
             ('(r, v) ← sr_scpi_get_int WAV_POIN;
              match v with
              | Some n => modify_devc (set_num_channel_bytes_total n)
              | None => mret tt
              end;;
              if negb (r =? SR_OK) then return_ SR_ERR else skip);;;
             exec (modify_devc (set_num_channel_bytes 0));;;
             exec (modify_devc (set_num_header_bytes 0));;;
             exec (modify_devc (set_num_block_bytes 0));;;
             return_unless_ok (sr_scpi_send WAV_DATA) TRUE;;;
             return_unless_ok sr_scpi_read_begin TRUE;;;
             exec (modify_devc (set_state STATE_READING_DATA));;;
             return_ SR_OK) logged
          = Some (SR_OK,
                  with_context
                    (setup_context (num_frames d =? 0) ch yinc yor yref n d)
                    (answered (setup_calls (num_frames d =? 0) ch) logged)))
    as Hbody.
  2:{ rewrite <- Hbody. unfold source_command. by destruct (type ch). }
  assert (priv logged = Some d) as Hpl by done.
  assert (replies (conn logged)
          = setup_replies (num_frames d =? 0) ch yinc yor yref n ++ rs)
    as Hrl by done.
  clearbody logged. clear Hlog Hp Hrs sdi.
  unfold setup_replies, setup_context, setup_calls in *.
  destruct (num_frames d =? 0) eqn:Hfirst.
  - apply Z.eqb_eq in Hfirst. cbv iota.
    assert (forall (s : stmt) S S' (k : stmt),
              s S = Some (None, S') ->
              (s;;; k) S = k S') as Hseq
      by (intros; by apply seq_through).
    destruct (type ch) eqn:Ht; simpl in Hrl.
    + rewrite (body_through _ _ _ _ (config_step _ _ _ _ Hrl)).
      set (S1 := answered _ logged).
      assert (((return_unless_ok (keysight_config_set WAV_FORM_BYTE) SR_ERR;;;
                return_unless_ok (keysight_config_set WAV_POIN_MODE_NORM)
                  SR_ERR;;;
                return_unless_ok (keysight_config_set WAV_UNS_ON) SR_ERR;;;
                skip) : stmt) S1
              = Some (None,
                      answered (configure WAV_FORM_BYTE
                                ++ configure WAV_POIN_MODE_NORM
                                ++ configure WAV_UNS_ON) S1)) as Hfirstblock.
      { erewrite Hseq;
          [|eapply config_step; unfold S1; next_replies Hrl].
        erewrite Hseq;
          [|eapply config_step; unfold S1; next_replies Hrl].
        erewrite Hseq;
          [|eapply config_step; unfold S1; next_replies Hrl].
        by rewrite !answered_app. }
      rewrite (body_through _ _ _ _ Hfirstblock).
      erewrite setup_tail_run;
        [|done|unfold S1; simpl; rewrite Hrl; reflexivity].
      unfold S1. by rewrite !answered_app.
    + destruct (Hidx eq_refl Hfirst) as (Hi0 & Hi1 & Hi2 & Hi3).
      rewrite (body_through _ _ _ _ (config_step _ _ _ _ Hrl)).
      set (S1 := answered _ logged).
      assert (((return_unless_ok (keysight_config_set WAV_FORM_BYTE) SR_ERR;;;
                return_unless_ok (keysight_config_set WAV_POIN_MODE_NORM)
                  SR_ERR;;;
                return_unless_ok (keysight_config_set WAV_UNS_ON) SR_ERR;;;
                query_into (sr_scpi_get_float WAV_YINC)
                  vert_inc set_vert_inc (index ch);;;
                query_into (sr_scpi_get_float WAV_YOR)
                  vert_origin set_vert_origin (index ch);;;
                query_into (sr_scpi_get_int WAV_YREF)
                  vert_reference set_vert_reference (index ch)) : stmt) S1
              = Some (None,
                      with_context
                        (calibrate (Z.to_nat (index ch)) yinc yor yref d)
                        (answered
                           (configure WAV_FORM_BYTE
                            ++ configure WAV_POIN_MODE_NORM
                            ++ configure WAV_UNS_ON
                            ++ [Scpi_get_float WAV_YINC;
                                Scpi_get_float WAV_YOR;
                                Scpi_get_int WAV_YREF]) S1))) as Hfirstblock.
      { erewrite Hseq;
          [|eapply config_step; unfold S1; next_replies Hrl].
        erewrite Hseq;
          [|eapply config_step; unfold S1; next_replies Hrl].
        erewrite Hseq;
          [|eapply config_step; unfold S1; next_replies Hrl].
        erewrite Hseq.
        2:{ eapply query_into_ok;
              [rewrite scpi_get_float_run; unfold S1; next_replies Hrl
              |exact Hpl|done|done]. }
        erewrite Hseq.
        2:{ eapply query_into_ok;
              [rewrite scpi_get_float_run; unfold S1; next_replies Hrl
              |reflexivity|done|exact Hi2]. }
        etrans.
        { eapply query_into_ok;
            [rewrite scpi_get_int_run; unfold S1; next_replies Hrl
            |reflexivity|done|exact Hi3]. }
        unfold S1.
        rewrite ?answered_with_context, ?with_context_twice, !answered_app.
        reflexivity. }
      rewrite (body_through _ _ _ _ Hfirstblock).
      etrans.
      { eapply setup_tail_run; [reflexivity|unfold S1; next_replies Hrl]. }
      unfold S1.
      rewrite ?answered_with_context, ?with_context_twice, !answered_app.
      reflexivity.
  - rewrite (body_through _ _ _ _ (config_step _ _ _ _ Hrl)).
    rewrite skip_through.
    erewrite setup_tail_run; [|done|simpl; rewrite Hrl; reflexivity].
    destruct (type ch); by rewrite answered_app.
Qed.

(** X9. When the instrument accepts every command and answers every query,
    [keysight_channel_start] returns [SR_OK] after exactly these calls, in
    this order: the selection of the source (the channel number, or pod 1
    for the digital channels 0 to 7 and pod 2 for the others) and its
    completion query; during the first frame only, the byte format, the
    normal points mode and the unsigned mode, each with its completion
    query, and for an analog channel the queries of the vertical increment,
    origin and reference, whose answers are stored at the index of the
    channel; the query of the number of points, which is stored; the data
    request and the start of the read.  The counters are reset and the
    state is [STATE_READING_DATA]. *)
Theorem channel_start_commands ch rest yinc yor yref n rs sdi d :
  priv sdi = Some d ->
  channel_entry d = ch :: rest ->
  (type ch = SR_CHANNEL_ANALOG -> num_frames d = 0 ->
   0 <= index ch /\
   (Z.to_nat (index ch) < length (vert_inc d))%nat /\
   (Z.to_nat (index ch) < length (vert_origin d))%nat /\
   (Z.to_nat (index ch) < length (vert_reference d))%nat) ->
  replies (conn sdi)
    = setup_replies (num_frames d =? 0) ch yinc yor yref n ++ rs ->
  exists sdi',
    keysight_channel_start sdi = Some (SR_OK, sdi') /\
    priv sdi'
      = Some (setup_context (num_frames d =? 0) ch yinc yor yref n d) /\
    calls (conn sdi')
      = calls (conn sdi) ++ setup_calls (num_frames d =? 0) ch /\
    replies (conn sdi') = rs /\
    rx (conn sdi') = rx (conn sdi) /\ ready (conn sdi') = ready (conn sdi) /\
    session sdi' = session sdi /\
    log sdi' = log sdi ++ [Dbg_channel_start (to_int (index ch + 1))].
Proof.
  intros Hp Hce Hidx Hrs.
  eexists. split; [by eapply channel_start_run|].
  split; [reflexivity|]. split; [reflexivity|].
  split; [|by repeat split].
  rewrite replies_with_context, replies_answered.
  change (replies (conn (sr_dev_inst_log sdi _))) with (replies (conn sdi)).
  rewrite Hrs. unfold setup_calls, setup_replies.
  by destruct (num_frames d =? 0), (type ch).
Qed.

(** ** The end of a channel and of a frame *)

Lemma receive_sequence_complete sdi d :
  priv sdi = Some d ->
  to_u64 (num_channel_bytes_total d) <= num_channel_bytes d ->
  receive_sequence sdi = receive_channel_end sdi.
Proof.
  intros Hp Hdone. unfold receive_sequence. apply seq_through.
  rewrite (bind_run _ _ _ _ _ (get_devc_run _ _ Hp)).
  by destruct (Z.ltb_spec (num_channel_bytes d)
                 (to_u64 (num_channel_bytes_total d))); [lia|].
Qed.

Lemma modify_run f sdi d :
  priv sdi = Some d -> modify_devc f sdi = Some (tt, with_context (f d) sdi).
Proof. intros Hp. unfold modify_devc. by rewrite Hp. Qed.

(** X10. The end of the last channel of a frame, whatever the frame limit:
    the callback returns TRUE; the session receives the frame end and then
    the frame begin of the next frame, and nothing else; the transport
    receives one command, the digitize command of the next capture, which
    is logged with the number of the frame after the one just counted; the
    frame is counted and the cursor is back on the first enabled channel.
    The frame begin is sent even when the digitize command could not be
    sent; the state is then [STATE_IDLE], and [STATE_DIGITIZING] otherwise.
    The calls of the session and those of the transport are recorded
    apart, so that the statement tells the order within each, not the order
    between a command and a packet. *)
Theorem frame_end_restarts ch sdi d :
  priv sdi = Some d ->
  channel_entry d = [ch] ->
  to_u64 (num_channel_bytes_total d) <= num_channel_bytes d ->
  exists sdi',
    receive_sequence sdi = Some (Some TRUE, sdi') /\
    session sdi' =
      session sdi
      ++ [Session_send SR_DF_FRAME_END; Session_send SR_DF_FRAME_BEGIN] /\
    calls (conn sdi') = calls (conn sdi) ++ [Scpi_send DIGITIZE_OPC] /\
    log sdi' =
      log sdi
      ++ [Dbg_capture_start (to_u64 (to_u64 (num_frames d + 1) + 1))
            (to_u64 (limit_frames d))] /\
    priv sdi' =
      Some (set_state
              (match hd Reply_err (replies (conn sdi)) with
               | Reply_ok => STATE_DIGITIZING
               | _ => STATE_IDLE
               end)
              (set_channel_entry (enabled_channels d)
                 (set_num_frames (to_u64 (num_frames d + 1)) d))).
Proof.
  intros Hp Hce Hdone.
  rewrite (receive_sequence_complete sdi d Hp Hdone).
  unfold receive_channel_end.
  rewrite (bind_run _ _ _ _ _ (get_devc_run _ _ Hp)). rewrite Hce.
  cbn [tail].
  erewrite exec_through by reflexivity.
  erewrite exec_through by (apply modify_run; first [exact Hp|reflexivity]).
  erewrite exec_through by (apply modify_run; first [exact Hp|reflexivity]).
  erewrite exec_through by (apply modify_run; first [exact Hp|reflexivity]).
  set (S4 := with_context _ _).
  pose proof (capture_start_run S4 _ eq_refl) as Hcap. cbv zeta in Hcap.
  change (replies (conn S4)) with (replies (conn sdi)) in Hcap.
  destruct (replies (conn sdi)) as [|r rs] eqn:Hrs.
  - erewrite exec_through by (rewrite (bind_run _ _ _ _ _ Hcap); reflexivity).
    erewrite exec_through by reflexivity.
    eexists. split; [reflexivity|].
    split; [simpl; by rewrite <- app_assoc|]. by repeat split.
  - destruct r;
      (erewrite exec_through
         by (rewrite (bind_run _ _ _ _ _ Hcap); reflexivity));
      (erewrite exec_through by reflexivity);
      (eexists; split; [reflexivity|]);
      (split; [simpl; by rewrite <- app_assoc|]); by repeat split.
Qed.

(** ** A read error while the header is awaited *)

Lemma read_more_failure sdi d target :
  priv sdi = Some d ->
  num_header_bytes d < target ->
  head (ready (conn sdi)) = Some Failure ->
  read_more target sdi
    = Some (Some SR_ERR,
            {| priv := Some d;
               conn := after_read (conn sdi)
                         (to_int (to_u64 (target - num_header_bytes d)));
               session := session sdi;
               log := log sdi ++ [Err_header_read] |}).
Proof.
  intros Hp Hlt Hfail. unfold read_more.
  rewrite (bind_run _ _ _ _ _ (get_devc_run _ _ Hp)).
  destruct (Z.ltb_spec (num_header_bytes d) target); [|lia].
  unfold sr_scpi_read_data, after_read, delivered. unfold_prims.
  explode sdi. by destruct ready0 as [|[k|] rs]; simplify_eq/=.
Qed.

Lemma read_more_done sdi d target :
  priv sdi = Some d -> target <= num_header_bytes d ->
  read_more target sdi = Some (None, sdi).
Proof.
  intros Hp Hge. unfold read_more.
  rewrite (bind_run _ _ _ _ _ (get_devc_run _ _ Hp)).
  by destruct (Z.ltb_spec (num_header_bytes d) target); [lia|].
Qed.

(** The read that the header decoder makes when [n] header bytes are
    buffered: toward the first two bytes, then toward the end of the header. *)
Lemma read_header_failure sdi d :
  priv sdi = Some d ->
  (2 <= length (buffer d))%nat ->
  0 <= num_header_bytes d < Z.of_nat (header_size (buffer d)) ->
  head (ready (conn sdi)) = Some Failure ->
  exists req,
    keysight_read_header sdi
      = Some (SR_ERR,
              {| priv := Some d; conn := after_read (conn sdi) req;
                 session := session sdi;
                 log := log sdi ++ [Err_header_read] |}).
Proof.
  intros Hp Hlen Hn Hfail. rewrite keysight_read_header_unfold.
  destruct (Z.lt_ge_cases (num_header_bytes d) 2) as [Hlt|Hge].
  { eexists. apply body_return. by apply read_more_failure. }
  rewrite (body_through _ _ _ _ (read_more_done _ _ _ Hp Hge)).
  assert ((devc ← get_devc;
           if num_header_bytes devc <? 2 then return_ 0 else skip) sdi
          = Some (None, sdi)) as Hcheck.
  { rewrite (bind_run _ _ _ _ _ (get_devc_run _ _ Hp)).
    by destruct (Z.ltb_spec (num_header_bytes d) 2); [lia|]. }
  rewrite (body_through _ _ _ _ Hcheck).
  rewrite (body_bind _ _ _ _ _ (get_devc_run _ _ Hp)).
  destruct (buffer d) as [|b0 [|b1 buf]] eqn:Hbuf; [simpl in Hlen; lia..|].
  change (array_get (b0 :: b1 :: buf) 0) with (Some b0).
  change (array_get (b0 :: b1 :: buf) 1) with (Some b1).
  rewrite (body_bind (lift (Some b0)) _ sdi b0 sdi eq_refl).
  rewrite (body_bind (lift (Some b1)) _ sdi b1 sdi eq_refl).
  unfold header_size in Hn.
  destruct (bad_header_start b0 b1) eqn:Hbad; [lia|].
  rewrite (body_through _ _ _ _ (eq_refl : skip sdi = Some (None, sdi))).
  cbv zeta.
  assert (49 <= b1 <= 57) as Hb1.
  { unfold bad_header_start, isdigit, CHAR_0 in Hbad.
    destruct (negb (b0 =? HASH)); [done|]. simpl in Hbad. lia. }
  assert (to_u64 (2 + b1 - CHAR_0) = 2 + b1 - CHAR_0) as Hhl
    by (apply to_u64_small; unfold CHAR_0; lia).
  eexists. apply body_return. apply read_more_failure; [done| |done].
  rewrite Hhl. lia.
Qed.

(** X11. A transport read error while the header of a block is still
    incomplete (fewer than two bytes buffered, or fewer than the two bytes and
    the length digit announce): the call returns TRUE, reports the failed read
    and the abort, sends exactly one frame end, stops the acquisition and
    leaves the state idle; the failed read is its only transport call, and the
    buffer and the counters of the context are untouched. *)
Theorem header_read_error_aborts log10f (fd revents : Z) sdi d ch rest :
  revents = G_IO_IN \/ revents = 0 ->
  priv sdi = Some d ->
  state d = STATE_READING_DATA ->
  channel_entry d = ch :: rest ->
  num_block_bytes d = 0 ->
  (2 <= length (buffer d))%nat ->
  0 <= num_header_bytes d < Z.of_nat (header_size (buffer d)) ->
  head (ready (conn sdi)) = Some Failure ->
  exists sdi' req,
    keysight_receive log10f fd revents (Some sdi) = Some (TRUE, Some sdi') /\
    session sdi' =
      session sdi ++ [Session_send SR_DF_FRAME_END; Acquisition_stop] /\
    priv sdi' = Some (set_state STATE_IDLE d) /\
    calls (conn sdi') = calls (conn sdi) ++ [Scpi_read_data req] /\
    rx (conn sdi') = rx (conn sdi) /\
    log sdi' =
      log sdi ++ [Dbg_new_block_header; Err_header_read; Err_abort_header].
Proof.
  intros Hev Hp Hst Hce Hnbb Hlen Hn Hfail.
  rewrite (receive_run log10f _ _ _ _ Hev Hp), (dispatch_reading log10f _ _ _ _ Hp Hst Hce).
  destruct (read_header_failure
              (sr_dev_inst_log sdi (log sdi ++ [Dbg_new_block_header])) d)
    as [req Hrun]; [done..|].
  exists {| priv := Some (set_state STATE_IDLE d);
            conn := after_read (conn sdi) req;
            session := session sdi
                         ++ [Session_send SR_DF_FRAME_END; Acquisition_stop];
            log := log sdi ++ [Dbg_new_block_header; Err_header_read;
                               Err_abort_header] |}, req.
  split; [|unfold after_read, delivered; simpl;
           by destruct (ready (conn sdi)) as [|[k|] evs]; simplify_eq/=].
  erewrite body_return; [reflexivity|].
  unfold receive_header.
  rewrite (bind_run _ _ _ _ _ (get_devc_run _ _ Hp)), Hnbb.
  change (0 =? 0) with true. cbv iota.
  erewrite seq_through by reflexivity.
  rewrite (bind_run _ _ _ _ _ Hrun).
  change (SR_ERR =? 0) with false. change (SR_ERR =? -1) with true. cbv iota.
  unfold_prims. simpl. by rewrite <- !app_assoc.
Qed.

(** ** From one channel of a frame to the next *)

(** *** The calls and the log only grow *)

Lemma extends_ret {A} (a : A) : extends (mret a).
Proof. by intros sdi a' sdi' [= _ <-]. Qed.

Lemma extends_bind {A B} (m : M A) (f : A -> M B) :
  extends m -> (forall a, extends (f a)) -> extends (m ≫= f).
Proof.
  intros Hm Hf sdi b sdi' Hrun. unfold mbind, M_bind in Hrun.
  destruct (m sdi) as [[a sdi1]|] eqn:Hm1; [|done].
  destruct (Hm _ _ _ Hm1) as [Hc1 Hl1], (Hf _ _ _ _ Hrun) as [Hc2 Hl2].
  split; by etrans.
Qed.

Lemma extends_seq (s k : stmt) : extends s -> extends k -> extends (s;;; k).
Proof.
  intros Hs Hk. apply extends_bind; [done|].
  intros [v|]; [apply extends_ret|done].
Qed.

Lemma extends_exec (m : M unit) : extends m -> extends (exec m).
Proof. intros Hm. apply extends_bind; [done|]. intros _. apply extends_ret. Qed.

Lemma extends_return_unless_ok (m : M Z) (e : Z) :
  extends m -> extends (return_unless_ok m e).
Proof.
  intros Hm. apply extends_bind; [done|].
  intros r. destruct (negb _); apply extends_ret.
Qed.

Lemma extends_get_devc : extends get_devc.
Proof.
  intros sdi d sdi' Hrun. unfold get_devc in Hrun.
  destruct (priv sdi); by simplify_eq.
Qed.

Lemma extends_modify (f : dev_context -> dev_context) : extends (modify_devc f).
Proof.
  intros sdi [] sdi' Hrun. unfold modify_devc in Hrun.
  destruct (priv sdi); by simplify_eq.
Qed.

Lemma extends_lift {A} (o : option A) : extends (lift o).
Proof. intros sdi a sdi' Hrun. unfold lift in Hrun. destruct o; by simplify_eq. Qed.

Lemma extends_exchange (c : scpi_call) : extends (scpi_exchange c).
Proof.
  intros sdi r sdi' Hrun. unfold scpi_exchange in Hrun. unfold_prims.
  simplify_eq. simpl. split; [by apply prefix_app_r|done].
Qed.

Lemma extends_answer {A} (c : scpi_call) (answer : scpi_reply -> A) :
  extends (r ← scpi_exchange c; mret (answer r)).
Proof.
  apply extends_bind; [apply extends_exchange|intros; apply extends_ret].
Qed.

Lemma extends_config_set (c : scpi_command) : extends (keysight_config_set c).
Proof.
  apply extends_bind.
  { apply extends_bind; [apply extends_exchange|intros; apply extends_ret]. }
  intros r. destruct (negb _); [apply extends_ret|].
  apply extends_bind; [apply extends_exchange|intros; apply extends_ret].
Qed.

Lemma extends_query_into {A} (c : scpi_call)
    (answer : scpi_reply -> Z * option A)
    (arr : dev_context -> list A) (set : list A -> dev_context -> dev_context)
    (i : Z) :
  extends (query_into (r ← scpi_exchange c; mret (answer r)) arr set i).
Proof.
  apply extends_bind.
  { apply extends_bind; [apply extends_exchange|intros; apply extends_ret]. }
  intros [r [x|]]; (apply extends_bind;
                    [|intros _; destruct (negb _); apply extends_ret]).
  - apply extends_bind; [apply extends_get_devc|]. intros d.
    apply extends_bind; [apply extends_lift|]. intros a.
    apply extends_modify.
  - apply extends_ret.
Qed.

(** The set-up of a channel begins with the selection of its source, after
    the message that tells the channel. *)
Lemma channel_start_begins sdi d ch rest r sdi' :
  priv sdi = Some d ->
  channel_entry d = ch :: rest ->
  keysight_channel_start sdi = Some (r, sdi') ->
  (exists cs,
     calls (conn sdi')
       = calls (conn sdi) ++ Scpi_send (source_command ch) :: cs) /\
  (exists l,
     log sdi' = log sdi ++ Dbg_channel_start (to_int (index ch + 1)) :: l).
Proof.
  intros Hp Hce Hrun.
  unfold keysight_channel_start in Hrun. rewrite Hp in Hrun.
  rewrite (body_bind _ _ _ _ _ (current_channel_run _ _ _ _ Hp Hce)) in Hrun.
  set (logged := sr_dev_inst_log sdi
                   (log sdi ++ [Dbg_channel_start (to_int (index ch + 1))])).
  assert (exec (sr_log (Dbg_channel_start (to_int (index ch + 1)))) sdi
          = Some (None, logged)) as Hlog by done.
  rewrite (body_through _ _ _ _ Hlog) in Hrun.
  assert (forall c (k : stmt),
            extends k ->
            body (return_unless_ok (keysight_config_set c) SR_ERR;;; k) logged
              = Some (r, sdi') ->
            calls (conn logged) ++ [Scpi_send c] `prefix_of` calls (conn sdi')
            /\ log logged `prefix_of` log sdi') as Hbegin.
  { intros c k Hk Hbody. unfold body, seq, return_unless_ok in Hbody.
    unfold mbind at 1 2 3, M_bind at 1 2 3 in Hbody.
    pose proof (config_set_run c logged) as Hcfg.
    set (sent := answered [Scpi_send c] logged) in *.
    assert (calls (conn logged) ++ [Scpi_send c]
              `prefix_of` calls (conn (answered (configure c) logged)))
      as Hboth.
    { unfold answered, configure. cbn [calls conn].
      change [Scpi_send c; Scpi_get_opc]
        with ([Scpi_send c] ++ [Scpi_get_opc]).
      rewrite app_assoc. by apply prefix_app_r. }
    destruct (keysight_config_set c logged) as [[v S1]|] eqn:Hv; [|done].
    assert (calls (conn logged) ++ [Scpi_send c] `prefix_of` calls (conn S1)
            /\ log logged `prefix_of` log S1) as [Hc1 Hl1].
    { destruct (replies (conn logged)) as [|[] rs]; by simplify_eq. }
    destruct (negb (v =? SR_OK)).
    - unfold return_, mret, M_ret in Hbody. by simplify_eq.
    - unfold skip, mret, M_ret in Hbody.
      destruct (k S1) as [[o S2]|] eqn:Hk2; [|done].
      destruct (Hk _ _ _ Hk2) as [Hc2 Hl2].
      assert (S2 = sdi') as -> by (destruct o; by simplify_eq).
      split; by etrans. }
  assert (calls (conn logged) ++ [Scpi_send (source_command ch)]
            `prefix_of` calls (conn sdi')
          /\ log logged `prefix_of` log sdi') as [[cs Hcs] [l Hl]].
  { unfold source_command.
    destruct (type ch); (eapply Hbegin; [|exact Hrun]);
      repeat first
        [ apply extends_seq | apply extends_exec | apply extends_modify
        | apply extends_return_unless_ok | apply extends_config_set
        | apply extends_query_into | apply extends_ret
        | apply extends_answer
        | apply extends_bind; [|intros [? [?|]]]
        | apply extends_bind; [|intros ?]
        | match goal with |- extends (if ?b then _ else _) => destruct b end ]. }
  split.
  - exists cs. rewrite Hcs. simpl. by rewrite <- app_assoc.
  - exists l. rewrite Hl. simpl. by rewrite <- app_assoc.
Qed.

(** X12. The end of a channel that is not the last of the frame: the callback
    moves the cursor to the next enabled channel and runs the set-up of that
    channel, which logs the channel and begins with the selection of its
    source; it returns TRUE whatever the set-up returns.  Nothing is sent to
    the session (neither a frame end nor a frame begin), the frame counter
    and the frame limit are unchanged and nothing is read from the
    transport.  The state becomes [STATE_READING_DATA] when the set-up
    returns [SR_OK] and is unchanged otherwise; the three progress counters
    are untouched when the set-up returns [SR_ERR] and 0 otherwise. *)
Theorem next_channel_within_frame E ch next rest sdi d :
  priv sdi = Some d ->
  context_ok E d ->
  channel_entry d = ch :: next :: rest ->
  to_u64 (num_channel_bytes_total d) <= num_channel_bytes d ->
  let moved := set_channel_entry (next :: rest) d in
  exists r sdi' d',
    keysight_channel_start (with_context moved sdi) = Some (r, sdi') /\
    receive_sequence sdi = Some (Some TRUE, sdi') /\
    priv sdi' = Some d' /\
    channel_entry d' = next :: rest /\
    (exists cs,
       calls (conn sdi')
         = calls (conn sdi) ++ Scpi_send (source_command next) :: cs) /\
    (exists l,
       log sdi'
         = log sdi ++ Dbg_channel_start (to_int (index next + 1)) :: l) /\
    session sdi' = session sdi /\
    rx (conn sdi') = rx (conn sdi) /\
    ready (conn sdi') = ready (conn sdi) /\
    num_frames d' = num_frames d /\
    limit_frames d' = limit_frames d /\
    state d' = (if r =? SR_OK then STATE_READING_DATA else state d) /\
    ((r = SR_ERR /\ setup_frame E moved (with_context moved sdi) 0 sdi') \/
     (r = TRUE /\ setup_frame E moved (with_context moved sdi) 3 sdi') \/
     (r = SR_OK /\
      setup_frame E (set_state STATE_READING_DATA moved)
        (with_context moved sdi) 3 sdi')) /\
    context_ok E d'.
Proof.
  intros Hp Hd Hce Hdone d1.
  rewrite (receive_sequence_complete _ _ Hp Hdone).
  unfold receive_channel_end.
  rewrite (bind_run _ _ _ _ _ (get_devc_run _ _ Hp)), Hce.
  cbn [tail].
  rewrite (exec_through _ _ _ _ (modify_run _ _ _ Hp)).
  fold d1.
  assert (context_ok E d1) as Hd1.
  { destruct Hd as (HE & [k Hsuf] & Hne & Hrest).
    split; [done|]. split; [|split; [done|exact Hrest]].
    exists (k ++ [ch]). rewrite Hsuf, Hce, <- app_assoc. reflexivity. }
  destruct (channel_start_phases E d1 (with_context d1 sdi)
              (with_context d1 sdi)
              (setup_frame_start E (with_context d1 sdi) d1 eq_refl Hd1))
    as (r & sdi' & Hrun & Hout).
  destruct (channel_start_begins (with_context d1 sdi) d1 next rest r sdi'
              eq_refl eq_refl Hrun) as [Hcalls Hlog].
  assert ((keysight_channel_start;; mret tt) (with_context d1 sdi)
          = Some (tt, sdi')) as Hrun'.
  { by rewrite (bind_run _ _ _ _ _ Hrun). }
  rewrite (exec_through _ _ _ _ Hrun').
  assert (exists d0,
            (setup_frame E d0 (with_context d1 sdi) 0 sdi' \/
             setup_frame E d0 (with_context d1 sdi) 3 sdi') /\
            channel_entry d0 = next :: rest /\
            num_frames d0 = num_frames d /\
            limit_frames d0 = limit_frames d /\
            state d0 = (if r =? SR_OK then STATE_READING_DATA else state d))
    as (d0 & Hf & Hc0 & Hn0 & Hl0 & Hs0).
  { destruct Hout as [[-> Hf]|[[-> Hf]|[-> Hf]]].
    - exists d1. by auto.
    - exists d1. by auto.
    - exists (set_state STATE_READING_DATA d1). by auto. }
  assert (exists d',
            session sdi' = session sdi /\ rx (conn sdi') = rx (conn sdi) /\
            ready (conn sdi') = ready (conn sdi) /\
            priv sdi' = Some d' /\ context_ok E d' /\
            state d' = state d0 /\ limit_frames d' = limit_frames d0 /\
            num_frames d' = num_frames d0 /\
            channel_entry d' = channel_entry d0)
    as (d' & Hs & Hrx & Hrd & Hp' & Hd' & Hst & Hlim & Hnf & Hch).
  { destruct Hf as [Hf|Hf];
      destruct Hf as (? & ? & ? & d' & ? & ? & ? & ? & ? & ? & _);
      by exists d'. }
  exists r, sdi', d'. split; [done|]. split; [reflexivity|].
  split; [done|]. split; [congruence|]. split; [done|]. split; [done|].
  split; [done|]. split; [done|]. split; [done|]. split; [congruence|].
  split; [congruence|]. split; [congruence|]. by split.
Qed.

(** ** Instances of the further properties *)

Lemma parse_int_reads_decimal_witness :
  parse_int [32; 45; 49; 50] idle_device
    = Some ((SR_OK, Some (-12)), idle_device).
Proof.
  apply (parse_int_reads_decimal [32] [MINUS] [49; 50] idle_device).
  - by repeat constructor.
  - by right; right.
  - discriminate.
  - by repeat constructor.
  - vm_compute. split; discriminate.
Defined.

Lemma parse_int_rejects_syntax_witness :
  parse_int [49; 97] idle_device
    = Some ((SR_ERR, None),
            sr_dev_inst_log idle_device
              (log idle_device ++ [Dbg_parse_failed])).
Proof.
  apply (parse_int_rejects_syntax [49; 97] idle_device).
  intros (ws & sg & ds & Heq & Hws & Hsg & Hne & Hds).
  destruct ws as [|c ws].
  - destruct Hsg as [->|[->| ->]]; simpl in Heq; [|discriminate..].
    subst ds. inversion Hds as [|? ? _ Hds']. inversion Hds' as [|? ? Hc].
    discriminate.
  - injection Heq as <- _. inversion Hws as [|? ? Hc]. discriminate.
Defined.

Lemma parse_int_rejects_range_witness :
  parse_int [50; 49; 52; 55; 52; 56; 51; 54; 52; 56] idle_device
    = Some ((SR_ERR, None),
            sr_dev_inst_log idle_device
              (log idle_device ++ [Dbg_parse_range])).
Proof.
  apply (parse_int_rejects_range [] []
           [50; 49; 52; 55; 52; 56; 51; 54; 52; 56] idle_device).
  - constructor.
  - by left.
  - discriminate.
  - by repeat constructor.
  - vm_compute. intros [_ H]. by apply H.
Defined.

Lemma receive_keeps_well_formed_witness :
  (exists sdi',
     keysight_receive log10f_at_one 0 G_IO_IN (Some scenario2)
       = Some (TRUE, Some sdi') /\
     well_formed [CH1; CH2; D0] sdi') /\
  (forall n, exists sdi',
     receive_events log10f_at_one n G_IO_IN (Some scenario2)
       = Some (Some sdi') /\
     well_formed [CH1; CH2; D0] sdi').
Proof.
  apply (receive_keeps_well_formed log10f_at_one [CH1; CH2; D0] 0 G_IO_IN
           scenario2).
  exists (fresh_context [CH1; CH2; D0] 2 STATE_DIGITIZING).
  split; [reflexivity|].
  split; [reflexivity|]. split; [by exists []|]. split; [discriminate|].
  split.
  { repeat (apply Forall_cons; split;
              [intros H; first [discriminate|simpl; by vm_compute]|]).
    constructor. }
  split; [split; vm_compute; [reflexivity|discriminate]|].
  split; [simpl; lia|]. by repeat split.
Defined.

Lemma calibration_immutable_witness :
  exists sdi' d',
    keysight_receive log10f_at_one 0 G_IO_IN (Some later_frame)
      = Some (TRUE, Some sdi') /\
    priv sdi' = Some d' /\
    vert_reference d' = vert_reference later_frame_context /\
    vert_inc d' = vert_inc later_frame_context /\
    vert_origin d' = vert_origin later_frame_context /\
    vert_offset d' = vert_offset later_frame_context.
Proof.
  apply (calibration_immutable log10f_at_one [CH1; D0] 0 G_IO_IN later_frame
           later_frame_context).
  - reflexivity.
  - split; [reflexivity|]. split; [by exists []|]. split; [discriminate|].
    split.
    { repeat (apply Forall_cons; split;
                [intros H; first [discriminate|simpl; by vm_compute]|]).
      constructor. }
    split; [split; vm_compute; [reflexivity|discriminate]|].
    split; [simpl; lia|]. by repeat split.
  - simpl. lia.
Defined.

Lemma channel_start_outcome_witness :
  exists r sdi',
    keysight_channel_start later_frame = Some (r, sdi') /\
    ((r = SR_ERR /\
      setup_frame [CH1; D0] later_frame_context later_frame 0 sdi') \/
     (r = TRUE /\
      setup_frame [CH1; D0] later_frame_context later_frame 3 sdi') \/
     (r = SR_OK /\
      setup_frame [CH1; D0]
        (set_state STATE_READING_DATA later_frame_context) later_frame 3
        sdi')).
Proof.
  apply (channel_start_outcome [CH1; D0] later_frame later_frame_context).
  - reflexivity.
  - split; [reflexivity|]. split; [by exists []|]. split; [discriminate|].
    split.
    { repeat (apply Forall_cons; split;
                [intros H; first [discriminate|simpl; by vm_compute]|]).
      constructor. }
    split; [split; vm_compute; [reflexivity|discriminate]|].
    split; [simpl; lia|]. by repeat split.
Defined.

Lemma capture_start_outcome_witness :
  exists r sdi',
    keysight_capture_start (channel_read [D0] [Reply_ok]) = Some (r, sdi') /\
    session sdi' = session (channel_read [D0] [Reply_ok]) /\
    log sdi' =
      log (channel_read [D0] [Reply_ok])
      ++ [Dbg_capture_start (to_u64 (num_frames (channel_read_context [D0]) + 1))
            (to_u64 (limit_frames (channel_read_context [D0])))] /\
    calls (conn sdi')
      = calls (conn (channel_read [D0] [Reply_ok]))
        ++ [Scpi_send DIGITIZE_OPC] /\
    rx (conn sdi') = rx (conn (channel_read [D0] [Reply_ok])) /\
    ready (conn sdi') = ready (conn (channel_read [D0] [Reply_ok])) /\
    match hd Reply_err (replies (conn (channel_read [D0] [Reply_ok]))) with
    | Reply_ok =>
        r = SR_OK /\
        priv sdi' = Some (set_state STATE_DIGITIZING (channel_read_context [D0]))
    | _ => r = TRUE /\ priv sdi' = Some (channel_read_context [D0])
    end.
Proof.
  apply (capture_start_outcome (channel_read [D0] [Reply_ok])
           (channel_read_context [D0])).
  reflexivity.
Defined.

Lemma channel_start_commands_witness :
  exists sdi',
    keysight_channel_start scenario2 = Some (SR_OK, sdi') /\
    priv sdi'
      = Some (setup_context true CH1 f32_one f32_zero 128 4
                (fresh_context [CH1; CH2; D0] 2 STATE_DIGITIZING)) /\
    calls (conn sdi') = calls (conn scenario2) ++ setup_calls true CH1 /\
    replies (conn sdi') = drop 14 scenario2_replies /\
    rx (conn sdi') = rx (conn scenario2) /\
    ready (conn sdi') = ready (conn scenario2) /\
    session sdi' = session scenario2 /\
    log sdi' = log scenario2 ++ [Dbg_channel_start (to_int (index CH1 + 1))].
Proof.
  apply (channel_start_commands CH1 [CH2; D0] f32_one f32_zero 128 4
           (drop 14 scenario2_replies) scenario2
           (fresh_context [CH1; CH2; D0] 2 STATE_DIGITIZING)).
  - reflexivity.
  - reflexivity.
  - intros _ _. vm_compute. repeat split; [discriminate|lia..].
  - vm_compute. reflexivity.
Defined.

Lemma frame_end_restarts_witness :
  exists sdi',
    receive_sequence (channel_read [D0] [Reply_ok]) = Some (Some TRUE, sdi') /\
    session sdi' =
      session (channel_read [D0] [Reply_ok])
      ++ [Session_send SR_DF_FRAME_END; Session_send SR_DF_FRAME_BEGIN] /\
    calls (conn sdi')
      = calls (conn (channel_read [D0] [Reply_ok]))
        ++ [Scpi_send DIGITIZE_OPC] /\
    log sdi' =
      log (channel_read [D0] [Reply_ok])
      ++ [Dbg_capture_start
            (to_u64 (to_u64 (num_frames (channel_read_context [D0]) + 1) + 1))
            (to_u64 (limit_frames (channel_read_context [D0])))] /\
    priv sdi' =
      Some (set_state
              (match hd Reply_err
                       (replies (conn (channel_read [D0] [Reply_ok]))) with
               | Reply_ok => STATE_DIGITIZING
               | _ => STATE_IDLE
               end)
              (set_channel_entry
                 (enabled_channels (channel_read_context [D0]))
                 (set_num_frames
                    (to_u64 (num_frames (channel_read_context [D0]) + 1))
                    (channel_read_context [D0])))).
Proof.
  apply (frame_end_restarts D0 (channel_read [D0] [Reply_ok])
           (channel_read_context [D0])).
  - reflexivity.
  - reflexivity.
  - vm_compute. discriminate.
Defined.

Lemma header_read_error_aborts_witness :
  exists sdi' req,
    keysight_receive log10f_at_one 0 G_IO_IN (Some (awaiting [] [Failure]))
      = Some (TRUE, Some sdi') /\
    session sdi' =
      session (awaiting [] [Failure])
      ++ [Session_send SR_DF_FRAME_END; Acquisition_stop] /\
    priv sdi'
      = Some (set_state STATE_IDLE (fresh_context [CH1] 0 STATE_READING_DATA)) /\
    calls (conn sdi')
      = calls (conn (awaiting [] [Failure])) ++ [Scpi_read_data req] /\
    rx (conn sdi') = rx (conn (awaiting [] [Failure])) /\
    log sdi' =
      log (awaiting [] [Failure])
      ++ [Dbg_new_block_header; Err_header_read; Err_abort_header].
Proof.
  apply (header_read_error_aborts log10f_at_one 0 G_IO_IN
           (awaiting [] [Failure])
           (fresh_context [CH1] 0 STATE_READING_DATA) CH1 []).
  - by left.
  - reflexivity.
  - reflexivity.
  - reflexivity.
  - reflexivity.
  - apply Nat.leb_le. vm_compute. reflexivity.
  - vm_compute. split; [discriminate|reflexivity].
  - reflexivity.
Defined.

Lemma next_channel_within_frame_witness :
  let sdi := channel_read [CH1; D0] (config_ok ++ transfer 4) in
  let d := channel_read_context [CH1; D0] in
  let moved := set_channel_entry [D0] d in
  exists r sdi' d',
    keysight_channel_start (with_context moved sdi) = Some (r, sdi') /\
    receive_sequence sdi = Some (Some TRUE, sdi') /\
    priv sdi' = Some d' /\
    channel_entry d' = [D0] /\
    (exists cs,
       calls (conn sdi')
         = calls (conn sdi) ++ Scpi_send (source_command D0) :: cs) /\
    (exists l,
       log sdi'
         = log sdi ++ Dbg_channel_start (to_int (index D0 + 1)) :: l) /\
    session sdi' = session sdi /\
    rx (conn sdi') = rx (conn sdi) /\
    ready (conn sdi') = ready (conn sdi) /\
    num_frames d' = num_frames d /\
    limit_frames d' = limit_frames d /\
    state d' = (if r =? SR_OK then STATE_READING_DATA else state d) /\
    ((r = SR_ERR /\ setup_frame [CH1; D0] moved (with_context moved sdi) 0 sdi') \/
     (r = TRUE /\ setup_frame [CH1; D0] moved (with_context moved sdi) 3 sdi') \/
     (r = SR_OK /\
      setup_frame [CH1; D0] (set_state STATE_READING_DATA moved)
        (with_context moved sdi) 3 sdi')) /\
    context_ok [CH1; D0] d'.
Proof.
  apply (next_channel_within_frame [CH1; D0] CH1 D0 []
           (channel_read [CH1; D0] (config_ok ++ transfer 4))
           (channel_read_context [CH1; D0])).
  - reflexivity.
  - split; [reflexivity|]. split; [by exists []|]. split; [discriminate|].
    split.
    { repeat (apply Forall_cons; split;
                [intros H; first [discriminate|simpl; by vm_compute]|]).
      constructor. }
    split; [split; vm_compute; [reflexivity|discriminate]|].
    split; [simpl; lia|]. by repeat split.
  - reflexivity.
  - vm_compute. discriminate.
Defined.
